(** * The document ingestion pipeline of the RFP system, embedded in Rocq

    Embedded sources:
    - [src/config.py]                      ([Settings]: chunk size and overlap)
    - [src/data/document_processor.py]     ([DocumentProcessor])
    - [src/data/document_processor_ocr.py] ([DocumentProcessorWithOCR])
    - [src/vectordb/vector_store.py]       ([VectorStore.add_documents])
    - [src/data/ingest_documents.py]       ([DocumentIngestionPipeline])

    Python values are modelled as follows.
    - A [str] is the list of its Unicode code points ([list N]); [len] is
      the length of that list, as in Python.
    - An [int] is a [Z].
    - A [dict] with string keys is a [gmap (list N) pyval].  The single dict
      whose identity matters (the caller's [metadata] argument of
      [ingest_file]) lives in a heap of dict objects and is passed by
      reference.
    - Exceptions, the logger and the calls into other components are
      effects of a state-and-exception monad; a [while] loop takes fuel. *)

From Stdlib Require Import ZArith NArith List Ascii String Lia Bool DecimalNat.
From stdpp Require Import base option list gmap fin_maps countable.

Import ListNotations.
Local Open Scope Z_scope.

(** ** Python strings *)

Abbreviation pystr := (list N).

(** The code points of a literal (for literals below U+0100). *)
Definition py (s : string) : pystr :=
  List.map N_of_ascii (list_ascii_of_string s).

Definition NL : N := 10%N.     (* "\n" *)
Definition DOT : N := 46%N.    (* "." *)
Definition SPACE : N := 32%N.  (* " " *)
Definition UNDERSCORE : N := 95%N.

Definition len {A} (l : list A) : Z := Z.of_nat (length l).

(** [str.isspace] on one code point (CPython's [Py_UNICODE_ISSPACE]). *)
Definition isspace (c : N) : bool :=
  ((9 <=? c) && (c <=? 13) || (28 <=? c) && (c <=? 32)
   || (c =? 133) || (c =? 160) || (c =? 5760)
   || (8192 <=? c) && (c <=? 8202)
   || (c =? 8232) || (c =? 8233) || (c =? 8239) || (c =? 8287)
   || (c =? 12288))%N.

Fixpoint lstrip (s : pystr) : pystr :=
  match s with
  | c :: s' => if isspace c then lstrip s' else s
  | [] => []
  end.

Definition rstrip (s : pystr) : pystr := rev (lstrip (rev s)).

(** [s.strip()] *)
Definition strip (s : pystr) : pystr := rstrip (lstrip s).

(** Index normalisation shared by slicing and by the [start]/[end]
    arguments of [str.rfind]: a negative index counts from the end, and the
    result is clamped to [0 .. n]. *)
Definition norm_index (n i : Z) : Z :=
  if i <? 0 then Z.max 0 (i + n) else Z.min i n.

(** [s[i:j]] *)
Definition slice {A} (s : list A) (i j : Z) : list A :=
  let a := norm_index (len s) i in
  let b := norm_index (len s) j in
  if a <? b then firstn (Z.to_nat (b - a)) (skipn (Z.to_nat a) s) else [].

Fixpoint rfind_scan (s : pystr) (c : N) (i a b acc : Z) : Z :=
  match s with
  | [] => acc
  | x :: s' =>
      rfind_scan s' c (i + 1) a b
        (if (a <=? i) && (i <? b) && (x =? c)%N then i else acc)
  end.

(** [s.rfind(c, i, j)] for a one-character [c]: the highest index in
    [s[i:j]] holding [c], or [-1]. *)
Definition rfind (s : pystr) (c : N) (i j : Z) : Z :=
  rfind_scan s c 0 (norm_index (len s) i) (norm_index (len s) j) (-1).

(** [s.replace(a, b)] for one-character [a] and [b]. *)
Definition replace_char (a b : N) (s : pystr) : pystr :=
  List.map (fun c => if (c =? a)%N then b else c) s.

(** [s.lower()], on the ASCII letters.  The result is only ever compared
    with ASCII file suffixes none of whose letters is the lower-case form of
    a non-ASCII code point, so the comparison is not affected. *)
Definition lower (s : pystr) : pystr :=
  List.map (fun c => if (65 <=? c)%N && (c <=? 90)%N then (c + 32)%N else c) s.

Fixpoint uint_codes (d : Decimal.uint) : pystr :=
  match d with
  | Decimal.Nil => []
  | Decimal.D0 d => 48%N :: uint_codes d
  | Decimal.D1 d => 49%N :: uint_codes d
  | Decimal.D2 d => 50%N :: uint_codes d
  | Decimal.D3 d => 51%N :: uint_codes d
  | Decimal.D4 d => 52%N :: uint_codes d
  | Decimal.D5 d => 53%N :: uint_codes d
  | Decimal.D6 d => 54%N :: uint_codes d
  | Decimal.D7 d => 55%N :: uint_codes d
  | Decimal.D8 d => 56%N :: uint_codes d
  | Decimal.D9 d => 57%N :: uint_codes d
  end.

(** [f"{n}"] for a natural number [n]. *)
Definition str_of_nat (n : nat) : pystr := uint_codes (Nat.to_uint n).

(** [sep.join(parts)] *)
Fixpoint join (sep : pystr) (parts : list pystr) : pystr :=
  match parts with
  | [] => []
  | [p] => p
  | p :: ps => p ++ sep ++ join sep ps
  end.

(** ** Settings ([src/config.py]) *)

Record Settings := { chunk_size : Z; chunk_overlap : Z }.

(** The values when [CHUNK_SIZE] and [CHUNK_OVERLAP] are not set. *)
Definition default_settings : Settings :=
  {| chunk_size := 1000; chunk_overlap := 200 |}.

(** [x or d] for an [Optional[int]]: [None] and [0] are falsy. *)
Definition int_or (x : option Z) (d : Z) : Z :=
  match x with
  | Some v => if v =? 0 then d else v
  | None => d
  end.

(** ** The chunker ([chunk_text], the same code in both processors) *)

(** The body of the loop up to the computation of [end]. *)
Definition chunk_end (text : pystr) (size start : Z) : Z :=
  let end_ := start + size in
  if end_ <? len text then
    let last_period := rfind text DOT start end_ in
    let last_newline := rfind text NL start end_ in
    let break_point := Z.max last_period last_newline in
    if break_point >? start then break_point + 1 else end_
  else end_.

(** [while start < len(text): ...]; [None] when the fuel runs out. *)
Fixpoint chunk_loop (fuel : nat) (text : pystr) (size overlap start : Z)
    (chunks : list pystr) : option (list pystr) :=
  match fuel with
  | O => None
  | S fuel' =>
      if start <? len text then
        let end_ := chunk_end text size start in
        chunk_loop fuel' text size overlap (end_ - overlap)
          (chunks ++ [strip (slice text start end_)])
      else Some chunks
  end.

Definition chunk_text (fuel : nat) (settings : Settings) (text : pystr)
    (chunk_size_arg chunk_overlap_arg : option Z) : option (list pystr) :=
  let size := int_or chunk_size_arg (chunk_size settings) in
  let overlap := int_or chunk_overlap_arg (chunk_overlap settings) in
  if len text <=? size then Some [text]
  else chunk_loop fuel text size overlap 0 [].

(** ** Values, dicts, exceptions and effects *)

Inductive pyval :=
  | VStr (s : pystr)
  | VInt (z : Z)
  | VBool (b : bool)
  | VStrList (l : list pystr)
  | VNone.

#[global] Instance pyval_eq_dec : EqDecision pyval.
Proof. solve_decision. Defined.

Abbreviation dict := (gmap (list N) pyval).

(** An instance of a subclass of [Exception], with its [str()]. *)
Inductive exn := Exception (msg : pystr).

Definition exn_str (e : exn) : pystr := let 'Exception m := e in m.

(** What a call into a library (pypdf, python-docx, the file system,
    pdf2image, pytesseract, sentence-transformers, chromadb) does. *)
Inductive ext (A : Type) :=
  | Ok (a : A)
  | Fails (e : exn).
Arguments Ok {A} a.
Arguments Fails {A} e.

(** [pathlib.Path]: [str(p)], [p.name], [p.stem] and [p.suffix]. *)
Record Path := {
  path_str : pystr;
  path_name : pystr;
  path_stem : pystr;
  path_suffix : pystr
}.

(** What the libraries report about the file at a path. *)
Record File := {
  pdf_pages : ext (list (ext pystr));
      (* PdfReader(p), then page.extract_text() for each of reader.pages *)
  docx_paragraphs : ext (list pystr);
      (* Document(p), then para.text for each of doc.paragraphs *)
  txt_read : ext pystr;
      (* open(p, "r", encoding="utf-8").read() *)
  stat_size : ext Z;
      (* p.stat().st_size *)
  ocr_pages : ext (list (ext pystr))
      (* convert_from_path(p, dpi=300), then image_to_string per image *)
}.

Record FileSystem := {
  fs_file : Path -> File;
  fs_glob : Path -> pystr -> list Path;    (* directory.glob(pattern) *)
  fs_rglob : Path -> pystr -> list Path    (* directory.rglob(pattern) *)
}.

Inductive level := INFO | WARNING | ERROR.

(** The observable trace: logger records (the f-string as template and
    arguments) and the calls into the OCR pass and into the vector store. *)
Inductive event :=
  | Log (lvl : level) (template : string) (args : list pyval)
  | Called_extract_text_with_ocr (file_path : Path)
  | Called_add_documents (chunks : list pystr)
      (metadatas : option (list dict)) (ids : option (list pystr)).

Inductive result (A : Type) :=
  | Return (a : A)
  | Raise (e : exn)
  | NoFuel.
Arguments Return {A} a.
Arguments Raise {A} e.
Arguments NoFuel {A}.

(** The environment of a run: the chromadb collection and the embedding
    model behind [VectorStore], the global [settings] object and the file
    system. *)
Record Env := {
  collection : Type;
  embedding : Type;
  collection_count : collection -> Z;         (* collection.count() *)
  collection_add :                            (* collection.add(...) *)
    collection -> list pystr -> list embedding -> list dict -> list pystr ->
    ext unit * collection;
  embedding_model_encode : list pystr -> ext (list embedding);
  settings : Settings;
  fs : FileSystem
}.

Section Pipeline.

Variable env : Env.

Record state := {
  st_trace : list event;
  st_heap : gmap nat dict;      (* dict objects, by identity *)
  st_collection : collection env
}.

Definition M (A : Type) : Type := state -> result A * state.

Definition ret {A} (a : A) : M A := fun s => (Return a, s).

Definition bind {A B} (m : M A) (k : A -> M B) : M B :=
  fun s =>
    match m s with
    | (Return a, s') => k a s'
    | (Raise e, s') => (Raise e, s')
    | (NoFuel, s') => (NoFuel, s')
    end.

Notation "x <- m ;; k" := (bind m (fun x => k))
  (at level 100, m at next level, right associativity).
Notation "m ;;; k" := (bind m (fun _ => k))
  (at level 100, right associativity).

Definition raise {A} (e : exn) : M A := fun s => (Raise e, s).

(** [try: m  except Exception as e: h e] *)
Definition try_except {A} (m : M A) (h : exn -> M A) : M A :=
  fun s =>
    match m s with
    | (Raise e, s') => h e s'
    | r => r
    end.

Definition call {A} (x : ext A) : M A :=
  match x with
  | Ok a => ret a
  | Fails e => raise e
  end.

Definition run_out_of_fuel {A} : M A := fun s => (NoFuel, s).

(** The state with further events appended to its trace. *)
Definition add_events (s : state) (evs : list event) : state :=
  {| st_trace := st_trace s ++ evs;
     st_heap := st_heap s;
     st_collection := st_collection s |}.

Definition emit (ev : event) : M unit :=
  fun s => (Return tt, add_events s [ev]).

Definition log (lvl : level) (template : string) (args : list pyval) : M unit :=
  emit (Log lvl template args).

(** *** [DocumentProcessor] ([src/data/document_processor.py]) *)

Definition page_marker (page_num : nat) : pystr :=
  [NL; NL] ++ py "--- Page " ++ str_of_nat page_num ++ py " ---" ++ [NL; NL].

(** [for page_num, page in enumerate(reader.pages, 1): ...] *)
Fixpoint pdf_page_loop (pages : list (ext pystr)) (page_num : nat)
    (text : pystr) : M pystr :=
  match pages with
  | [] => ret text
  | page :: pages' =>
      text' <- try_except
                 (page_text <- call page ;;
                  ret (text ++ page_marker page_num ++ page_text))
                 (fun e =>
                    log WARNING "Error extracting page {}: {}"
                      [VInt (Z.of_nat page_num); VStr (exn_str e)] ;;;
                    ret text) ;;
      pdf_page_loop pages' (S page_num) text'
  end.

Definition extract_text_from_pdf (file_path : Path) : M pystr :=
  try_except
    (pages <- call (pdf_pages (fs_file (fs env) file_path)) ;;
     text <- pdf_page_loop pages 1 [] ;;
     log INFO "Extracted {} characters from PDF: {}"
       [VInt (len text); VStr (path_name file_path)] ;;;
     ret text)
    (fun e =>
       log ERROR "Error reading PDF {}: {}"
         [VStr (path_str file_path); VStr (exn_str e)] ;;;
       ret []).

Definition extract_text_from_docx (file_path : Path) : M pystr :=
  try_except
    (paragraphs <- call (docx_paragraphs (fs_file (fs env) file_path)) ;;
     let text := join [NL] paragraphs in
     log INFO "Extracted {} characters from DOCX: {}"
       [VInt (len text); VStr (path_name file_path)] ;;;
     ret text)
    (fun e =>
       log ERROR "Error reading DOCX {}: {}"
         [VStr (path_str file_path); VStr (exn_str e)] ;;;
       ret []).

Definition extract_text_from_txt (file_path : Path) : M pystr :=
  try_except
    (text <- call (txt_read (fs_file (fs env) file_path)) ;;
     log INFO "Extracted {} characters from TXT: {}"
       [VInt (len text); VStr (path_name file_path)] ;;;
     ret text)
    (fun e =>
       log ERROR "Error reading TXT {}: {}"
         [VStr (path_str file_path); VStr (exn_str e)] ;;;
       ret []).

Definition str_eqb (a b : pystr) : bool := bool_decide (a = b).

Definition extract_text (file_path : Path) : M pystr :=
  let suffix := lower (path_suffix file_path) in
  if str_eqb suffix (py ".pdf") then extract_text_from_pdf file_path
  else if str_eqb suffix (py ".docx") || str_eqb suffix (py ".doc") then
    extract_text_from_docx file_path
  else if str_eqb suffix (py ".txt") then extract_text_from_txt file_path
  else
    log WARNING "Unsupported file format: {}" [VStr suffix] ;;;
    ret [].

(** [chunk_text] as a method: the value computed by [chunk_text] above,
    and the record it logs after the loop. *)
Definition chunk_text_method (fuel : nat) (text : pystr)
    (chunk_size_arg chunk_overlap_arg : option Z) : M (list pystr) :=
  match chunk_text fuel (settings env) text chunk_size_arg chunk_overlap_arg with
  | None => run_out_of_fuel
  | Some chunks =>
      if len text <=? int_or chunk_size_arg (chunk_size (settings env)) then
        ret chunks
      else
        log INFO "Split text into {} chunks" [VInt (len chunks)] ;;;
        ret chunks
  end.

(** The dict returned by [process_document]. *)
Record doc_data := {
  dd_file_path : pystr;
  dd_file_name : pystr;
  dd_text : pystr;
  dd_chunks : list pystr;
  dd_metadata : dict
}.

Definition process_document (fuel : nat) (file_path : Path) : M doc_data :=
  log INFO "Processing document: {}" [VStr (path_name file_path)] ;;;
  text <- extract_text file_path ;;
  match text with
  | [] =>
      log WARNING "No text extracted from {}" [VStr (path_name file_path)] ;;;
      ret {| dd_file_path := path_str file_path;
             dd_file_name := path_name file_path;
             dd_text := [];
             dd_chunks := [];
             dd_metadata := ∅ |}
  | _ =>
      chunks <- chunk_text_method fuel text None None ;;
      st_size <- call (stat_size (fs_file (fs env) file_path)) ;;
      let metadata : dict :=
        <[py "text_length" := VInt (len text)]>
        (<[py "num_chunks" := VInt (len chunks)]>
        (<[py "file_size" := VInt st_size]>
        (<[py "file_type" := VStr (path_suffix file_path)]>
        (<[py "file_name" := VStr (path_name file_path)]> ∅)))) in
      log INFO "Processed {}: {} chunks, {} chars"
        [VStr (path_name file_path); VInt (len chunks); VInt (len text)] ;;;
      ret {| dd_file_path := path_str file_path;
             dd_file_name := path_name file_path;
             dd_text := text;
             dd_chunks := chunks;
             dd_metadata := metadata |}
  end.

(** *** [DocumentProcessorWithOCR] ([src/data/document_processor_ocr.py]) *)

(** The attributes set by [__init__]. *)
Record DocumentProcessorWithOCR := {
  use_ocr : bool;
  ocr_threshold : Z
}.

(** [DocumentProcessorWithOCR()] *)
Definition default_ocr_processor : DocumentProcessorWithOCR :=
  {| use_ocr := true; ocr_threshold := 100 |}.

Definition ocr_page_marker (page_num : nat) : pystr :=
  [NL; NL] ++ py "--- Page " ++ str_of_nat page_num ++ py " (OCR) ---"
  ++ [NL; NL].

(** [for page_num, image in enumerate(images, 1): ...] *)
Fixpoint ocr_page_loop (images : list (ext pystr)) (page_num total : nat)
    (text : pystr) : M pystr :=
  match images with
  | [] => ret text
  | image :: images' =>
      log INFO "Running OCR on page {}/{}"
        [VInt (Z.of_nat page_num); VInt (Z.of_nat total)] ;;;
      page_text <- call image ;;
      ocr_page_loop images' (S page_num) total
        (text ++ ocr_page_marker page_num ++ page_text)
  end.

Definition _extract_text_with_ocr (file_path : Path) : M pystr :=
  emit (Called_extract_text_with_ocr file_path) ;;;
  try_except
    (log INFO "Converting PDF to images for OCR: {}"
       [VStr (path_name file_path)] ;;;
     images <- call (ocr_pages (fs_file (fs env) file_path)) ;;
     text <- ocr_page_loop images 1 (length images) [] ;;
     log INFO "OCR extracted {} characters from {}"
       [VInt (len text); VStr (path_name file_path)] ;;;
     ret text)
    (fun e =>
       log ERROR "Error during OCR processing {}: {}"
         [VStr (path_str file_path); VStr (exn_str e)] ;;;
       log ERROR
         "Make sure tesseract-ocr is installed: sudo apt-get install tesseract-ocr"
         [] ;;;
       log ERROR "And poppler-utils: sudo apt-get install poppler-utils" [] ;;;
       ret []).

(** Lines 48-63 of [extract_text_from_pdf]: the value of [text] when the
    OCR test is reached.  In the environment modelled here the outer [try]
    can only fail in [PdfReader(file_path)], when [text] is still empty. *)
Definition pdf_native_pass (file_path : Path) (force_ocr : bool) : M pystr :=
  if force_ocr then ret []
  else
    try_except
      (pages <- call (pdf_pages (fs_file (fs env) file_path)) ;;
       text <- pdf_page_loop pages 1 [] ;;
       log INFO "Extracted {} characters from PDF: {}"
         [VInt (len text); VStr (path_name file_path)] ;;;
       ret text)
      (fun e =>
         log ERROR "Error reading PDF {}: {}"
           [VStr (path_str file_path); VStr (exn_str e)] ;;;
         ret []).

Definition ocr_extract_text_from_pdf (self : DocumentProcessorWithOCR)
    (file_path : Path) (force_ocr : bool) : M pystr :=
  text <- pdf_native_pass file_path force_ocr ;;
  if force_ocr || (use_ocr self && (len (strip text) <? ocr_threshold self))
  then
    log INFO "Text extraction insufficient ({} chars), using OCR for {}"
      [VInt (len text); VStr (path_name file_path)] ;;;
    _extract_text_with_ocr file_path
  else ret text.

(** *** [VectorStore] ([src/vectordb/vector_store.py]) *)

Definition generate_embeddings (texts : list pystr) : M (list (embedding env)) :=
  log INFO "Generating embeddings for {} texts" [VInt (len texts)] ;;;
  call (embedding_model_encode env texts).

Definition collection_add_call (documents : list pystr)
    (embeddings : list (embedding env)) (metadatas : list dict)
    (ids : list pystr) : M unit :=
  fun s =>
    let '(r, c) :=
      collection_add env (st_collection s) documents embeddings metadatas ids in
    let s' := {| st_trace := st_trace s;
                 st_heap := st_heap s;
                 st_collection := c |} in
    match r with
    | Ok _ => (Return tt, s')
    | Fails e => (Raise e, s')
    end.

Definition collection_count_call : M Z :=
  fun s => (Return (collection_count env (st_collection s)), s).

Definition add_documents (chunks : list pystr)
    (metadatas : option (list dict)) (ids : option (list pystr)) : M Z :=
  emit (Called_add_documents chunks metadatas ids) ;;;
  match chunks with
  | [] => log WARNING "No chunks to add" [] ;;; ret 0
  | _ =>
      ids' <- match ids with
              | Some ids => ret ids
              | None =>
                  existing_count <- collection_count_call ;;
                  ret (List.map
                         (fun i => py "chunk_"
                                   ++ str_of_nat (Z.to_nat (existing_count + Z.of_nat i)))
                         (seq 0 (length chunks)))
              end ;;
      let metadatas' := match metadatas with
                        | Some ms => ms
                        | None => List.map (fun _ => (∅ : dict)) chunks
                        end in
      embeddings <- generate_embeddings chunks ;;
      collection_add_call chunks embeddings metadatas' ids' ;;;
      log INFO "Added {} chunks to vector store" [VInt (len chunks)] ;;;
      ret (len chunks)
  end.

(** *** [DocumentIngestionPipeline] ([src/data/ingest_documents.py]) *)

Definition read_dict (l : nat) : M dict :=
  fun s => (Return (default ∅ (st_heap s !! l)), s).

(** A new, empty dict object. *)
Definition new_dict : M nat :=
  fun s =>
    let l := fresh (dom (st_heap s)) in
    (Return l, {| st_trace := st_trace s;
                  st_heap := <[l := ∅]> (st_heap s);
                  st_collection := st_collection s |}).

(** [d.update(other)] on the dict object at [l]. *)
Definition dict_update (l : nat) (other : dict) : M unit :=
  fun s =>
    (Return tt, {| st_trace := st_trace s;
                   st_heap := <[l := other ∪ default ∅ (st_heap s !! l)]> (st_heap s);
                   st_collection := st_collection s |}).

(** [metadata or {}]: the caller's dict object itself unless it is [None]
    or empty, in which case a new dict. *)
Definition metadata_or_new (metadata : option nat) : M nat :=
  match metadata with
  | Some l =>
      d <- read_dict l ;;
      if decide (d = ∅) then new_dict else ret l
  | None => new_dict
  end.

Definition chunk_id (file_id : pystr) (i : nat) : pystr :=
  file_id ++ py "_chunk_" ++ str_of_nat i.

Definition ingest_file (fuel : nat) (file_path : Path)
    (metadata : option nat) : M Z :=
  log INFO "Ingesting file: {}" [VStr (path_name file_path)] ;;;
  doc <- process_document fuel file_path ;;
  match dd_chunks doc with
  | [] =>
      log WARNING "No chunks extracted from {}" [VStr (path_name file_path)] ;;;
      ret 0
  | _ =>
      base_metadata <- metadata_or_new metadata ;;
      dict_update base_metadata
        (dd_metadata doc
         ∪ <[py "file_type" := VStr (path_suffix file_path)]>
           (<[py "source_file" := VStr (path_name file_path)]> ∅)) ;;;
      base <- read_dict base_metadata ;;
      let chunk_metadatas :=
        List.map (fun i => <[py "chunk_index" := VInt (Z.of_nat i)]> base)
          (seq 0 (length (dd_chunks doc))) in
      let file_id := replace_char SPACE UNDERSCORE (path_stem file_path) in
      let chunk_ids :=
        List.map (chunk_id file_id) (seq 0 (length (dd_chunks doc))) in
      count <- add_documents (dd_chunks doc) (Some chunk_metadatas)
                 (Some chunk_ids) ;;
      log INFO "Successfully ingested {} chunks from {}"
        [VInt count; VStr (path_name file_path)] ;;;
      ret count
  end.

(** [for file_path in tqdm(files): try: ... except Exception as e: ...],
    returning the final [total_chunks] and [failed_files]. *)
Fixpoint ingest_files_loop (fuel : nat) (files : list Path)
    (metadata : option nat) (total_chunks : Z) (failed_files : list pystr)
    : M (Z * list pystr) :=
  match files with
  | [] => ret (total_chunks, failed_files)
  | file_path :: files' =>
      acc <- try_except
               (count <- ingest_file fuel file_path metadata ;;
                ret (total_chunks + count, failed_files))
               (fun e =>
                  log ERROR "Error ingesting {}: {}"
                    [VStr (path_name file_path); VStr (exn_str e)] ;;;
                  ret (total_chunks, failed_files ++ [path_str file_path])) ;;
      ingest_files_loop fuel files' metadata (fst acc) (snd acc)
  end.

Definition default_file_patterns : list pystr :=
  [py "*.pdf"; py "*.docx"; py "*.txt"].

(** [if file_patterns is None: file_patterns = [...]] *)
Definition patterns_or_default (file_patterns : option (list pystr))
    : list pystr :=
  match file_patterns with
  | Some ps => ps
  | None => default_file_patterns
  end.

(** The files found by the [glob]/[rglob] loop. *)
Definition matching_files (directory : Path) (file_patterns : list pystr)
    (recursive : bool) : list Path :=
  flat_map
    (fun pattern =>
       if recursive then fs_rglob (fs env) directory pattern
       else fs_glob (fs env) directory pattern)
    file_patterns.

Definition ingest_directory (fuel : nat) (directory : Path)
    (file_patterns : option (list pystr)) (recursive : bool)
    (metadata : option nat) : M Z :=
  let file_patterns := patterns_or_default file_patterns in
  log INFO "Ingesting documents from {}" [VStr (path_str directory)] ;;;
  let files := matching_files directory file_patterns recursive in
  match files with
  | [] =>
      log WARNING "No files found in {} matching {}"
        [VStr (path_str directory); VStrList file_patterns] ;;;
      ret 0
  | _ =>
      log INFO "Found {} files to ingest" [VInt (len files)] ;;;
      acc <- ingest_files_loop fuel files metadata 0 [] ;;
      let '(total_chunks, failed_files) := acc in
      log INFO "Ingestion complete: {} total chunks from {} files"
        [VInt total_chunks; VInt (len files)] ;;;
      match failed_files with
      | [] => ret total_chunks
      | _ =>
          log WARNING "Failed to ingest {} files: {}"
            [VInt (len failed_files); VStrList failed_files] ;;;
          ret total_chunks
      end
  end.

End Pipeline.

Arguments ret {env A} a.
Arguments bind {env A B} m k.
Arguments Build_state {env}.
Arguments st_trace {env} s.
Arguments st_heap {env} s.
Arguments st_collection {env} s.

(** ** Reading the trace *)

Definition is_log (ev : event) : Prop :=
  match ev with
  | Log _ _ _ => True
  | _ => False
  end.

(** Whether [_extract_text_with_ocr] was called. *)
Definition ocr_invoked (tr : list event) : bool :=
  existsb (fun ev => match ev with
                     | Called_extract_text_with_ocr _ => true
                     | _ => false
                     end) tr.

(** The arguments of the calls of [add_documents], in order. *)
Definition add_documents_calls (tr : list event)
    : list (list pystr * option (list dict) * option (list pystr)) :=
  flat_map (fun ev => match ev with
                      | Called_add_documents chunks metadatas ids =>
                          [(chunks, metadatas, ids)]
                      | _ => []
                      end) tr.

(** The events a run from [s] to [s'] appended to the trace. *)
Definition new_events {env} (s s' : state env) : list event :=
  skipn (length (st_trace s)) (st_trace s').

(** The dict that [ingest_file] merges into [base_metadata]. *)
Definition pipeline_metadata (file_path : Path) (doc : doc_data) : dict :=
  dd_metadata doc
  ∪ <[py "file_type" := VStr (path_suffix file_path)]>
    (<[py "source_file" := VStr (path_name file_path)]> ∅).

(** The keys that [ingest_file] writes into every chunk's metadata. *)
Definition pipeline_keys : list pystr :=
  [py "source_file"; py "file_type"; py "file_name"; py "file_size";
   py "num_chunks"; py "text_length"; py "chunk_index"].

(** Whether the reader for the declared kind of [file_path] fails, or the
    kind is not supported. *)
Definition extraction_fails (env : Env) (file_path : Path) : bool :=
  let suffix := lower (path_suffix file_path) in
  let failed {A} (x : ext A) := match x with Ok _ => false | Fails _ => true end in
  if str_eqb suffix (py ".pdf") then failed (pdf_pages (fs_file (fs env) file_path))
  else if str_eqb suffix (py ".docx") || str_eqb suffix (py ".doc") then
    failed (docx_paragraphs (fs_file (fs env) file_path))
  else if str_eqb suffix (py ".txt") then
    failed (txt_read (fs_file (fs env) file_path))
  else true.

(** The result of each call of [ingest_file] made by [ingest_files_loop]
    started in [s]. *)
Fixpoint file_outcomes (env : Env) (fuel : nat) (files : list Path)
    (metadata : option nat) (s : state env) : list (result Z) :=
  match files with
  | [] => []
  | file_path :: files' =>
      let '(r, s1) := ingest_file env fuel file_path metadata s in
      r :: match r with
           | Return _ => file_outcomes env fuel files' metadata s1
           | Raise e =>
               file_outcomes env fuel files' metadata
                 (add_events env s1
                    [Log ERROR "Error ingesting {}: {}"
                       [VStr (path_name file_path); VStr (exn_str e)]])
           | NoFuel => []
           end
  end.

(** The same for the loop of [ingest_directory]. *)
Definition directory_outcomes (env : Env) (fuel : nat) (directory : Path)
    (file_patterns : option (list pystr)) (recursive : bool)
    (metadata : option nat) (s : state env) : list (result Z) :=
  let files :=
    matching_files env directory (patterns_or_default file_patterns)
      recursive in
  file_outcomes env fuel files metadata
    (add_events env s
       [Log INFO "Ingesting documents from {}" [VStr (path_str directory)];
        Log INFO "Found {} files to ingest" [VInt (len files)]]).

Definition sum_counts (counts : list Z) : Z := fold_right Z.add 0 counts.

(** The ids handed to [add_documents], call by call. *)
Definition submitted_ids (tr : list event) : list (option (list pystr)) :=
  List.map snd (add_documents_calls tr).

(** The caller's dict as [ingest_file] finds it ([{}] for [None]). *)
Definition caller_dict (heap : gmap nat dict) (metadata : option nat) : dict :=
  match metadata with
  | Some l => default ∅ (heap !! l)
  | None => ∅
  end.

(** The dict object that [base_metadata] names: the caller's, unless that
    is [None] or empty. *)
Definition base_loc (heap : gmap nat dict) (metadata : option nat) : nat :=
  match metadata with
  | Some l =>
      if decide (default ∅ (heap !! l) = ∅) then fresh (dom heap) else l
  | None => fresh (dom heap)
  end.

(** The metadata of chunk [i] built from [base]. *)
Definition chunk_metadata (base : dict) (i : nat) : dict :=
  <[py "chunk_index" := VInt (Z.of_nat i)]> base.

(** The file id of [ingest_file]: the stem with spaces replaced. *)
Definition file_id (file_path : Path) : pystr :=
  replace_char SPACE UNDERSCORE (path_stem file_path).

(** [m] gives the result [r] and appends the events [evs] to the trace,
    leaving the rest of the state as it is, from every state. *)
Definition runs {env A} (m : M env A) (r : result A) (evs : list event)
    : Prop :=
  forall s, m s = (r, add_events env s evs).

(** [m] gives [r] from every state, and its only effect is logging. *)
Definition yields {env A} (m : M env A) (r : result A) : Prop :=
  exists evs, Forall is_log evs /\ runs m r evs.

(** ** Example environments *)

(** An in-memory collection: the entries added so far. *)
Definition mem_entry : Type := pystr * pystr * dict.

Definition mem_env (cfg : Settings) (files : FileSystem) : Env :=
  {| collection := list mem_entry;
     embedding := unit;
     collection_count := fun c => len c;
     collection_add := fun c documents _ metadatas ids =>
       (Ok tt, c ++ combine (combine ids documents) metadatas);
     embedding_model_encode := fun texts => Ok (List.map (fun _ => tt) texts);
     settings := cfg;
     fs := files |}.

Definition mem_state (cfg : Settings) (files : FileSystem)
    (heap : gmap nat dict) : state (mem_env cfg files) :=
  @Build_state (mem_env cfg files) [] heap ([] : list mem_entry).

Definition no_such_file : ext pystr := Fails (Exception (py "No such file")).

Definition missing_file : File :=
  {| pdf_pages := Fails (Exception (py "No such file"));
     docx_paragraphs := Fails (Exception (py "No such file"));
     txt_read := no_such_file;
     stat_size := Fails (Exception (py "No such file"));
     ocr_pages := Fails (Exception (py "No such file")) |}.

Definition txt_file (text : pystr) (size : ext Z) : File :=
  {| pdf_pages := Fails (Exception (py "not a PDF"));
     docx_paragraphs := Fails (Exception (py "not a Word file"));
     txt_read := Ok text;
     stat_size := size;
     ocr_pages := Fails (Exception (py "not a PDF")) |}.

Definition pdf_file (pages : list (ext pystr)) (scanned : list (ext pystr))
    : File :=
  {| pdf_pages := Ok pages;
     docx_paragraphs := Fails (Exception (py "not a Word file"));
     txt_read := Ok [];
     stat_size := Ok 4096;
     ocr_pages := Ok scanned |}.

Definition mk_path (stem suffix : string) : Path :=
  {| path_str := py stem ++ py suffix;
     path_name := py stem ++ py suffix;
     path_stem := py stem;
     path_suffix := py suffix |}.

(** A directory with [a.txt] (readable), [b.txt] (readable, but [stat]
    fails), [my file.txt], [empty.txt] and [scan.pdf], a one-page PDF whose
    page yields 82 characters. *)
Definition example_fs : FileSystem :=
  {| fs_file := fun p =>
       if str_eqb (path_name p) (py "a.txt") then
         txt_file (py " hello world") (Ok 12)
       else if str_eqb (path_name p) (py "b.txt") then
         txt_file (py "data") (Fails (Exception (py "Permission denied")))
       else if str_eqb (path_name p) (py "my file.txt") then
         txt_file (py "text") (Ok 4)
       else if str_eqb (path_name p) (py "empty.txt") then
         txt_file [] (Ok 0)
       else if str_eqb (path_name p) (py "scan.pdf") then
         pdf_file [Ok (List.repeat 120%N 82)] [Ok (py "scanned text")]
       else missing_file;
     fs_glob := fun _ pattern =>
       if str_eqb pattern (py "*.txt") then
         [mk_path "a" ".txt"; mk_path "b" ".txt"; mk_path "my file" ".txt"]
       else [];
     fs_rglob := fun _ _ => [] |}.

Definition example_env : Env := mem_env default_settings example_fs.

Definition stall_text : pystr := py "ab.cdefghijklmnop".

Definition a_txt : Path := mk_path "a" ".txt".
Definition my_file_txt : Path := mk_path "my file" ".txt".
Definition empty_txt : Path := mk_path "empty" ".txt".
Definition scan_pdf : Path := mk_path "scan" ".pdf".
Definition missing_pdf : Path := mk_path "missing" ".pdf".
Definition docs_dir : Path := mk_path "docs" "".

(** The state before anything ran, with the given dict objects. *)
Definition example_state (heap : gmap nat dict) : state example_env :=
  mem_state default_settings example_fs heap.

(** ** The rest of [DocumentProcessorWithOCR], and [ingest_sam_data] *)

(** [sub in s] *)
Fixpoint is_prefix (sub s : pystr) : bool :=
  match sub, s with
  | [], _ => true
  | a :: sub', b :: s' => (a =? b)%N && is_prefix sub' s'
  | _ :: _, [] => false
  end.

Fixpoint contains (sub s : pystr) : bool :=
  is_prefix sub s
  || match s with
     | [] => false
     | _ :: s' => contains sub s'
     end.

(** One record of a SAM.gov JSON file.  A field is [None] when the key is
    absent and [Some] of its string otherwise; [department] and
    [officeAddress] are objects, given by their [name] and [city]. *)
Record opportunity := {
  opp_title : option pystr;
  opp_description : option pystr;
  opp_fullText : option pystr;
  opp_noticeId : option pystr;
  opp_type : option pystr;
  opp_postedDate : option pystr;
  opp_department : option (option pystr);
  opp_officeAddress : option (option pystr)
}.

(** What [json.load] gives: a list of records, or one record. *)
Inductive sam_json :=
  | SamList (records : list opportunity)
  | SamObject (record : opportunity).

(** [opp.get(key)] as a condition: the value, when present and not empty. *)
Definition truthy (x : option pystr) : option pystr :=
  match x with
  | Some (c :: s) => Some (c :: s)
  | _ => None
  end.

(** Lines 187-199 of [ingest_sam_data]: the parts of the text of a record. *)
Definition text_parts (opp : opportunity)
    (include_description include_full_text : bool) : list pystr :=
  match truthy (opp_title opp) with
  | Some title => [py "Title: " ++ title]
  | None => []
  end
  ++ match (if include_description then truthy (opp_description opp) else None) with
     | Some desc => [py "Description: " ++ desc]
     | None => []
     end
  ++ match (if include_full_text then truthy (opp_fullText opp) else None) with
     | Some full_text => [full_text]
     | None => []
     end.

(** The metadata dict of a record. *)
Definition sam_metadata (opp : opportunity) : dict :=
  <[py "office" := VStr (default [] (default None (opp_officeAddress opp)))]>
  (<[py "department" := VStr (default [] (default None (opp_department opp)))]>
  (<[py "posted_date" := VStr (default [] (opp_postedDate opp))]>
  (<[py "type" := VStr (default [] (opp_type opp))]>
  (<[py "title" := VStr (default [] (opp_title opp))]>
  (<[py "notice_id" := VStr (default [] (opp_noticeId opp))]>
  (<[py "source" := VStr (py "sam_gov")]> ∅)))))).

(** [f"sam_{notice_id}_chunk_{i}"] *)
Definition sam_chunk_id (opp : opportunity) (i : nat) : pystr :=
  py "sam_" ++ default (py "unknown") (opp_noticeId opp)
  ++ py "_chunk_" ++ str_of_nat i.

Definition image_suffixes : list pystr :=
  [py ".png"; py ".jpg"; py ".jpeg"; py ".tiff"; py ".bmp"].

Section MorePipeline.

Variable env : Env.

(** [Image.open(p)] followed by [pytesseract.image_to_string]. *)
Variable image_ocr : Path -> ext pystr.

(** [open(p)] followed by [json.load]. *)
Variable json_load : Path -> ext sam_json.

Notation "x <- m ;; k" := (bind m (fun x => k))
  (at level 100, m at next level, right associativity).
Notation "m ;;; k" := (bind m (fun _ => k))
  (at level 100, right associativity).

Definition extract_text_from_image (file_path : Path) : M env pystr :=
  try_except env
    (log env INFO "Running OCR on image: {}" [VStr (path_name file_path)] ;;;
     text <- call env (image_ocr file_path) ;;
     log env INFO "OCR extracted {} characters from {}"
       [VInt (len text); VStr (path_name file_path)] ;;;
     ret text)
    (fun e =>
       log env ERROR "Error during OCR on image {}: {}"
         [VStr (path_str file_path); VStr (exn_str e)] ;;;
       ret []).

(** [DocumentProcessorWithOCR.extract_text]; its [extract_text_from_docx]
    and [extract_text_from_txt] are the code of [DocumentProcessor]. *)
Definition ocr_extract_text (self : DocumentProcessorWithOCR)
    (file_path : Path) (force_ocr : bool) : M env pystr :=
  let suffix := lower (path_suffix file_path) in
  if str_eqb suffix (py ".pdf") then
    ocr_extract_text_from_pdf env self file_path force_ocr
  else if str_eqb suffix (py ".docx") || str_eqb suffix (py ".doc") then
    extract_text_from_docx env file_path
  else if str_eqb suffix (py ".txt") then extract_text_from_txt env file_path
  else if existsb (str_eqb suffix) image_suffixes then
    extract_text_from_image file_path
  else
    log env WARNING "Unsupported file format: {}" [VStr suffix] ;;;
    ret [].

(** [DocumentProcessorWithOCR.process_document] *)
Definition ocr_process_document (self : DocumentProcessorWithOCR)
    (fuel : nat) (file_path : Path) (force_ocr : bool) : M env doc_data :=
  log env INFO "Processing document: {}" [VStr (path_name file_path)] ;;;
  text <- ocr_extract_text self file_path force_ocr ;;
  match text with
  | [] =>
      log env WARNING "No text extracted from {}"
        [VStr (path_name file_path)] ;;;
      ret {| dd_file_path := path_str file_path;
             dd_file_name := path_name file_path;
             dd_text := [];
             dd_chunks := [];
             dd_metadata := ∅ |}
  | _ =>
      chunks <- chunk_text_method env fuel text None None ;;
      st_size <- call env (stat_size (fs_file (fs env) file_path)) ;;
      let metadata : dict :=
        <[py "ocr_used" := VBool (contains (py "OCR") text)]>
        (<[py "text_length" := VInt (len text)]>
        (<[py "num_chunks" := VInt (len chunks)]>
        (<[py "file_size" := VInt st_size]>
        (<[py "file_type" := VStr (path_suffix file_path)]>
        (<[py "file_name" := VStr (path_name file_path)]> ∅))))) in
      log env INFO "Processed {}: {} chunks, {} chars"
        [VStr (path_name file_path); VInt (len chunks); VInt (len text)] ;;;
      ret {| dd_file_path := path_str file_path;
             dd_file_name := path_name file_path;
             dd_text := text;
             dd_chunks := chunks;
             dd_metadata := metadata |}
  end.

(** The body of the [try] of [ingest_sam_data] for one record, giving the
    new value of [total_chunks]. *)
Definition sam_record (fuel : nat) (opp : opportunity)
    (include_description include_full_text : bool) (total_chunks : Z)
    : M env Z :=
  match text_parts opp include_description include_full_text with
  | [] => ret total_chunks      (* continue *)
  | parts =>
      let full_text := join [NL; NL] parts in
      chunks <- chunk_text_method env fuel full_text None None ;;
      let metadata := sam_metadata opp in
      let chunk_metadatas :=
        List.map (fun i => <[py "chunk_index" := VInt (Z.of_nat i)]> metadata)
          (seq 0 (length chunks)) in
      let chunk_ids := List.map (sam_chunk_id opp) (seq 0 (length chunks)) in
      count <- add_documents env chunks (Some chunk_metadatas)
                 (Some chunk_ids) ;;
      ret (total_chunks + count)
  end.

(** [for opp in tqdm(opportunities): try: ... except Exception as e: ...] *)
Fixpoint sam_loop (fuel : nat) (opportunities : list opportunity)
    (include_description include_full_text : bool) (total_chunks : Z)
    : M env Z :=
  match opportunities with
  | [] => ret total_chunks
  | opp :: opportunities' =>
      total_chunks' <-
        try_except env
          (sam_record fuel opp include_description include_full_text
             total_chunks)
          (fun e =>
             log env ERROR "Error processing opportunity: {}"
               [VStr (exn_str e)] ;;;
             ret total_chunks) ;;
      sam_loop fuel opportunities' include_description include_full_text
        total_chunks'
  end.

(** [isinstance(opportunities, list)] or the one-element list. *)
Definition records_of (data : sam_json) : list opportunity :=
  match data with
  | SamList records => records
  | SamObject record => [record]
  end.

Definition ingest_sam_data (fuel : nat) (sam_json_file : Path)
    (include_description include_full_text : bool) : M env Z :=
  log env INFO "Ingesting SAM.gov data from {}"
    [VStr (path_name sam_json_file)] ;;;
  data <- call env (json_load sam_json_file) ;;
  let opportunities := records_of data in
  log env INFO "Found {} opportunities in JSON" [VInt (len opportunities)] ;;;
  total_chunks <- sam_loop fuel opportunities include_description
                    include_full_text 0 ;;
  log env INFO "Ingested {} chunks from SAM.gov data" [VInt total_chunks] ;;;
  ret total_chunks.

End MorePipeline.

(** ** [analyze_rfp_requirements] ([src/tools/rfp_tools.py]) *)

(** [s.split(sep)] for a one-character [sep]. *)
Fixpoint split_on (sep : N) (s : pystr) : list pystr :=
  match s with
  | [] => [[]]
  | c :: s' =>
      if (c =? sep)%N then [] :: split_on sep s'
      else match split_on sep s' with
           | line :: lines => (c :: line) :: lines
           | [] => [[c]]
           end
  end.

(** [any(kw in line for kw in kws)] *)
Definition any_in (kws : list pystr) (line : pystr) : bool :=
  existsb (fun kw => contains kw line) kws.

Definition obligation_keywords : list pystr :=
  [py "must"; py "require"; py "shall"; py "should"].
Definition technical_keywords : list pystr :=
  [py "technical"; py "technology"; py "system"; py "software";
   py "infrastructure"].
Definition budget_keywords : list pystr :=
  [py "budget"; py "cost"; py "price"; py "financial"].
Definition timeline_keywords : list pystr :=
  [py "deadline"; py "timeline"; py "schedule"; py "duration"].
Definition compliance_keywords : list pystr :=
  [py "compliance"; py "regulation"; py "standard"; py "certification"].
Definition qualifications_keywords : list pystr :=
  [py "experience"; py "qualification"; py "expertise"; py "credential"].

(** The dict [requirements] before the loop. *)
Definition initial_requirements : gmap (list N) (list pystr) :=
  <[py "technical" := []]>
  (<[py "budget" := []]>
  (<[py "timeline" := []]>
  (<[py "compliance" := []]>
  (<[py "qualifications" := []]>
  (<[py "evaluation_criteria" := []]> ∅))))).

(** [requirements[key].append(x)] *)
Definition append_to (key : pystr) (x : pystr)
    (requirements : gmap (list N) (list pystr))
    : gmap (list N) (list pystr) :=
  alter (fun l => l ++ [x]) key requirements.

(** The body of [for line in lines]. *)
Definition analyze_line (requirements : gmap (list N) (list pystr))
    (line : pystr) : gmap (list N) (list pystr) :=
  if any_in obligation_keywords line then
    if any_in technical_keywords line then
      append_to (py "technical") (strip line) requirements
    else if any_in budget_keywords line then
      append_to (py "budget") (strip line) requirements
    else if any_in timeline_keywords line then
      append_to (py "timeline") (strip line) requirements
    else if any_in compliance_keywords line then
      append_to (py "compliance") (strip line) requirements
    else if any_in qualifications_keywords line then
      append_to (py "qualifications") (strip line) requirements
    else requirements
  else requirements.

Section Tools.

Variable env : Env.

(** [str.lower] on arbitrary text. *)
Variable str_lower : pystr -> pystr.

Definition analyze_rfp_requirements (rfp_text : pystr)
    : M env (gmap (list N) (list pystr)) :=
  let lines := split_on NL (str_lower rfp_text) in
  let requirements := fold_left analyze_line lines initial_requirements in
  bind (log env INFO "Analyzed RFP: found {} requirements"
          [VInt (map_fold (fun _ v acc => len v + acc) 0 requirements)])
    (fun _ => ret requirements).

End Tools.

(** The category under which a line is filed, if any. *)
Definition category_of (line : pystr) : option pystr :=
  if any_in obligation_keywords line then
    if any_in technical_keywords line then Some (py "technical")
    else if any_in budget_keywords line then Some (py "budget")
    else if any_in timeline_keywords line then Some (py "timeline")
    else if any_in compliance_keywords line then Some (py "compliance")
    else if any_in qualifications_keywords line then Some (py "qualifications")
    else None
  else None.

Definition requirement_keys : list pystr :=
  [py "technical"; py "budget"; py "timeline"; py "compliance";
   py "qualifications"; py "evaluation_criteria"].

(** The lines filed under [key], trimmed, in the order of the text. *)
Definition filed_under (key : pystr) (lines : list pystr) : list pystr :=
  List.map strip
    (List.filter (fun line => bool_decide (category_of line = Some key)) lines).

(** ** Further readings of texts and outcomes *)

(** A text without a sentence terminator or line break. *)
Definition boundary_free (text : pystr) : Prop :=
  Forall (fun c => c <> DOT /\ c <> NL) text.

(** A text that does not start with white space. *)
Definition no_lead (s : pystr) : Prop :=
  match s with
  | [] => True
  | c :: _ => isspace c = false
  end.

(** The native text of a PDF: every page that could be read, under its
    page number. *)
Fixpoint pdf_text (pages : list (ext pystr)) (page_num : nat) : pystr :=
  match pages with
  | [] => []
  | Ok page_text :: pages' =>
      page_marker page_num ++ page_text ++ pdf_text pages' (S page_num)
  | Fails _ :: pages' => pdf_text pages' (S page_num)
  end.

(** The OCR text of a PDF whose pages were all recognised. *)
Fixpoint ocr_text (texts : list pystr) (page_num : nat) : pystr :=
  match texts with
  | [] => []
  | page_text :: texts' =>
      ocr_page_marker page_num ++ page_text ++ ocr_text texts' (S page_num)
  end.

(** The texts of the page images, when every one was recognised. *)
Fixpoint recognised (images : list (ext pystr)) : option (list pystr) :=
  match images with
  | [] => Some []
  | Ok page_text :: images' =>
      match recognised images' with
      | Some texts => Some (page_text :: texts)
      | None => None
      end
  | Fails _ :: _ => None
  end.

(** What [_extract_text_with_ocr] returns for a file. *)
Definition ocr_result (file : File) : pystr :=
  match ocr_pages file with
  | Ok images =>
      match recognised images with
      | Some texts => ocr_text texts 1
      | None => []
      end
  | Fails _ => []
  end.

(** An embedding model and a collection that never raise. *)
Definition reliable (env : Env) : Prop :=
  (forall texts, exists embeddings,
      embedding_model_encode env texts = Ok embeddings)
  /\ (forall c documents embeddings metadatas ids,
         fst (collection_add env c documents embeddings metadatas ids) = Ok tt).

(** An event that [ingest_sam_data] may add to the trace for the records
    [opportunities]: a log record, or a call of [add_documents] for one of
    the records that has text, under the identifiers of that record. *)
Definition sam_event (opportunities : list opportunity)
    (include_description include_full_text : bool) (ev : event) : Prop :=
  is_log ev
  \/ exists opp chunks metadatas,
       In opp opportunities
       /\ text_parts opp include_description include_full_text <> []
       /\ chunks <> []
       /\ ev = Called_add_documents chunks (Some metadatas)
                 (Some (List.map
                          (fun i =>
                             py "sam_"
                             ++ default (py "unknown") (opp_noticeId opp)
                             ++ py "_chunk_" ++ str_of_nat i)
                          (seq 0 (length chunks)))).



(** The number of chunks handed to [add_documents] over a trace. *)
Definition submitted_chunks (tr : list event) : Z :=
  sum_counts (List.map (fun call => len (fst (fst call)))
                (add_documents_calls tr)).

(** A file system for the examples of the OCR processor and of
    [ingest_sam_data]. *)
Definition example_image_ocr (p : Path) : ext pystr :=
  if str_eqb (path_name p) (py "photo.png") then Ok (py "Invoice 42")
  else Fails (Exception (py "cannot identify image file")).

Definition example_opportunity : opportunity :=
  {| opp_title := Some (py "Cloud migration");
     opp_description := Some (py "Move to AWS");
     opp_fullText := None;
     opp_noticeId := Some (py "N1");
     opp_type := Some (py "Solicitation");
     opp_postedDate := None;
     opp_department := Some (Some (py "GSA"));
     opp_officeAddress := None |}.

Definition untitled_opportunity : opportunity :=
  {| opp_title := None;
     opp_description := Some (py "Only a description");
     opp_fullText := None;
     opp_noticeId := None;
     opp_type := None;
     opp_postedDate := None;
     opp_department := None;
     opp_officeAddress := None |}.

Definition example_json_load (p : Path) : ext sam_json :=
  if str_eqb (path_name p) (py "sam.json") then
    Ok (SamList [example_opportunity; untitled_opportunity])
  else if str_eqb (path_name p) (py "untitled.json") then
    Ok (SamObject untitled_opportunity)
  else Fails (Exception (py "No such file")).

(** A directory with [mixed.pdf], whose second page cannot be read and
    whose second page image cannot be recognised, and [photo.png]. *)
Definition more_fs : FileSystem :=
  {| fs_file := fun p =>
       if str_eqb (path_name p) (py "mixed.pdf") then
         {| pdf_pages := Ok [Ok (py "one");
                             Fails (Exception (py "bad page"));
                             Ok (py "three")];
            docx_paragraphs := Fails (Exception (py "not a Word file"));
            txt_read := Ok [];
            stat_size := Ok 2048;
            ocr_pages := Ok [Ok (py "uno");
                             Fails (Exception (py "tesseract failed"))] |}
       else if str_eqb (path_name p) (py "photo.png") then
         {| pdf_pages := Fails (Exception (py "not a PDF"));
            docx_paragraphs := Fails (Exception (py "not a Word file"));
            txt_read := Ok [];
            stat_size := Ok 100;
            ocr_pages := Fails (Exception (py "not a PDF")) |}
       else fs_file example_fs p;
     fs_glob := fs_glob example_fs;
     fs_rglob := fs_rglob example_fs |}.

Definition more_env : Env := mem_env default_settings more_fs.

Definition more_state (heap : gmap nat dict) : state more_env :=
  mem_state default_settings more_fs heap.

Definition mixed_pdf : Path := mk_path "mixed" ".pdf".

(** What [process_document] returns for [a.txt]. *)
Definition a_txt_doc : doc_data :=
  {| dd_file_path := py "a.txt";
     dd_file_name := py "a.txt";
     dd_text := py " hello world";
     dd_chunks := [py " hello world"];
     dd_metadata :=
       <[py "text_length" := VInt 12]>
       (<[py "num_chunks" := VInt 1]>
       (<[py "file_size" := VInt 12]>
       (<[py "file_type" := VStr (py ".txt")]>
       (<[py "file_name" := VStr (py "a.txt")]> ∅)))) |}.

(** Two lines of an RFP. *)
Definition example_rfp_text : pystr :=
  py "The system MUST scale  " ++ [NL] ++ py "Nice weather for a system".

Definition photo_png : Path := mk_path "photo" ".png".
Definition sam_json_path : Path := mk_path "sam" ".json".
Definition untitled_json_path : Path := mk_path "untitled" ".json".
Definition missing_json_path : Path := mk_path "missing" ".json".

(** * Properties *)

(** ** The chunker *)

Section Chunker.

Implicit Types (text : pystr) (fuel : nat).

Lemma chunk_loop_step fuel text size overlap start chunks :
  start < len text ->
  chunk_loop (S fuel) text size overlap start chunks
  = chunk_loop fuel text size overlap (chunk_end text size start - overlap)
      (chunks ++ [strip (slice text start (chunk_end text size start))]).
Proof.
  intros Hlt. simpl.
  destruct (start <? len text) eqn:E; [reflexivity|].
  apply Z.ltb_ge in E. lia.
Qed.

(** More fuel does not change a result. *)
Lemma chunk_loop_more_fuel fuel fuel' text size overlap start chunks r :
  chunk_loop fuel text size overlap start chunks = Some r ->
  (fuel <= fuel')%nat ->
  chunk_loop fuel' text size overlap start chunks = Some r.
Proof.
  revert fuel' start chunks.
  induction fuel as [|fuel IH]; intros fuel' start chunks H Hle;
    [discriminate|].
  destruct fuel' as [|fuel']; [lia|].
  simpl in *. destruct (start <? len text); [|exact H].
  apply IH; [exact H|lia].
Qed.

(** A window whose last sentence boundary lies within the first [overlap]
    characters sends [start] back to where it was: the loop makes no
    progress, whatever the fuel. *)
Lemma chunk_loop_stalls fuel text size overlap start chunks :
  start < len text ->
  chunk_end text size start - overlap = start ->
  chunk_loop fuel text size overlap start chunks = None.
Proof.
  intros Hlt Hfix. revert chunks.
  induction fuel as [|fuel IH]; intros chunks; [reflexivity|].
  rewrite chunk_loop_step by exact Hlt.
  rewrite Hfix. apply IH.
Qed.

Lemma lstrip_length s : (length (lstrip s) <= length s)%nat.
Proof.
  induction s as [|c s IH]; simpl; [lia|].
  destruct (isspace c); simpl; lia.
Qed.

Lemma strip_length s : (length (strip s) <= length s)%nat.
Proof.
  unfold strip, rstrip.
  rewrite length_rev.
  etransitivity; [apply lstrip_length|].
  rewrite length_rev. apply lstrip_length.
Qed.

Lemma norm_index_range n i : 0 <= n -> 0 <= norm_index n i <= n.
Proof.
  intros Hn. unfold norm_index.
  destruct (i <? 0) eqn:E; [apply Z.ltb_lt in E|apply Z.ltb_ge in E]; lia.
Qed.

Lemma norm_index_window n i size :
  0 <= n -> 0 <= size -> norm_index n (i + size) - norm_index n i <= size.
Proof.
  intros Hn Hs. unfold norm_index.
  destruct (i <? 0) eqn:E1; destruct (i + size <? 0) eqn:E2;
    try apply Z.ltb_lt in E1; try apply Z.ltb_ge in E1;
    try apply Z.ltb_lt in E2; try apply Z.ltb_ge in E2; lia.
Qed.

Lemma slice_length {A} (s : list A) i j :
  len (slice s i j) <= Z.max 0 (norm_index (len s) j - norm_index (len s) i).
Proof.
  unfold slice, len at 1.
  destruct (norm_index (len s) i <? norm_index (len s) j) eqn:E.
  - apply Z.ltb_lt in E. rewrite length_firstn. lia.
  - simpl. lia.
Qed.

Lemma rfind_scan_range s c i a b acc :
  (acc = -1 \/ a <= acc < b) ->
  rfind_scan s c i a b acc = -1 \/ a <= rfind_scan s c i a b acc < b.
Proof.
  revert i acc. induction s as [|x s IH]; intros i acc Hacc; simpl;
    [exact Hacc|].
  apply IH.
  destruct ((a <=? i) && (i <? b) && (x =? c)%N) eqn:E; [|exact Hacc].
  apply andb_prop in E as [E _]. apply andb_prop in E as [E1 E2].
  apply Z.leb_le in E1. apply Z.ltb_lt in E2. right; lia.
Qed.

Lemma rfind_range s c i j :
  rfind s c i j = -1
  \/ norm_index (len s) i <= rfind s c i j < norm_index (len s) j.
Proof. apply rfind_scan_range. now left. Qed.

(** The window [text[start:end]] taken by one iteration holds at most
    [size] characters. *)
Lemma chunk_window_length text size start :
  0 <= size ->
  len (slice text start (chunk_end text size start)) <= size.
Proof.
  intros Hs.
  assert (Hn : 0 <= len text) by (unfold len; lia).
  pose proof (norm_index_window (len text) start size Hn Hs) as Hw.
  pose proof (norm_index_range (len text) start Hn) as Hr.
  etransitivity; [apply slice_length|].
  unfold chunk_end.
  destruct (start + size <? len text); [|lia].
  destruct (rfind_range text DOT start (start + size)) as [Hp|Hp];
    destruct (rfind_range text NL start (start + size)) as [Hq|Hq];
    destruct (Z.max _ _ >? start) eqn:E; try lia;
    set (bp := Z.max _ _) in *;
    assert (Hbp : bp = -1 \/ norm_index (len text) start <= bp
                             < norm_index (len text) (start + size))
      by (subst bp; lia);
    clearbody bp;
    (destruct Hbp as [->|Hbp];
     [unfold norm_index at 1; simpl; lia
     |unfold norm_index at 1;
      destruct (bp + 1 <? 0) eqn:E'; [apply Z.ltb_lt in E'; lia|lia]]).
Qed.

Lemma chunk_loop_bounded fuel text size overlap start chunks r :
  0 <= size ->
  Forall (fun c => len c <= size) chunks ->
  chunk_loop fuel text size overlap start chunks = Some r ->
  Forall (fun c => len c <= size) r.
Proof.
  intros Hs. revert start chunks.
  induction fuel as [|fuel IH]; intros start chunks Hc H; [discriminate|].
  simpl in H. destruct (start <? len text).
  - eapply IH; [|exact H].
    apply Forall_app. split; [exact Hc|].
    constructor; [|constructor].
    pose proof (chunk_window_length text size start Hs).
    pose proof (strip_length (slice text start (chunk_end text size start))).
    unfold len in *. lia.
  - now inversion H; subst.
Qed.

(** Whenever the chunker does return, no chunk is longer than the
    effective chunk size (if that is not negative). *)
Lemma chunk_text_chunks_bounded fuel st text chunk_size_arg chunk_overlap_arg r :
  0 <= int_or chunk_size_arg (chunk_size st) ->
  chunk_text fuel st text chunk_size_arg chunk_overlap_arg = Some r ->
  Forall (fun c => len c <= int_or chunk_size_arg (chunk_size st)) r.
Proof.
  intros Hs. unfold chunk_text.
  destruct (len text <=? int_or chunk_size_arg (chunk_size st)) eqn:E.
  - intros [= <-]. apply Z.leb_le in E. now repeat constructor.
  - intros H. eapply chunk_loop_bounded; [exact Hs|constructor|exact H].
Qed.

(** C1. The chunker does not terminate on the 17-character text
    [ab.cdefghijklmnop] with chunk size 10 and overlap 3 (so
    [0 <= O < S < len(text)]): the only sentence boundary of the first
    window is at index 2, [end] becomes 3 and [start = end - 3] is 0 again.
    No amount of fuel produces a result. *)
Theorem chunk_text_stalls :
  forall fuel st, chunk_text fuel st stall_text (Some 10) (Some 3) = None.
Proof.
  intros fuel st. unfold chunk_text. simpl int_or.
  replace (len stall_text <=? 10) with false by reflexivity.
  apply chunk_loop_stalls; reflexivity.
Qed.

(** An explicit overlap of 0 is falsy, so [settings.chunk_overlap] (200)
    replaces it; with a chunk size of 10 the loop then steps backwards and
    settles at [start = -200]. *)
Lemma chunk_text_zero_overlap_stalls :
  forall fuel,
    chunk_text fuel default_settings (py "abcdefghijklmnop") (Some 10) (Some 0)
    = None.
Proof.
  intros fuel. unfold chunk_text. simpl int_or.
  replace (len (py "abcdefghijklmnop") <=? 10) with false by reflexivity.
  destruct fuel as [|fuel]; [reflexivity|].
  rewrite chunk_loop_step by reflexivity.
  replace (chunk_end (py "abcdefghijklmnop") 10 0 - 200) with (-190)
    by reflexivity.
  destruct fuel as [|fuel]; [reflexivity|].
  rewrite chunk_loop_step by reflexivity.
  replace (chunk_end (py "abcdefghijklmnop") 10 (-190) - 200) with (-200)
    by reflexivity.
  apply chunk_loop_stalls; reflexivity.
Qed.

(** C2 as stated fails: with the default settings the chunker returns the
    one-element sequence holding the empty string for the empty text. *)
Lemma chunk_text_empty_counterexample :
  chunk_text 0 default_settings [] None None = Some [[]]
  /\ chunk_text 0 default_settings [] None None <> Some [].
Proof. split; [reflexivity|discriminate]. Qed.

(** C3 as stated fails: a short text is returned as it is, not trimmed. *)
Lemma chunk_text_short_counterexample :
  chunk_text 0 default_settings (py " a") (Some 10) (Some 2) = Some [py " a"]
  /\ chunk_text 0 default_settings (py " a") (Some 10) (Some 2)
     <> Some [strip (py " a")].
Proof. split; [reflexivity|discriminate]. Qed.

Lemma chunk_text_early_return fuel st text chunk_size_arg chunk_overlap_arg :
  len text <= int_or chunk_size_arg (chunk_size st) ->
  chunk_text fuel st text chunk_size_arg chunk_overlap_arg = Some [text].
Proof.
  intros H. unfold chunk_text.
  destruct (len text <=? int_or chunk_size_arg (chunk_size st)) eqn:E;
    [reflexivity|].
  apply Z.leb_gt in E. lia.
Qed.

(** C3, amended. For every text no longer than the effective chunk size
    (the [chunk_size] argument, or [settings.chunk_size] when the argument is
    [None] or 0), [chunk_text] returns exactly the one-element sequence
    holding the whole text, untrimmed, whatever the fuel. *)
Theorem chunk_text_short :
  forall fuel st text chunk_size_arg chunk_overlap_arg,
    len text <= int_or chunk_size_arg (chunk_size st) ->
    chunk_text fuel st text chunk_size_arg chunk_overlap_arg = Some [text].
Proof. intros. now apply chunk_text_early_return. Qed.

Lemma chunk_text_short_witness :
  len (py " a") <= int_or (Some 10) (chunk_size default_settings)
  /\ chunk_text 0 default_settings (py " a") (Some 10) (Some 2)
     = Some [py " a"].
Proof.
  split; [vm_compute; discriminate|].
  apply (chunk_text_short 0 default_settings (py " a") (Some 10) (Some 2)).
  vm_compute; discriminate.
Defined.

End Chunker.

(** ** Reasoning about runs *)

Section Runs.

Variable env : Env.

Implicit Types (s : state env) (evs : list event).

Lemma add_events_nil s : add_events env s [] = s.
Proof. destruct s. unfold add_events. simpl. now rewrite app_nil_r. Qed.

Lemma add_events_app s evs1 evs2 :
  add_events env (add_events env s evs1) evs2 = add_events env s (evs1 ++ evs2).
Proof. unfold add_events. simpl. now rewrite app_assoc. Qed.

Lemma new_events_add s evs : new_events s (add_events env s evs) = evs.
Proof. unfold new_events, add_events. simpl. apply drop_app_length. Qed.

Lemma add_documents_calls_app evs1 evs2 :
  add_documents_calls (evs1 ++ evs2)
  = add_documents_calls evs1 ++ add_documents_calls evs2.
Proof. unfold add_documents_calls. apply flat_map_app. Qed.

Lemma add_documents_calls_logs evs :
  Forall is_log evs -> add_documents_calls evs = [].
Proof.
  induction 1 as [|ev evs Hev _ IH]; [reflexivity|].
  destruct ev; simpl in *; try contradiction. exact IH.
Qed.

Lemma ocr_invoked_logs evs : Forall is_log evs -> ocr_invoked evs = false.
Proof.
  induction 1 as [|ev evs Hev _ IH]; [reflexivity|].
  destruct ev; simpl in *; try contradiction. exact IH.
Qed.

Lemma runs_ret {A} (a : A) : runs (ret a : M env A) (Return a) [].
Proof. intros s. unfold ret. now rewrite add_events_nil. Qed.

Lemma runs_raise {A} e : runs (raise env e : M env A) (Raise e) [].
Proof. intros s. unfold raise. now rewrite add_events_nil. Qed.

Lemma runs_emit ev : runs (emit env ev) (Return tt) [ev].
Proof. intros s. reflexivity. Qed.

Lemma runs_log lvl template args :
  runs (log env lvl template args) (Return tt) [Log lvl template args].
Proof. intros s. reflexivity. Qed.

Lemma runs_call {A} (x : ext A) :
  runs (call env x)
    (match x with Ok a => Return a | Fails e => Raise e end) [].
Proof. destruct x; [apply runs_ret|apply runs_raise]. Qed.

Lemma runs_bind {A B} (m : M env A) (k : A -> M env B) a r evs1 evs2 :
  runs m (Return a) evs1 -> runs (k a) r evs2 ->
  runs (bind m k) r (evs1 ++ evs2).
Proof.
  intros Hm Hk s. unfold bind. rewrite Hm, Hk. now rewrite add_events_app.
Qed.

Lemma runs_bind_raise {A B} (m : M env A) (k : A -> M env B) e evs :
  runs m (Raise e) evs -> runs (bind m k) (Raise e) evs.
Proof. intros Hm s. unfold bind. now rewrite Hm. Qed.

Lemma runs_bind_no_fuel {A B} (m : M env A) (k : A -> M env B) evs :
  runs m NoFuel evs -> runs (bind m k) NoFuel evs.
Proof. intros Hm s. unfold bind. now rewrite Hm. Qed.

Lemma runs_try_return {A} (m : M env A) h a evs :
  runs m (Return a) evs -> runs (try_except env m h) (Return a) evs.
Proof. intros Hm s. unfold try_except. now rewrite Hm. Qed.

Lemma runs_try_raise {A} (m : M env A) h e r evs1 evs2 :
  runs m (Raise e) evs1 -> runs (h e) r evs2 ->
  runs (try_except env m h) r (evs1 ++ evs2).
Proof.
  intros Hm Hh s. unfold try_except. rewrite Hm, Hh.
  now rewrite add_events_app.
Qed.

Lemma runs_try_no_fuel {A} (m : M env A) h evs :
  runs m NoFuel evs -> runs (try_except env m h) NoFuel evs.
Proof. intros Hm s. unfold try_except. now rewrite Hm. Qed.

Lemma yields_ret {A} (a : A) : yields (ret a : M env A) (Return a).
Proof. exists []. split; [constructor|apply runs_ret]. Qed.

Lemma yields_log lvl template args :
  yields (log env lvl template args) (Return tt).
Proof. eexists. split; [|apply runs_log]. repeat constructor. Qed.

Lemma yields_call {A} (x : ext A) :
  yields (call env x) (match x with Ok a => Return a | Fails e => Raise e end).
Proof. exists []. split; [constructor|apply runs_call]. Qed.

Lemma yields_bind {A B} (m : M env A) (k : A -> M env B) a r :
  yields m (Return a) -> yields (k a) r -> yields (bind m k) r.
Proof.
  intros (evs1 & H1 & Hm) (evs2 & H2 & Hk). exists (evs1 ++ evs2).
  split; [now apply Forall_app|now apply runs_bind with a].
Qed.

Lemma yields_bind_raise {A B} (m : M env A) (k : A -> M env B) e :
  yields m (Raise e) -> yields (bind m k) (Raise e).
Proof.
  intros (evs & H & Hm). exists evs. split; [exact H|].
  now apply runs_bind_raise.
Qed.

Lemma yields_bind_no_fuel {A B} (m : M env A) (k : A -> M env B) :
  yields m NoFuel -> yields (bind m k) NoFuel.
Proof.
  intros (evs & H & Hm). exists evs. split; [exact H|].
  now apply runs_bind_no_fuel.
Qed.

Lemma yields_try_return {A} (m : M env A) h a :
  yields m (Return a) -> yields (try_except env m h) (Return a).
Proof.
  intros (evs & H & Hm). exists evs. split; [exact H|].
  now apply runs_try_return.
Qed.

Lemma yields_try_raise {A} (m : M env A) h e r :
  yields m (Raise e) -> yields (h e) r -> yields (try_except env m h) r.
Proof.
  intros (evs1 & H1 & Hm) (evs2 & H2 & Hh). exists (evs1 ++ evs2).
  split; [now apply Forall_app|now apply runs_try_raise with e].
Qed.

(** A logging step followed by [k]. *)
Lemma yields_log_then {B} lvl template args (k : unit -> M env B) r :
  yields (k tt) r -> yields (bind (log env lvl template args) k) r.
Proof. intros H. eapply yields_bind; [apply yields_log|exact H]. Qed.

(** A computation that only logs gives the same result from every state. *)
Lemma yields_fst {A} (m : M env A) r s : yields m r -> fst (m s) = r.
Proof. intros (evs & _ & Hm). now rewrite Hm. Qed.

End Runs.

(** ** Text extraction *)

Section Extraction.

Variable env : Env.

Lemma pdf_page_loop_yields pages page_num text :
  exists text', yields (pdf_page_loop env pages page_num text) (Return text').
Proof.
  revert page_num text.
  induction pages as [|page pages IH]; intros page_num text; simpl.
  - eexists. apply yields_ret.
  - destruct page as [page_text|e].
    + destruct (IH (S page_num) (text ++ page_marker page_num ++ page_text))
        as (text' & H).
      exists text'. eapply yields_bind; [|exact H].
      apply yields_try_return.
      eapply yields_bind; [apply (yields_call env (Ok page_text))|].
      apply yields_ret.
    + destruct (IH (S page_num) text) as (text' & H).
      exists text'. eapply yields_bind; [|exact H].
      eapply yields_try_raise.
      * apply yields_bind_raise. apply (yields_call env (Fails e)).
      * apply yields_log_then. apply yields_ret.
Qed.

(** The part of both PDF extractors that reads the pages natively. *)
Lemma pdf_read_yields file_path :
  exists text,
    yields
      (try_except env
         (bind (call env (pdf_pages (fs_file (fs env) file_path)))
            (fun pages =>
               bind (pdf_page_loop env pages 1 [])
                 (fun text =>
                    bind (log env INFO "Extracted {} characters from PDF: {}"
                            [VInt (len text); VStr (path_name file_path)])
                      (fun _ => ret text))))
         (fun e =>
            bind (log env ERROR "Error reading PDF {}: {}"
                    [VStr (path_str file_path); VStr (exn_str e)])
              (fun _ => ret [])))
      (Return text)
    /\ (forall e, pdf_pages (fs_file (fs env) file_path) = Fails e -> text = []).
Proof.
  destruct (pdf_pages (fs_file (fs env) file_path)) as [pages|e] eqn:E.
  - destruct (pdf_page_loop_yields pages 1 []) as (text & H).
    exists text. split; [|discriminate].
    apply yields_try_return.
    eapply yields_bind; [apply (yields_call env (Ok pages))|].
    eapply yields_bind; [exact H|].
    apply yields_log_then. apply yields_ret.
  - exists []. split; [|reflexivity].
    eapply yields_try_raise.
    + apply yields_bind_raise. apply (yields_call env (Fails e)).
    + apply yields_log_then. apply yields_ret.
Qed.

Lemma extract_text_from_pdf_yields file_path :
  exists text,
    yields (extract_text_from_pdf env file_path) (Return text)
    /\ (forall e, pdf_pages (fs_file (fs env) file_path) = Fails e -> text = []).
Proof. apply pdf_read_yields. Qed.

Lemma extract_text_from_docx_yields file_path :
  exists text,
    yields (extract_text_from_docx env file_path) (Return text)
    /\ (forall e, docx_paragraphs (fs_file (fs env) file_path) = Fails e ->
                  text = []).
Proof.
  unfold extract_text_from_docx.
  destruct (docx_paragraphs (fs_file (fs env) file_path)) as [paragraphs|e].
  - eexists. split; [|discriminate].
    apply yields_try_return.
    eapply yields_bind; [apply (yields_call env (Ok paragraphs))|].
    apply yields_log_then. apply yields_ret.
  - exists []. split; [|reflexivity].
    eapply yields_try_raise.
    + apply yields_bind_raise. apply (yields_call env (Fails e)).
    + apply yields_log_then. apply yields_ret.
Qed.

Lemma extract_text_from_txt_yields file_path :
  exists text,
    yields (extract_text_from_txt env file_path) (Return text)
    /\ (forall e, txt_read (fs_file (fs env) file_path) = Fails e -> text = []).
Proof.
  unfold extract_text_from_txt.
  destruct (txt_read (fs_file (fs env) file_path)) as [text|e].
  - exists text. split; [|discriminate].
    apply yields_try_return.
    eapply yields_bind; [apply (yields_call env (Ok text))|].
    apply yields_log_then. apply yields_ret.
  - exists []. split; [|reflexivity].
    eapply yields_try_raise.
    + apply yields_bind_raise. apply (yields_call env (Fails e)).
    + apply yields_log_then. apply yields_ret.
Qed.

Lemma extract_text_yields file_path :
  exists text,
    yields (extract_text env file_path) (Return text)
    /\ (extraction_fails env file_path = true -> text = []).
Proof.
  unfold extract_text, extraction_fails.
  destruct (str_eqb _ (py ".pdf")).
  { destruct (extract_text_from_pdf_yields file_path) as (text & H & Hf).
    exists text. split; [exact H|].
    destruct (pdf_pages _) as [|e]; [discriminate|]. intros _. now apply (Hf e). }
  destruct (str_eqb _ (py ".docx") || str_eqb _ (py ".doc")).
  { destruct (extract_text_from_docx_yields file_path) as (text & H & Hf).
    exists text. split; [exact H|].
    destruct (docx_paragraphs _) as [|e]; [discriminate|].
    intros _. now apply (Hf e). }
  destruct (str_eqb _ (py ".txt")).
  { destruct (extract_text_from_txt_yields file_path) as (text & H & Hf).
    exists text. split; [exact H|].
    destruct (txt_read _) as [|e]; [discriminate|]. intros _. now apply (Hf e). }
  exists []. split; [|reflexivity].
  apply yields_log_then. apply yields_ret.
Qed.

(** C9. For every path and every state of the file system, [extract_text]
    returns a text and does not raise; when the reader for the declared kind
    fails, or the kind is not supported, that text is the empty string. *)
Theorem extract_text_never_raises :
  forall file_path (s : state env),
    exists text s',
      extract_text env file_path s = (Return text, s')
      /\ (extraction_fails env file_path = true -> text = []).
Proof.
  intros file_path s.
  destruct (extract_text_yields file_path) as (text & (evs & _ & Hrun) & Hf).
  exists text, (add_events env s evs). split; [apply Hrun|exact Hf].
Qed.

End Extraction.

Lemma extract_text_never_raises_witness :
  extraction_fails example_env missing_pdf = true
  /\ exists text s',
       extract_text example_env missing_pdf (example_state ∅)
       = (Return text, s')
       /\ text = [].
Proof.
  split; [reflexivity|].
  destruct (extract_text_never_raises example_env missing_pdf (example_state ∅))
    as (text & s' & H & Hf).
  exists text, s'. split; [exact H|]. apply Hf. reflexivity.
Defined.

(** ** The OCR fallback *)

Section OCR.

Variable env : Env.

Lemma runs_ex_bind {A B} (m : M env A) (k : A -> M env B) :
  (exists r evs, runs m r evs) ->
  (forall a, exists r evs, runs (k a) r evs) ->
  exists r evs, runs (bind m k) r evs.
Proof.
  intros (r & evs & Hm) Hk. destruct r as [a|e|].
  - destruct (Hk a) as (r' & evs' & Hka).
    exists r', (evs ++ evs'). now apply runs_bind with a.
  - exists (Raise e), evs. now apply runs_bind_raise.
  - exists NoFuel, evs. now apply runs_bind_no_fuel.
Qed.

Lemma runs_ex_try {A} (m : M env A) h :
  (exists r evs, runs m r evs) ->
  (forall e, exists r evs, runs (h e) r evs) ->
  exists r evs, runs (try_except env m h) r evs.
Proof.
  intros (r & evs & Hm) Hh. destruct r as [a|e|].
  - exists (Return a), evs. now apply runs_try_return.
  - destruct (Hh e) as (r' & evs' & Hhe).
    exists r', (evs ++ evs'). now apply runs_try_raise with e.
  - exists NoFuel, evs. now apply runs_try_no_fuel.
Qed.

Lemma runs_ex_log_then {B} lvl template args (k : unit -> M env B) :
  (exists r evs, runs (k tt) r evs) ->
  exists r evs, runs (bind (log env lvl template args) k) r evs.
Proof.
  intros H. apply runs_ex_bind.
  - eexists _, _. apply runs_log.
  - now intros [].
Qed.

Lemma ocr_page_loop_runs images page_num total text :
  exists r evs, runs (ocr_page_loop env images page_num total text) r evs.
Proof.
  revert page_num text.
  induction images as [|image images IH]; intros page_num text; simpl.
  - eexists _, _. apply runs_ret.
  - apply runs_ex_log_then. apply runs_ex_bind.
    + eexists _, _. apply runs_call.
    + intros page_text. apply IH.
Qed.

(** A call of [_extract_text_with_ocr] shows in the trace. *)
Lemma extract_text_with_ocr_runs file_path :
  exists r evs,
    runs (_extract_text_with_ocr env file_path) r
      (Called_extract_text_with_ocr file_path :: evs).
Proof.
  unfold _extract_text_with_ocr.
  assert (exists r evs,
            runs
              (try_except env
                 (bind (log env INFO "Converting PDF to images for OCR: {}"
                          [VStr (path_name file_path)])
                    (fun _ =>
                       bind (call env (ocr_pages (fs_file (fs env) file_path)))
                         (fun images =>
                            bind (ocr_page_loop env images 1 (length images) [])
                              (fun text =>
                                 bind (log env INFO
                                         "OCR extracted {} characters from {}"
                                         [VInt (len text);
                                          VStr (path_name file_path)])
                                   (fun _ => ret text)))))
                 (fun e =>
                    bind (log env ERROR "Error during OCR processing {}: {}"
                            [VStr (path_str file_path); VStr (exn_str e)])
                      (fun _ =>
                         bind (log env ERROR
                                 "Make sure tesseract-ocr is installed: sudo apt-get install tesseract-ocr"
                                 [])
                           (fun _ =>
                              bind (log env ERROR
                                      "And poppler-utils: sudo apt-get install poppler-utils"
                                      [])
                                (fun _ => ret [])))))
              r evs) as (r & evs & H).
  { apply runs_ex_try.
    - apply runs_ex_log_then. apply runs_ex_bind.
      + eexists _, _. apply runs_call.
      + intros images. apply runs_ex_bind; [apply ocr_page_loop_runs|].
        intros text. apply runs_ex_log_then. eexists _, _. apply runs_ret.
    - intros e. do 3 apply runs_ex_log_then. eexists _, _. apply runs_ret. }
  exists r, evs.
  change (Called_extract_text_with_ocr file_path :: evs)
    with ([Called_extract_text_with_ocr file_path] ++ evs).
  eapply runs_bind; [apply runs_emit|exact H].
Qed.

Lemma pdf_native_pass_yields file_path :
  exists text, yields (pdf_native_pass env file_path false) (Return text).
Proof.
  destruct (pdf_read_yields env file_path) as (text & H & _).
  exists text. exact H.
Qed.

(** C4, amended. Without [force_ocr], an extractor with OCR enabled (as
    it is by default, with threshold 100) calls the OCR pass exactly when
    the natively extracted text, trimmed of leading and trailing white
    space, has fewer than [ocr_threshold] characters.  The trimmed text is
    never longer than the untrimmed one, so a native result below the
    threshold always triggers OCR; one at or above it still does when
    trimming brings it below. *)
Theorem ocr_trigger :
  forall threshold file_path (s : state env),
    exists text s1,
      pdf_native_pass env file_path false s = (Return text, s1)
      /\ ocr_invoked
           (new_events s
              (snd (ocr_extract_text_from_pdf env
                      {| use_ocr := true; ocr_threshold := threshold |}
                      file_path false s)))
         = (len (strip text) <? threshold)
      /\ len (strip text) <= len text.
Proof.
  intros threshold file_path s.
  destruct (pdf_native_pass_yields file_path) as (text & evs & Hlogs & Hrun).
  exists text, (add_events env s evs).
  split; [apply Hrun|]. split.
  - unfold ocr_extract_text_from_pdf. unfold bind at 1. rewrite Hrun. simpl.
    destruct (len (strip text) <? threshold).
    + destruct (extract_text_with_ocr_runs file_path) as (r & evs' & Hocr).
      unfold bind, log, emit. rewrite Hocr. cbn [snd].
      rewrite !add_events_app, new_events_add.
      unfold ocr_invoked. rewrite !existsb_app. simpl.
      now rewrite !orb_true_r.
    + unfold ret. cbn [snd]. rewrite new_events_add.
      now apply ocr_invoked_logs.
  - pose proof (strip_length text). unfold len. lia.
Qed.

End OCR.

(** C4 as stated fails: the one page of [scan.pdf] yields 82 characters,
    so with its page marker the native text has 100 characters, which is
    not below the default threshold of 100; trimmed of the marker's leading
    line breaks it has 98, and the default extractor calls the OCR pass. *)
Lemma ocr_trigger_counterexample :
  fst (pdf_native_pass example_env scan_pdf false (example_state ∅))
  = Return (page_marker 1 ++ List.repeat 120%N 82)
  /\ len (page_marker 1 ++ List.repeat 120%N 82) = 100
  /\ (len (page_marker 1 ++ List.repeat 120%N 82)
      <? ocr_threshold default_ocr_processor) = false
  /\ ocr_invoked
       (new_events (example_state ∅)
          (snd (ocr_extract_text_from_pdf example_env default_ocr_processor
                  scan_pdf false (example_state ∅))))
     = true.
Proof. repeat split; vm_compute; reflexivity. Qed.

(** ** [process_document] *)

Section Processing.

Variable env : Env.

Lemma chunk_loop_keeps fuel text size overlap start chunks r :
  chunks <> [] ->
  chunk_loop fuel text size overlap start chunks = Some r -> r <> [].
Proof.
  revert start chunks.
  induction fuel as [|fuel IH]; intros start chunks Hne H; [discriminate|].
  simpl in H. destruct (start <? len text).
  - eapply IH; [|exact H]. now destruct chunks.
  - now inversion H; subst.
Qed.

(** A text that is not empty gives at least one chunk. *)
Lemma chunk_text_nonempty fuel st c text chunk_size_arg chunk_overlap_arg r :
  chunk_text fuel st (c :: text) chunk_size_arg chunk_overlap_arg = Some r ->
  r <> [].
Proof.
  unfold chunk_text. destruct (_ <=? _).
  - now intros [= <-].
  - destruct fuel as [|fuel]; [discriminate|].
    rewrite chunk_loop_step by (unfold len; simpl; lia).
    apply chunk_loop_keeps. discriminate.
Qed.

Lemma chunk_text_method_yields fuel text cs co :
  yields (chunk_text_method env fuel text cs co)
    (match chunk_text fuel (settings env) text cs co with
     | Some chunks => Return chunks
     | None => NoFuel
     end).
Proof.
  unfold chunk_text_method.
  destruct (chunk_text fuel (settings env) text cs co) as [chunks|].
  - destruct (_ <=? _); [apply yields_ret|].
    apply yields_log_then. apply yields_ret.
  - exists []. split; [constructor|].
    intros s. unfold run_out_of_fuel. now rewrite add_events_nil.
Qed.

(** The metadata dict that [process_document] builds. *)
Lemma process_document_yields fuel file_path :
  exists r,
    yields (process_document env fuel file_path) r
    /\ match r with
       | Return doc =>
           (dd_text doc = [] /\ dd_chunks doc = [] /\ dd_metadata doc = ∅)
           \/ (dd_chunks doc <> []
               /\ exists st_size,
                    stat_size (fs_file (fs env) file_path) = Ok st_size
                    /\ dd_metadata doc
                       = <[py "text_length" := VInt (len (dd_text doc))]>
                         (<[py "num_chunks" := VInt (len (dd_chunks doc))]>
                         (<[py "file_size" := VInt st_size]>
                         (<[py "file_type" := VStr (path_suffix file_path)]>
                         (<[py "file_name" := VStr (path_name file_path)]> ∅)))))
       | _ => True
       end.
Proof.
  unfold process_document.
  destruct (extract_text_yields env file_path) as (text & Hx & _).
  destruct text as [|c text].
  - eexists. split.
    + apply yields_log_then. eapply yields_bind; [exact Hx|].
      apply yields_log_then. apply yields_ret.
    + left. now repeat split.
  - pose proof (chunk_text_method_yields fuel (c :: text) None None) as Hc.
    destruct (chunk_text fuel (settings env) (c :: text) None None)
      as [chunks|] eqn:E.
    + destruct (stat_size (fs_file (fs env) file_path)) as [st_size|e] eqn:Es.
      * eexists. split.
        -- apply yields_log_then. eapply yields_bind; [exact Hx|].
           eapply yields_bind; [exact Hc|].
           eapply yields_bind; [apply (yields_call env (Ok st_size))|].
           apply yields_log_then. apply yields_ret.
        -- right. split; [now apply chunk_text_nonempty in E|].
           exists st_size. now split.
      * exists (Raise e). split; [|exact I].
        apply yields_log_then. eapply yields_bind; [exact Hx|].
        eapply yields_bind; [exact Hc|].
        apply yields_bind_raise. apply (yields_call env (Fails e)).
    + exists NoFuel. split; [|exact I].
      apply yields_log_then. eapply yields_bind; [exact Hx|].
      now apply yields_bind_no_fuel.
Qed.

(** Where the extractor gives no text, [process_document] gives no
    chunks. *)
Lemma process_document_no_text fuel file_path (s : state env) :
  fst (extract_text env file_path s) = Return [] ->
  exists doc s',
    process_document env fuel file_path s = (Return doc, s')
    /\ dd_chunks doc = [].
Proof.
  intros Hx.
  destruct (extract_text_yields env file_path) as (text & Hy & _).
  rewrite (yields_fst env _ _ s Hy) in Hx. injection Hx as ->.
  assert (Hpd : yields (process_document env fuel file_path)
                  (Return {| dd_file_path := path_str file_path;
                             dd_file_name := path_name file_path;
                             dd_text := [];
                             dd_chunks := [];
                             dd_metadata := ∅ |})).
  { unfold process_document.
    apply yields_log_then. eapply yields_bind; [exact Hy|].
    apply yields_log_then. apply yields_ret. }
  destruct Hpd as (evs & _ & Hrun).
  eexists _, _. split; [apply Hrun|reflexivity].
Qed.

(** C2, amended. For the empty input text [chunk_text] returns the
    one-element sequence holding the empty string (for every effective
    chunk size that is not negative).  The empty sequence of chunks for a
    document without text comes from [process_document], which returns no
    chunks when the extracted text is empty. *)
Theorem chunk_text_empty_text :
  forall fuel chunk_size_arg chunk_overlap_arg file_path (s : state env),
    0 <= int_or chunk_size_arg (chunk_size (settings env)) ->
    fst (extract_text env file_path s) = Return [] ->
    chunk_text fuel (settings env) [] chunk_size_arg chunk_overlap_arg
    = Some [[]]
    /\ exists doc s',
         process_document env fuel file_path s = (Return doc, s')
         /\ dd_chunks doc = [].
Proof.
  intros fuel cs co file_path s Hsize Hx. split.
  - now apply chunk_text_early_return.
  - now apply process_document_no_text.
Qed.

End Processing.

Lemma chunk_text_empty_text_witness :
  0 <= int_or None (chunk_size (settings example_env))
  /\ fst (extract_text example_env empty_txt (example_state ∅)) = Return []
  /\ chunk_text 0 (settings example_env) [] None None = Some [[]]
  /\ exists doc s',
       process_document example_env 0 empty_txt (example_state ∅)
       = (Return doc, s')
       /\ dd_chunks doc = [].
Proof.
  split; [vm_compute; discriminate|].
  split; [reflexivity|].
  apply (chunk_text_empty_text example_env 0 None None empty_txt
           (example_state ∅)).
  - vm_compute; discriminate.
  - reflexivity.
Defined.

(** ** [ingest_file] *)

Section Ingestion.

Variable env : Env.

Implicit Types (s : state env) (doc : doc_data).

Lemma bind_eq {A B} (m : M env A) (k : A -> M env B) s a s1 :
  m s = (Return a, s1) -> bind m k s = k a s1.
Proof. intros H. unfold bind. now rewrite H. Qed.

Lemma bind_log_eq {B} lvl template args (k : unit -> M env B) s :
  bind (log env lvl template args) k s
  = k tt (add_events env s [Log lvl template args]).
Proof. reflexivity. Qed.

(** A call of [add_documents] with chunks shows in the trace, leaves the
    dict objects alone, and returns the number of chunks unless the
    embedding model or the collection raises. *)
Lemma add_documents_run chunks metadatas ids s :
  chunks <> [] ->
  exists r evs s',
    add_documents env chunks (Some metadatas) (Some ids) s = (r, s')
    /\ st_trace s'
       = st_trace s
         ++ Called_add_documents chunks (Some metadatas) (Some ids) :: evs
    /\ Forall is_log evs
    /\ st_heap s' = st_heap s
    /\ (r = Return (len chunks) \/ exists e, r = Raise e).
Proof.
  intros Hne. unfold add_documents.
  destruct chunks as [|c chunks]; [contradiction|].
  unfold bind, emit, ret, generate_embeddings, log, emit, call, raise,
    collection_add_call, bind, ret.
  cbn [fst snd].
  destruct (embedding_model_encode env (c :: chunks)) as [embeddings|e].
  - cbn [add_events st_trace st_heap st_collection].
    destruct (collection_add env _ _ _ _ _) as [[[]|e] coll].
    + eexists _, _, _. split; [reflexivity|].
      cbn [add_events st_trace st_heap st_collection].
      split; [rewrite <- !app_assoc; reflexivity|].
      split; [repeat constructor|]. split; [reflexivity|now left].
    + eexists _, _, _. split; [reflexivity|].
      cbn [add_events st_trace st_heap st_collection].
      split; [rewrite <- !app_assoc; reflexivity|].
      split; [repeat constructor|]. split; [reflexivity|right; eauto].
  - eexists _, _, _. split; [reflexivity|].
    cbn [add_events st_trace st_heap st_collection].
    split; [rewrite <- !app_assoc; reflexivity|].
    split; [repeat constructor|]. split; [reflexivity|right; eauto].
Qed.

(** [metadata or {}] followed by [update]: the dict object named by
    [base_metadata] ends up holding the pipeline's entries over the
    caller's. *)
Lemma base_metadata_update metadata other s :
  exists s1 s2,
    metadata_or_new env metadata s = (Return (base_loc (st_heap s) metadata), s1)
    /\ dict_update env (base_loc (st_heap s) metadata) other s1 = (Return tt, s2)
    /\ st_trace s2 = st_trace s
    /\ st_collection s2 = st_collection s
    /\ st_heap s2
       = <[base_loc (st_heap s) metadata
           := other ∪ caller_dict (st_heap s) metadata]> (st_heap s).
Proof.
  assert (Hnew : forall l,
            <[l := other ∪ default ∅ (<[l := ∅]> (st_heap s) !! l)]>
              (<[l := ∅]> (st_heap s))
            = <[l := other ∪ (∅ : dict)]> (st_heap s)).
  { intros l. rewrite lookup_insert_eq. cbn [default].
    now rewrite insert_insert_eq. }
  unfold metadata_or_new, base_loc, caller_dict.
  destruct metadata as [l|].
  - unfold bind, read_dict.
    destruct (decide (default ∅ (st_heap s !! l) = ∅)) as [Hempty|Hfull].
    + eexists _, _. split; [reflexivity|]. split; [reflexivity|].
      cbn [st_trace st_heap st_collection].
      split; [reflexivity|]. split; [reflexivity|].
      rewrite Hempty. apply Hnew.
    + eexists _, _. split; [reflexivity|]. split; [reflexivity|].
      cbn [st_trace st_heap st_collection].
      split; [reflexivity|]. split; reflexivity.
  - eexists _, _. split; [reflexivity|]. split; [reflexivity|].
    cbn [st_trace st_heap st_collection].
    split; [reflexivity|]. split; [reflexivity|]. apply Hnew.
Qed.

(** What [ingest_file] does for a document with chunks. *)
Lemma ingest_file_indexing fuel file_path metadata s doc :
  fst (process_document env fuel file_path s) = Return doc ->
  dd_chunks doc <> [] ->
  exists r s' evs1 evs2,
    ingest_file env fuel file_path metadata s = (r, s')
    /\ Forall is_log evs1 /\ Forall is_log evs2
    /\ st_trace s'
       = st_trace s ++ evs1
         ++ Called_add_documents (dd_chunks doc)
              (Some (List.map
                       (chunk_metadata
                          (pipeline_metadata file_path doc
                           ∪ caller_dict (st_heap s) metadata))
                       (seq 0 (length (dd_chunks doc)))))
              (Some (List.map (chunk_id (file_id file_path))
                       (seq 0 (length (dd_chunks doc)))))
         :: evs2
    /\ st_heap s'
       = <[base_loc (st_heap s) metadata
           := pipeline_metadata file_path doc
              ∪ caller_dict (st_heap s) metadata]> (st_heap s)
    /\ (r = Return (len (dd_chunks doc)) \/ exists e, r = Raise e).
Proof.
  intros Hdoc Hne.
  destruct (process_document_yields env fuel file_path)
    as (r0 & (evs & Hlogs & Hrun) & _).
  rewrite Hrun in Hdoc. cbn [fst] in Hdoc. subst r0.
  unfold ingest_file. rewrite bind_log_eq.
  rewrite (bind_eq _ _ _ _ _ (Hrun _)).
  destruct (dd_chunks doc) as [|c chunks] eqn:Hchunks; [contradiction|].
  rewrite <- Hchunks in *.
  set (s0 := add_events env (add_events env s _) evs).
  destruct (base_metadata_update metadata (pipeline_metadata file_path doc) s0)
    as (s1 & s2 & Hor & Hupd & Htr2 & Hcoll2 & Hheap2).
  change (st_heap s0) with (st_heap s) in *.
  rewrite (bind_eq _ _ _ _ _ Hor).
  fold (pipeline_metadata file_path doc).
  rewrite (bind_eq _ _ _ _ _ Hupd).
  assert (Hread : read_dict env (base_loc (st_heap s) metadata) s2
                  = (Return (pipeline_metadata file_path doc
                             ∪ caller_dict (st_heap s) metadata), s2)).
  { unfold read_dict. rewrite Hheap2, lookup_insert_eq. reflexivity. }
  rewrite (bind_eq _ _ _ _ _ Hread).
  fold (file_id file_path).
  change (fun i : nat => <[py "chunk_index":=VInt (Z.of_nat i)]> ?b)
    with (chunk_metadata b).
  destruct (add_documents_run (dd_chunks doc)
              (List.map
                 (chunk_metadata
                    (pipeline_metadata file_path doc
                     ∪ caller_dict (st_heap s) metadata))
                 (seq 0 (length (dd_chunks doc))))
              (List.map (chunk_id (file_id file_path))
                 (seq 0 (length (dd_chunks doc)))) s2)
    as (r & evs2 & s3 & Hadd & Htr3 & Hlogs3 & Hheap3 & Hr);
    [congruence|].
  unfold bind at 1. rewrite Hadd.
  destruct Hr as [->|[e ->]].
  - rewrite bind_log_eq. unfold ret.
    eexists _, _,
      ([Log INFO "Ingesting file: {}" [VStr (path_name file_path)]] ++ evs),
      (evs2 ++ [Log INFO "Successfully ingested {} chunks from {}"
                  [VInt (len (dd_chunks doc)); VStr (path_name file_path)]]).
    split; [reflexivity|].
    split; [apply Forall_app; split; [repeat constructor|exact Hlogs]|].
    split; [apply Forall_app; split; [exact Hlogs3|repeat constructor]|].
    cbn [add_events st_trace st_heap st_collection].
    rewrite Htr3, Htr2, Hheap3, Hheap2.
    split; [|split; [reflexivity|now left]].
    subst s0. cbn [add_events st_trace].
    rewrite <- !app_assoc. reflexivity.
  - eexists _, _,
      ([Log INFO "Ingesting file: {}" [VStr (path_name file_path)]] ++ evs),
      evs2.
    split; [reflexivity|].
    split; [apply Forall_app; split; [repeat constructor|exact Hlogs]|].
    split; [exact Hlogs3|].
    rewrite Htr3, Htr2, Hheap3, Hheap2.
    split; [|split; [reflexivity|right; eauto]].
    subst s0. cbn [add_events st_trace].
    rewrite <- !app_assoc. reflexivity.
Qed.

(** What [ingest_file] does for a document without chunks. *)
Lemma ingest_file_skips fuel file_path metadata s doc :
  fst (process_document env fuel file_path s) = Return doc ->
  dd_chunks doc = [] ->
  yields (ingest_file env fuel file_path metadata) (Return 0).
Proof.
  intros Hdoc Hnil.
  destruct (process_document_yields env fuel file_path) as (r0 & Hy & _).
  rewrite (yields_fst env _ _ s Hy) in Hdoc. subst r0.
  unfold ingest_file. apply yields_log_then.
  eapply yields_bind; [exact Hy|].
  rewrite Hnil. apply yields_log_then. apply yields_ret.
Qed.

(** When [process_document] does not return, neither does [ingest_file],
    and nothing but logging has happened. *)
Lemma ingest_file_propagates fuel file_path metadata s :
  (forall doc, fst (process_document env fuel file_path s) <> Return doc) ->
  exists r, yields (ingest_file env fuel file_path metadata) r.
Proof.
  intros Hdoc.
  destruct (process_document_yields env fuel file_path) as (r0 & Hy & _).
  rewrite (yields_fst env _ _ s Hy) in Hdoc.
  unfold ingest_file. destruct r0 as [doc|e|].
  - now destruct (Hdoc doc).
  - exists (Raise e). apply yields_log_then. now apply yields_bind_raise.
  - exists NoFuel. apply yields_log_then. now apply yields_bind_no_fuel.
Qed.

End Ingestion.

(** ** Identifiers, metadata and the index *)

Section IngestFile.

Variable env : Env.

Implicit Types (s : state env) (doc : doc_data).

Lemma new_events_of_trace s s' evs :
  st_trace s' = st_trace s ++ evs -> new_events s s' = evs.
Proof. intros H. unfold new_events. rewrite H. apply drop_app_length. Qed.

(** The calls of [add_documents] made by one [ingest_file]. *)
Lemma ingest_file_calls fuel file_path metadata s :
  add_documents_calls
    (new_events s (snd (ingest_file env fuel file_path metadata s)))
  = match fst (process_document env fuel file_path s) with
    | Return doc =>
        match dd_chunks doc with
        | [] => []
        | _ =>
            [(dd_chunks doc,
              Some (List.map
                      (chunk_metadata
                         (pipeline_metadata file_path doc
                          ∪ caller_dict (st_heap s) metadata))
                      (seq 0 (length (dd_chunks doc)))),
              Some (List.map (chunk_id (file_id file_path))
                      (seq 0 (length (dd_chunks doc)))))]
        end
    | _ => []
    end.
Proof.
  destruct (fst (process_document env fuel file_path s)) as [doc|e|] eqn:Hpd.
  - destruct (dd_chunks doc) as [|c chunks] eqn:Hchunks.
    + destruct (ingest_file_skips env fuel file_path metadata s doc Hpd Hchunks)
        as (evs & Hlogs & Hrun).
      rewrite Hrun. cbn [snd]. rewrite new_events_add.
      now apply add_documents_calls_logs.
    + rewrite <- Hchunks.
      destruct (ingest_file_indexing env fuel file_path metadata s doc Hpd)
        as (r & s' & evs1 & evs2 & Hrun & Hl1 & Hl2 & Htr & _);
        [congruence|].
      rewrite Hrun. cbn [snd].
      rewrite (new_events_of_trace _ _ _ Htr).
      rewrite add_documents_calls_app. cbn [add_documents_calls flat_map].
      fold (add_documents_calls evs2).
      rewrite (add_documents_calls_logs evs1 Hl1).
      now rewrite (add_documents_calls_logs evs2 Hl2).
  - destruct (ingest_file_propagates env fuel file_path metadata s)
      as (r & evs & Hlogs & Hrun); [intros doc; rewrite Hpd; discriminate|].
    rewrite Hrun. cbn [snd]. rewrite new_events_add.
    now apply add_documents_calls_logs.
  - destruct (ingest_file_propagates env fuel file_path metadata s)
      as (r & evs & Hlogs & Hrun); [intros doc; rewrite Hpd; discriminate|].
    rewrite Hrun. cbn [snd]. rewrite new_events_add.
    now apply add_documents_calls_logs.
Qed.

Lemma process_document_fst fuel file_path s1 s2 :
  fst (process_document env fuel file_path s1)
  = fst (process_document env fuel file_path s2).
Proof.
  destruct (process_document_yields env fuel file_path) as (r & Hy & _).
  now rewrite !(yields_fst env _ r _ Hy).
Qed.

(** C5, amended. Ingesting the same file twice with the same chunking
    configuration hands identical identifier sequences to the index,
    whatever the state of the index and of the caller's metadata before
    each run; the identifier of chunk [i] is ["<file_id>_chunk_<i>"], where
    [file_id] is the file stem with every space replaced by an
    underscore. *)
Theorem ingest_file_ids_deterministic :
  forall fuel file_path metadata1 metadata2 s1 s2,
    submitted_ids
      (new_events s1 (snd (ingest_file env fuel file_path metadata1 s1)))
    = submitted_ids
        (new_events s2 (snd (ingest_file env fuel file_path metadata2 s2)))
    /\ Forall
         (fun ids =>
            exists n,
              ids = Some (List.map
                            (fun i =>
                               replace_char SPACE UNDERSCORE (path_stem file_path)
                               ++ py "_chunk_" ++ str_of_nat i)
                            (seq 0 n)))
         (submitted_ids
            (new_events s1 (snd (ingest_file env fuel file_path metadata1 s1)))).
Proof.
  intros fuel file_path metadata1 metadata2 s1 s2.
  unfold submitted_ids. rewrite !ingest_file_calls.
  rewrite (process_document_fst fuel file_path s2 s1).
  destruct (fst (process_document env fuel file_path s1)) as [doc|e|];
    try (split; [reflexivity|constructor]).
  destruct (dd_chunks doc) as [|c chunks];
    [split; [reflexivity|constructor]|].
  split; [reflexivity|].
  constructor; [|constructor].
  now exists (length (c :: chunks)).
Qed.

Lemma pipeline_metadata_other fuel file_path s doc k :
  fst (process_document env fuel file_path s) = Return doc ->
  k ∉ pipeline_keys ->
  pipeline_metadata file_path doc !! k = None.
Proof.
  intros Hpd Hk.
  destruct (process_document_yields env fuel file_path) as (r & Hy & Hshape).
  rewrite (yields_fst env _ r s Hy) in Hpd. subst r.
  unfold pipeline_keys in Hk.
  repeat (apply not_elem_of_cons in Hk as [? Hk]).
  unfold pipeline_metadata.
  apply lookup_union_None. split.
  - destruct Hshape as [(_ & _ & ->)|(_ & st_size & _ & ->)];
      [apply lookup_empty|].
    now rewrite !lookup_insert_ne by congruence.
  - now rewrite !lookup_insert_ne by congruence.
Qed.

(** C6, amended. For a caller-supplied metadata dict [m] and every key [k]
    of [m] other than the keys the pipeline writes ([source_file],
    [file_type], [file_name], [file_size], [num_chunks], [text_length] and
    [chunk_index]), the metadata of every chunk that [ingest_file] passes
    to [add_documents] maps [k] to [m[k]]. *)
Theorem caller_metadata_kept :
  forall fuel file_path l (m : dict) s doc k v,
    st_heap s !! l = Some m ->
    m !! k = Some v ->
    k ∉ pipeline_keys ->
    fst (process_document env fuel file_path s) = Return doc ->
    dd_chunks doc <> [] ->
    exists metadatas ids,
      add_documents_calls
        (new_events s (snd (ingest_file env fuel file_path (Some l) s)))
      = [(dd_chunks doc, Some metadatas, Some ids)]
      /\ length metadatas = length (dd_chunks doc)
      /\ Forall (fun md : dict => md !! k = Some v) metadatas.
Proof.
  intros fuel file_path l m s doc k v Hl Hk Hres Hpd Hne.
  rewrite ingest_file_calls, Hpd.
  destruct (dd_chunks doc) as [|c chunks] eqn:Hchunks; [contradiction|].
  eexists _, _. split; [reflexivity|].
  split; [now rewrite length_map, length_seq|].
  apply List.Forall_map. apply List.Forall_forall. intros i _.
  unfold chunk_metadata, caller_dict. rewrite Hl.
  change (default ∅ (Some m)) with m.
  assert (k <> py "chunk_index").
  { intros ->. apply Hres. unfold pipeline_keys. set_solver. }
  rewrite lookup_insert_ne by congruence.
  rewrite lookup_union_r; [exact Hk|].
  eapply pipeline_metadata_other; eauto.
Qed.

(** C8. For a document whose processing gives no chunks, [ingest_file]
    returns 0, does not raise, does not call [add_documents], and leaves
    the collection and the caller's metadata as they were. *)
Theorem ingest_file_no_chunks :
  forall fuel file_path metadata s doc,
    fst (process_document env fuel file_path s) = Return doc ->
    dd_chunks doc = [] ->
    exists s',
      ingest_file env fuel file_path metadata s = (Return 0, s')
      /\ add_documents_calls (new_events s s') = []
      /\ st_collection s' = st_collection s
      /\ st_heap s' = st_heap s.
Proof.
  intros fuel file_path metadata s doc Hpd Hnil.
  destruct (ingest_file_skips env fuel file_path metadata s doc Hpd Hnil)
    as (evs & Hlogs & Hrun).
  exists (add_events env s evs). split; [apply Hrun|].
  rewrite new_events_add.
  split; [now apply add_documents_calls_logs|]. now split.
Qed.

(** C10, amended. For every call [ingest_file(path, metadata)] whose
    [metadata] is a dict that is not empty, on a document that gives at
    least one chunk, the caller's dict object itself is updated: after the
    call it holds [source_file], [file_type], [file_name], [file_size],
    [num_chunks] and [text_length] as written by the pipeline, previous
    values under these keys being overwritten, and its other entries
    unchanged. *)
Theorem caller_metadata_mutated :
  forall fuel file_path l (m : dict) s doc,
    st_heap s !! l = Some m ->
    m <> ∅ ->
    fst (process_document env fuel file_path s) = Return doc ->
    dd_chunks doc <> [] ->
    exists (m' : dict) st_size,
      st_heap (snd (ingest_file env fuel file_path (Some l) s)) !! l = Some m'
      /\ stat_size (fs_file (fs env) file_path) = Ok st_size
      /\ m' !! py "source_file" = Some (VStr (path_name file_path))
      /\ m' !! py "file_type" = Some (VStr (path_suffix file_path))
      /\ m' !! py "file_name" = Some (VStr (path_name file_path))
      /\ m' !! py "file_size" = Some (VInt st_size)
      /\ m' !! py "num_chunks" = Some (VInt (len (dd_chunks doc)))
      /\ m' !! py "text_length" = Some (VInt (len (dd_text doc)))
      /\ (forall k, k ∉ pipeline_keys -> m' !! k = m !! k).
Proof.
  intros fuel file_path l m s doc Hl Hfull Hpd Hne.
  destruct (ingest_file_indexing env fuel file_path (Some l) s doc Hpd Hne)
    as (r & s' & evs1 & evs2 & Hrun & _ & _ & _ & Hheap & _).
  rewrite Hrun. cbn [snd]. rewrite Hheap.
  unfold base_loc, caller_dict. rewrite Hl.
  change (default ∅ (Some m)) with m.
  destruct (decide (m = ∅)) as [|_]; [contradiction|].
  rewrite lookup_insert_eq.
  destruct (process_document_yields env fuel file_path) as (r0 & Hy & Hshape).
  pose proof Hpd as Hpd'.
  rewrite (yields_fst env _ r0 s Hy) in Hpd'. subst r0.
  destruct Hshape as [(_ & Hnil & _)|(_ & st_size & Hstat & Hmd)];
    [contradiction|].
  exists (pipeline_metadata file_path doc ∪ m), st_size.
  split; [reflexivity|]. split; [exact Hstat|].
  assert (Hfrom : forall k v, pipeline_metadata file_path doc !! k = Some v ->
                              (pipeline_metadata file_path doc ∪ m) !! k = Some v)
    by (intros k v; apply lookup_union_Some_l).
  unfold pipeline_metadata in Hfrom |- *. rewrite Hmd in Hfrom |- *.
  split; [apply Hfrom; apply lookup_union_Some_raw; right;
          split; [now rewrite !lookup_insert_ne by discriminate|];
          now rewrite lookup_insert_ne, lookup_insert_eq by discriminate|].
  split; [apply Hfrom, lookup_union_Some_l;
          now rewrite !lookup_insert_ne, lookup_insert_eq by discriminate|].
  split; [apply Hfrom, lookup_union_Some_l;
          now rewrite !lookup_insert_ne, lookup_insert_eq by discriminate|].
  split; [apply Hfrom, lookup_union_Some_l;
          now rewrite !lookup_insert_ne, lookup_insert_eq by discriminate|].
  split; [apply Hfrom, lookup_union_Some_l;
          now rewrite !lookup_insert_ne, lookup_insert_eq by discriminate|].
  split; [apply Hfrom, lookup_union_Some_l;
          now rewrite lookup_insert_eq|].
  intros k Hk. apply lookup_union_r.
  rewrite <- Hmd. fold (pipeline_metadata file_path doc).
  eapply pipeline_metadata_other; eauto.
Qed.

End IngestFile.

(** ** [ingest_directory] *)

Section IngestDirectory.

Variable env : Env.

Implicit Types (s : state env) (counts : list Z).


(** The loop over files that all ingest. *)
Lemma ingest_files_loop_all_return fuel files metadata total failed s counts :
  file_outcomes env fuel files metadata s = List.map Return counts ->
  exists s',
    ingest_files_loop env fuel files metadata total failed s
    = (Return (total + sum_counts counts, failed), s')
    /\ length files = length counts.
Proof.
  revert total s counts.
  induction files as [|file_path files IH]; intros total s counts H.
  - destruct counts; [|discriminate].
    exists s. split; [|reflexivity].
    simpl. unfold ret. do 2 f_equal. unfold sum_counts. simpl. f_equal. lia.
  - simpl in H.
    destruct (ingest_file env fuel file_path metadata s) as [r s1] eqn:E.
    destruct counts as [|c counts]; [discriminate|].
    simpl in H. injection H as -> H.
    destruct (IH (total + c) s1 counts H) as (s' & Hloop & Hlen).
    exists s'. split; [|simpl; now rewrite Hlen].
    simpl. unfold bind at 1, try_except, bind at 1. rewrite E.
    unfold ret. cbn [fst snd]. rewrite Hloop.
    do 3 f_equal. lia.
Qed.

(** The loop over files of which exactly one raises. *)
Lemma ingest_files_loop_one_raise fuel files metadata total failed s
    counts1 e counts2 :
  file_outcomes env fuel files metadata s
  = List.map Return counts1 ++ Raise e :: List.map Return counts2 ->
  exists file_path s',
    files !! length counts1 = Some file_path
    /\ length files = S (length counts1 + length counts2)
    /\ ingest_files_loop env fuel files metadata total failed s
       = (Return (total + (sum_counts counts1 + sum_counts counts2),
                  failed ++ [path_str file_path]), s').
Proof.
  revert files total s.
  induction counts1 as [|c counts1 IH]; intros files total s H.
  - destruct files as [|file_path files]; [discriminate|].
    simpl in H.
    destruct (ingest_file env fuel file_path metadata s) as [r s1] eqn:E.
    simpl in H. injection H as -> H.
    destruct (ingest_files_loop_all_return fuel files metadata total
                (failed ++ [path_str file_path]) _ counts2 H)
      as (s' & Hloop & Hlen).
    exists file_path, s'. split; [reflexivity|].
    split; [simpl; now rewrite Hlen|].
    simpl. unfold bind at 1, try_except, bind at 1. rewrite E.
    rewrite bind_log_eq. unfold ret. cbn [fst snd]. rewrite Hloop.
    reflexivity.
  - destruct files as [|file_path files]; [discriminate|].
    simpl in H.
    destruct (ingest_file env fuel file_path metadata s) as [r s1] eqn:E.
    simpl in H. injection H as -> H.
    destruct (IH files (total + c) s1 H) as (f & s' & Hf & Hlen & Hloop).
    exists f, s'. split; [exact Hf|].
    split; [simpl; now rewrite Hlen|].
    simpl. unfold bind at 1, try_except, bind at 1. rewrite E.
    unfold ret. cbn [fst snd]. rewrite Hloop.
    do 3 f_equal. lia.
Qed.

(** C7. When the calls of [ingest_file] made for the [N] matching files
    of a directory all return except one, which raises, [ingest_directory]
    returns (the exception does not propagate) the sum of the chunk counts
    of the other [N - 1] files, and its failure list, as reported in its
    last log record, has exactly one entry: the path of the file that
    raised. *)
Theorem ingest_directory_partial_failure :
  forall fuel directory file_patterns recursive metadata s counts1 e counts2,
    directory_outcomes env fuel directory file_patterns recursive metadata s
    = List.map Return counts1 ++ Raise e :: List.map Return counts2 ->
    exists file_path s',
      matching_files env directory (patterns_or_default file_patterns) recursive
        !! length counts1 = Some file_path
      /\ length (matching_files env directory
                   (patterns_or_default file_patterns) recursive)
         = S (length counts1 + length counts2)
      /\ ingest_directory env fuel directory file_patterns recursive metadata s
         = (Return (sum_counts counts1 + sum_counts counts2), s')
      /\ exists earlier,
           st_trace s'
           = earlier
             ++ [Log WARNING "Failed to ingest {} files: {}"
                   [VInt 1; VStrList [path_str file_path]]].
Proof.
  intros fuel directory file_patterns recursive metadata s counts1 e counts2 H.
  unfold directory_outcomes in H.
  destruct (ingest_files_loop_one_raise fuel _ metadata 0 [] _ counts1 e counts2 H)
    as (file_path & s1 & Hf & Hlen & Hloop).
  unfold ingest_directory.
  destruct (matching_files env directory (patterns_or_default file_patterns)
              recursive) as [|f0 files] eqn:Hfiles; [discriminate|].
  eexists file_path, _. split; [exact Hf|]. split; [exact Hlen|].
  rewrite bind_log_eq, bind_log_eq, add_events_app.
  cbn [app]. unfold bind at 1. rewrite Hloop.
  cbn [app]. rewrite bind_log_eq, bind_log_eq. unfold ret.
  split; [reflexivity|].
  cbn [add_events st_trace]. eexists. reflexivity.
Qed.

End IngestDirectory.

(** ** The theorems at the example environment *)

(** C5 as stated fails on the identifier format: for [my file.txt] the
    identifier handed to the index is [my_file_chunk_0], not the stem
    followed by [_chunk_0]. *)
Lemma ingest_file_ids_counterexample :
  submitted_ids
    (new_events (example_state ∅)
       (snd (ingest_file example_env 1 my_file_txt None (example_state ∅))))
  = [Some [py "my_file_chunk_0"]]
  /\ py "my_file_chunk_0" <> path_stem my_file_txt ++ py "_chunk_0".
Proof. split; [vm_compute; reflexivity|vm_compute; discriminate]. Qed.

(** C6 as stated fails: the caller's [file_name], a key other than
    [source_file] and [chunk_index], is replaced by the name of the file. *)
Lemma caller_metadata_counterexample :
  List.map
    (fun call =>
       option_map (List.map (fun md : dict => md !! py "file_name"))
         (snd (fst call)))
    (add_documents_calls
       (new_events
          (example_state {[ 0%nat := {[ py "file_name" := VStr (py "custom") ]} ]})
          (snd (ingest_file example_env 1 a_txt (Some 0%nat)
                  (example_state
                     {[ 0%nat := {[ py "file_name" := VStr (py "custom") ]} ]})))))
  = [Some [Some (VStr (py "a.txt"))]]
  /\ VStr (py "a.txt") <> VStr (py "custom")
  /\ py "file_name" <> py "source_file"
  /\ py "file_name" <> py "chunk_index".
Proof.
  split; [vm_compute; reflexivity|].
  repeat split; vm_compute; discriminate.
Qed.

Lemma caller_metadata_kept_witness :
  exists metadatas ids,
    add_documents_calls
      (new_events
         (example_state {[ 0%nat := {[ py "title" := VStr (py "RFP") ]} ]})
         (snd (ingest_file example_env 1 a_txt (Some 0%nat)
                 (example_state
                    {[ 0%nat := {[ py "title" := VStr (py "RFP") ]} ]}))))
    = [([py " hello world"], Some metadatas, Some ids)]
    /\ length metadatas = 1%nat
    /\ Forall (fun md : dict => md !! py "title" = Some (VStr (py "RFP")))
         metadatas.
Proof.
  apply (caller_metadata_kept example_env 1 a_txt 0%nat
           {[ py "title" := VStr (py "RFP") ]}
           (example_state {[ 0%nat := {[ py "title" := VStr (py "RFP") ]} ]})
           {| dd_file_path := py "a.txt";
              dd_file_name := py "a.txt";
              dd_text := py " hello world";
              dd_chunks := [py " hello world"];
              dd_metadata :=
                <[py "text_length" := VInt 12]>
                (<[py "num_chunks" := VInt 1]>
                (<[py "file_size" := VInt 12]>
                (<[py "file_type" := VStr (py ".txt")]>
                (<[py "file_name" := VStr (py "a.txt")]> ∅)))) |}
           (py "title") (VStr (py "RFP"))).
  - vm_compute; reflexivity.
  - vm_compute; reflexivity.
  - unfold pipeline_keys. intros H.
    repeat (apply elem_of_cons in H as [H|H]; [discriminate H|]).
    now apply elem_of_nil in H.
  - vm_compute; reflexivity.
  - discriminate.
Defined.

Lemma ingest_file_no_chunks_witness :
  exists s',
    ingest_file example_env 1 empty_txt None (example_state ∅) = (Return 0, s')
    /\ add_documents_calls (new_events (example_state ∅) s') = []
    /\ st_collection s' = st_collection (example_state ∅)
    /\ st_heap s' = st_heap (example_state ∅).
Proof.
  apply (ingest_file_no_chunks example_env 1 empty_txt None (example_state ∅)
           {| dd_file_path := py "empty.txt";
              dd_file_name := py "empty.txt";
              dd_text := [];
              dd_chunks := [];
              dd_metadata := ∅ |}).
  - vm_compute; reflexivity.
  - reflexivity.
Defined.

(** C10 as stated fails: a caller's dict that is empty is not [None], yet
    [metadata or {}] replaces it by a new dict, and the caller's dict is
    still empty after a call that ingested one chunk. *)
Lemma caller_metadata_mutated_counterexample :
  fst (ingest_file example_env 1 a_txt (Some 0%nat)
         (example_state {[ 0%nat := ∅ ]}))
  = Return 1
  /\ st_heap (snd (ingest_file example_env 1 a_txt (Some 0%nat)
                     (example_state {[ 0%nat := ∅ ]}))) !! 0%nat
     = Some ∅.
Proof. split; vm_compute; reflexivity. Qed.

Lemma caller_metadata_mutated_witness :
  exists (m' : dict) st_size,
    st_heap (snd (ingest_file example_env 1 a_txt (Some 0%nat)
                    (example_state
                       {[ 0%nat := {[ py "file_name" := VStr (py "custom") ]} ]})))
      !! 0%nat = Some m'
    /\ stat_size (fs_file (fs example_env) a_txt) = Ok st_size
    /\ m' !! py "source_file" = Some (VStr (path_name a_txt))
    /\ m' !! py "file_type" = Some (VStr (path_suffix a_txt))
    /\ m' !! py "file_name" = Some (VStr (path_name a_txt))
    /\ m' !! py "file_size" = Some (VInt st_size)
    /\ m' !! py "num_chunks" = Some (VInt 1)
    /\ m' !! py "text_length" = Some (VInt 12)
    /\ (forall k, k ∉ pipeline_keys ->
                  m' !! k
                  = ({[ py "file_name" := VStr (py "custom") ]} : dict) !! k).
Proof.
  apply (caller_metadata_mutated example_env 1 a_txt 0%nat
           {[ py "file_name" := VStr (py "custom") ]}
           (example_state
              {[ 0%nat := {[ py "file_name" := VStr (py "custom") ]} ]})
           {| dd_file_path := py "a.txt";
              dd_file_name := py "a.txt";
              dd_text := py " hello world";
              dd_chunks := [py " hello world"];
              dd_metadata :=
                <[py "text_length" := VInt 12]>
                (<[py "num_chunks" := VInt 1]>
                (<[py "file_size" := VInt 12]>
                (<[py "file_type" := VStr (py ".txt")]>
                (<[py "file_name" := VStr (py "a.txt")]> ∅)))) |}).
  - vm_compute; reflexivity.
  - intros H.
    assert (E : ({[ py "file_name" := VStr (py "custom") ]} : dict)
                !! py "file_name" = (∅ : dict) !! py "file_name")
      by now rewrite H.
    vm_compute in E. discriminate E.
  - vm_compute; reflexivity.
  - discriminate.
Defined.

Lemma ingest_directory_partial_failure_witness :
  directory_outcomes example_env 1 docs_dir None false None (example_state ∅)
  = List.map Return [1] ++ Raise (Exception (py "Permission denied"))
    :: List.map Return [1]
  /\ exists file_path s',
       matching_files example_env docs_dir (patterns_or_default None) false
         !! 1%nat = Some file_path
       /\ length (matching_files example_env docs_dir
                    (patterns_or_default None) false) = 3%nat
       /\ ingest_directory example_env 1 docs_dir None false None
            (example_state ∅)
          = (Return 2, s')
       /\ exists earlier,
            st_trace s'
            = earlier
              ++ [Log WARNING "Failed to ingest {} files: {}"
                    [VInt 1; VStrList [path_str file_path]]].
Proof.
  split; [vm_compute; reflexivity|].
  apply (ingest_directory_partial_failure example_env 1 docs_dir None false
           None (example_state ∅) [1]
           (Exception (py "Permission denied")) [1]).
  vm_compute; reflexivity.
Defined.

(** * Further properties *)

(** ** More on the chunker *)

Section ChunkerMore.

Implicit Types (text : pystr) (fuel : nat).

(** X1. Whenever [chunk_text] returns and the effective chunk size is not
    negative, no chunk is longer than the effective chunk size. *)
Theorem chunks_within_size :
  forall fuel st text chunk_size_arg chunk_overlap_arg chunks,
    0 <= int_or chunk_size_arg (chunk_size st) ->
    chunk_text fuel st text chunk_size_arg chunk_overlap_arg = Some chunks ->
    Forall (fun c => len c <= int_or chunk_size_arg (chunk_size st)) chunks.
Proof.
  intros fuel st text cs co chunks Hs. unfold chunk_text.
  destruct (len text <=? int_or cs (chunk_size st)) eqn:E.
  - intros [= <-]. apply Z.leb_le in E. now repeat constructor.
  - intros H. eapply chunk_loop_bounded; [exact Hs|constructor|exact H].
Qed.

Lemma chunks_within_size_witness :
  Forall (fun c => len c <= 10)
    [py "abcdefghij"; py "hij.klmnop"; py "nop"].
Proof.
  apply (chunks_within_size 4 default_settings (py "abcdefghij.klmnop")
           (Some 10) (Some 3)).
  - vm_compute; discriminate.
  - vm_compute; reflexivity.
Defined.

Lemma rfind_scan_absent s c i a b acc :
  Forall (fun x => x <> c) s -> rfind_scan s c i a b acc = acc.
Proof.
  intros H. revert i acc.
  induction H as [|x s Hx _ IH]; intros i acc; simpl; [reflexivity|].
  rewrite IH. apply N.eqb_neq in Hx. rewrite Hx.
  now rewrite andb_false_r.
Qed.

Lemma rfind_boundary_free text i j :
  boundary_free text ->
  rfind text DOT i j = -1 /\ rfind text NL i j = -1.
Proof.
  intros H. unfold rfind. split; apply rfind_scan_absent;
    eapply Forall_impl; try exact H; simpl; tauto.
Qed.

(** Without a boundary in the text, a window ends at its raw edge (or at
    0 for a start below [-1]). *)
Lemma chunk_end_boundary_free text size start :
  boundary_free text ->
  chunk_end text size start
  = if (start + size <? len text) && (-1 >? start) then 0 else start + size.
Proof.
  intros H. unfold chunk_end.
  destruct (rfind_boundary_free text start (start + size) H) as [-> ->].
  change (Z.max (-1) (-1)) with (-1).
  destruct (start + size <? len text); [|reflexivity].
  cbn [andb]. destruct (-1 >? start); reflexivity.
Qed.

Lemma chunk_loop_advances fuel text size overlap start chunks :
  boundary_free text ->
  overlap < size ->
  0 <= start ->
  (Z.to_nat (len text - start) < fuel)%nat ->
  exists r, chunk_loop fuel text size overlap start chunks = Some r.
Proof.
  intros Hfree Hlt. revert start chunks.
  induction fuel as [|fuel IH]; intros start chunks Hstart Hfuel; [lia|].
  simpl. destruct (start <? len text) eqn:E; [|eauto].
  apply Z.ltb_lt in E.
  rewrite chunk_end_boundary_free by exact Hfree.
  replace (-1 >? start) with false
    by (symmetry; rewrite Z.gtb_ltb; apply Z.ltb_ge; lia).
  rewrite andb_false_r.
  apply IH; lia.
Qed.

(** X2. On a text without any sentence terminator or line break, the
    chunker terminates whenever the effective overlap is smaller than the
    effective chunk size: a fuel of one more than the length of the text
    gives a result. *)
Theorem chunk_text_terminates_without_boundaries :
  forall st text chunk_size_arg chunk_overlap_arg,
    boundary_free text ->
    int_or chunk_overlap_arg (chunk_overlap st)
    < int_or chunk_size_arg (chunk_size st) ->
    exists chunks,
      chunk_text (S (length text)) st text chunk_size_arg chunk_overlap_arg
      = Some chunks.
Proof.
  intros st text cs co Hfree Hlt. unfold chunk_text.
  destruct (len text <=? int_or cs (chunk_size st)); [eauto|].
  apply chunk_loop_advances; try assumption; [lia|].
  unfold len. lia.
Qed.

Lemma chunk_text_terminates_without_boundaries_witness :
  exists chunks,
    chunk_text 17 default_settings (py "abcdefghijklmnop") (Some 10) (Some 3)
    = Some chunks.
Proof.
  apply (chunk_text_terminates_without_boundaries default_settings
           (py "abcdefghijklmnop") (Some 10) (Some 3)).
  - unfold boundary_free. repeat constructor; discriminate.
  - vm_compute; reflexivity.
Defined.

Lemma chunk_loop_never_exits fuel text size overlap start chunks :
  boundary_free text ->
  0 < size <= overlap ->
  size < len text ->
  start <= 0 ->
  chunk_loop fuel text size overlap start chunks = None.
Proof.
  intros Hfree Hso Hlen. revert start chunks.
  induction fuel as [|fuel IH]; intros start chunks Hstart; [reflexivity|].
  rewrite chunk_loop_step by lia.
  apply IH.
  rewrite chunk_end_boundary_free by exact Hfree.
  destruct ((start + size <? len text) && (-1 >? start)); lia.
Qed.

(** X3. On a text without any sentence terminator or line break that is
    longer than the chunk size, the chunker never returns when the overlap
    is at least the (positive) chunk size: [start] never gets above 0. *)
Theorem chunk_text_hangs_on_large_overlap :
  forall fuel st text size overlap,
    boundary_free text ->
    0 < size <= overlap ->
    size < len text ->
    chunk_text fuel st text (Some size) (Some overlap) = None.
Proof.
  intros fuel st text size overlap Hfree Hso Hlen. unfold chunk_text, int_or.
  replace (size =? 0) with false by (symmetry; apply Z.eqb_neq; lia).
  replace (overlap =? 0) with false by (symmetry; apply Z.eqb_neq; lia).
  replace (len text <=? size) with false by (symmetry; apply Z.leb_gt; lia).
  apply chunk_loop_never_exits; try assumption. lia.
Qed.

Lemma chunk_text_hangs_on_large_overlap_witness :
  chunk_text 1000 default_settings (py "abcdefghijklmnop") (Some 10) (Some 10)
  = None.
Proof.
  apply (chunk_text_hangs_on_large_overlap 1000 default_settings
           (py "abcdefghijklmnop") 10 10).
  - unfold boundary_free. repeat constructor; discriminate.
  - lia.
  - vm_compute; reflexivity.
Defined.

Lemma lstrip_no_lead s : no_lead (lstrip s).
Proof.
  induction s as [|c s IH]; simpl; [exact I|].
  destruct (isspace c) eqn:E; [exact IH|exact E].
Qed.

Lemma lstrip_fixed s : no_lead s -> lstrip s = s.
Proof. destruct s as [|c s]; simpl; [reflexivity|]. now intros ->. Qed.

Lemma lstrip_suffix s : exists w, s = w ++ lstrip s.
Proof.
  induction s as [|c s [w IH]]; simpl; [now exists []|].
  destruct (isspace c).
  - exists (c :: w). simpl. now f_equal.
  - now exists [].
Qed.

Lemma strip_idempotent s : strip (strip s) = strip s.
Proof.
  unfold strip, rstrip.
  set (t := lstrip s).
  assert (Ht : no_lead t) by apply lstrip_no_lead.
  set (u := rev (lstrip (rev t))).
  assert (Hu : no_lead u).
  { destruct (lstrip_suffix (rev t)) as [w Hw].
    assert (E : t = u ++ rev w).
    { subst u. rewrite <- rev_app_distr, <- Hw. now rewrite rev_involutive. }
    destruct u as [|c u]; [exact I|].
    rewrite E in Ht. exact Ht. }
  rewrite (lstrip_fixed u Hu).
  subst u. rewrite rev_involutive.
  now rewrite (lstrip_fixed _ (lstrip_no_lead (rev t))).
Qed.

Lemma chunk_loop_trimmed fuel text size overlap start chunks r :
  Forall (fun c => strip c = c) chunks ->
  chunk_loop fuel text size overlap start chunks = Some r ->
  Forall (fun c => strip c = c) r.
Proof.
  revert start chunks.
  induction fuel as [|fuel IH]; intros start chunks Hc H; [discriminate|].
  simpl in H. destruct (start <? len text).
  - eapply IH; [|exact H].
    apply Forall_app. split; [exact Hc|].
    constructor; [apply strip_idempotent|constructor].
  - now inversion H; subst.
Qed.

(** X4. When the text is longer than the effective chunk size, every
    chunk that [chunk_text] returns is trimmed: it neither starts nor ends
    with white space, so stripping it again changes nothing. *)
Theorem long_text_chunks_are_trimmed :
  forall fuel st text chunk_size_arg chunk_overlap_arg chunks,
    int_or chunk_size_arg (chunk_size st) < len text ->
    chunk_text fuel st text chunk_size_arg chunk_overlap_arg = Some chunks ->
    Forall (fun c => strip c = c) chunks.
Proof.
  intros fuel st text cs co chunks Hlen. unfold chunk_text.
  replace (len text <=? int_or cs (chunk_size st)) with false
    by (symmetry; apply Z.leb_gt; lia).
  apply chunk_loop_trimmed. constructor.
Qed.

Lemma long_text_chunks_are_trimmed_witness :
  Forall (fun c => strip c = c) [py "abcdefgh"; py "ijklmnop"; py "op"].
Proof.
  apply (long_text_chunks_are_trimmed 4 default_settings
           (py "abcdefgh  ijklmnop") (Some 10) (Some 2)).
  - vm_compute; reflexivity.
  - vm_compute; reflexivity.
Defined.

(** X5. For a text that is not empty, [chunk_text] never returns an empty
    list of chunks. *)
Theorem chunk_text_gives_a_chunk :
  forall fuel st text chunk_size_arg chunk_overlap_arg chunks,
    text <> [] ->
    chunk_text fuel st text chunk_size_arg chunk_overlap_arg = Some chunks ->
    chunks <> [].
Proof.
  intros fuel st text cs co chunks Hne H.
  destruct text as [|c text]; [contradiction|].
  unfold chunk_text in H. destruct (_ <=? _).
  - now injection H as <-.
  - destruct fuel as [|fuel]; [discriminate|].
    rewrite chunk_loop_step in H by (unfold len; simpl; lia).
    eapply chunk_loop_keeps; [|exact H]. discriminate.
Qed.

Lemma chunk_text_gives_a_chunk_witness : [py " a"] <> [].
Proof.
  apply (chunk_text_gives_a_chunk 0 default_settings (py " a") (Some 10)
           (Some 2)).
  - discriminate.
  - reflexivity.
Defined.

Lemma chunk_end_progress text size start :
  0 <= start -> 2 <= size -> start + 2 <= chunk_end text size start.
Proof.
  intros Hstart Hsize. unfold chunk_end.
  destruct (start + size <? len text); [|lia].
  destruct (Z.max _ _ >? start) eqn:E; [|lia].
  apply Z.gtb_lt in E. lia.
Qed.

Lemma chunk_loop_small_overlap fuel text size overlap start chunks :
  2 <= size ->
  overlap <= 1 ->
  0 <= start ->
  (Z.to_nat (len text - start) < fuel)%nat ->
  exists r, chunk_loop fuel text size overlap start chunks = Some r.
Proof.
  intros Hsize Hov. revert start chunks.
  induction fuel as [|fuel IH]; intros start chunks Hstart Hfuel; [lia|].
  simpl. destruct (start <? len text) eqn:E; [|eauto].
  apply Z.ltb_lt in E.
  pose proof (chunk_end_progress text size start Hstart Hsize).
  apply IH; lia.
Qed.

(** X6. With an effective overlap of at most 1 and an effective chunk size
    of at least 2, the chunker terminates on every text: each iteration
    moves [start] forward, and a fuel of one more than the length of the
    text gives a result. *)
Theorem chunk_text_terminates_with_small_overlap :
  forall st text chunk_size_arg chunk_overlap_arg,
    2 <= int_or chunk_size_arg (chunk_size st) ->
    int_or chunk_overlap_arg (chunk_overlap st) <= 1 ->
    exists chunks,
      chunk_text (S (length text)) st text chunk_size_arg chunk_overlap_arg
      = Some chunks.
Proof.
  intros st text cs co Hsize Hov. unfold chunk_text.
  destruct (len text <=? int_or cs (chunk_size st)); [eauto|].
  apply chunk_loop_small_overlap; try assumption; [lia|].
  unfold len. lia.
Qed.

Lemma chunk_text_terminates_with_small_overlap_witness :
  exists chunks,
    chunk_text 18 default_settings stall_text (Some 10) (Some 1) = Some chunks.
Proof.
  apply (chunk_text_terminates_with_small_overlap default_settings stall_text
           (Some 10) (Some 1)).
  - vm_compute; discriminate.
  - vm_compute; discriminate.
Defined.

End ChunkerMore.

(** ** When the chunker hangs *)

Section ChunkerStall.

Implicit Types (text pre post : pystr).

Lemma len_app {A} (l1 l2 : list A) : len (l1 ++ l2) = len l1 + len l2.
Proof. unfold len. rewrite length_app. lia. Qed.

Lemma len_cons {A} (x : A) (l : list A) : len (x :: l) = 1 + len l.
Proof. unfold len. simpl length. lia. Qed.

Lemma rfind_scan_app s1 s2 c i a b acc :
  rfind_scan (s1 ++ s2) c i a b acc
  = rfind_scan s2 c (i + len s1) a b (rfind_scan s1 c i a b acc).
Proof.
  revert i acc. induction s1 as [|x s1 IH]; intros i acc; simpl.
  - f_equal. unfold len. simpl. lia.
  - rewrite IH. f_equal. rewrite len_cons. lia.
Qed.

Lemma boundary_free_not c text :
  c = DOT \/ c = NL -> boundary_free text -> Forall (fun x => x <> c) text.
Proof.
  intros Hc H. eapply List.Forall_impl; [|exact H].
  simpl. intros x [Hd Hn]. now destruct Hc as [->| ->].
Qed.

(** [rfind] for the only boundary of a text. *)
Lemma rfind_only_boundary pre c post i j :
  boundary_free pre -> boundary_free post -> c = DOT \/ c = NL ->
  rfind (pre ++ c :: post) c i j
  = if (norm_index (len (pre ++ c :: post)) i <=? len pre)
       && (len pre <? norm_index (len (pre ++ c :: post)) j)
    then len pre else -1.
Proof.
  intros Hpre Hpost Hc. unfold rfind.
  rewrite rfind_scan_app.
  rewrite (rfind_scan_absent pre) by now apply boundary_free_not.
  simpl rfind_scan.
  rewrite (rfind_scan_absent post) by now apply boundary_free_not.
  now rewrite N.eqb_refl, andb_true_r.
Qed.

Lemma rfind_other_boundary pre c c' post i j :
  boundary_free pre -> boundary_free post ->
  c' = DOT \/ c' = NL -> c <> c' ->
  rfind (pre ++ c :: post) c' i j = -1.
Proof.
  intros Hpre Hpost Hc' Hne. unfold rfind.
  apply rfind_scan_absent.
  apply Forall_app. split; [now apply boundary_free_not|].
  constructor; [exact Hne|now apply boundary_free_not].
Qed.

(** A window that holds the only boundary behind its start, and does not
    reach the end of the text, ends just after that boundary. *)
Lemma chunk_end_only_boundary pre c post size start :
  boundary_free pre -> boundary_free post -> c = DOT \/ c = NL ->
  0 <= start < len pre ->
  len pre < start + size ->
  start + size < len (pre ++ c :: post) ->
  chunk_end (pre ++ c :: post) size start = len pre + 1.
Proof.
  intros Hpre Hpost Hc Hstart Hin Hend.
  assert (Hmax : Z.max (rfind (pre ++ c :: post) DOT start (start + size))
                   (rfind (pre ++ c :: post) NL start (start + size))
                 = len pre).
  { assert (Hfound : rfind (pre ++ c :: post) c start (start + size) = len pre).
    { rewrite rfind_only_boundary by assumption.
      unfold norm_index at 1 2.
      replace (start <? 0) with false by (symmetry; apply Z.ltb_ge; lia).
      replace (start + size <? 0) with false by (symmetry; apply Z.ltb_ge; lia).
      replace (Z.min start _ <=? len pre) with true
        by (symmetry; apply Z.leb_le; lia).
      replace (len pre <? Z.min (start + size) _) with true
        by (symmetry; apply Z.ltb_lt; lia).
      reflexivity. }
    assert (Hlen : 0 <= len pre) by (unfold len; lia).
    destruct Hc as [->| ->].
    - rewrite Hfound.
      rewrite (rfind_other_boundary pre DOT NL post) by (auto; discriminate).
      lia.
    - rewrite Hfound.
      rewrite (rfind_other_boundary pre NL DOT post) by (auto; discriminate).
      lia. }
  unfold chunk_end.
  replace (start + size <? len (pre ++ c :: post)) with true
    by (symmetry; apply Z.ltb_lt; lia).
  rewrite Hmax.
  replace (len pre >? start) with true
    by (symmetry; apply Z.gtb_lt; lia).
  reflexivity.
Qed.

(** X7. The chunker hangs after the last sentence boundary of a text when
    the overlap reaches back over it: if the text has a single boundary
    (a full stop or a line break) at index [b], inside the first window,
    the overlap [O] satisfies [2 <= O <= b + 1], and the window that starts
    at [b + 1 - O] does not reach the end of the text, then that window
    ends at [b + 1] again and again and [chunk_text] never returns. *)
Theorem chunk_text_hangs_after_last_boundary :
  forall fuel st pre c post size overlap,
    boundary_free pre -> boundary_free post -> c = DOT \/ c = NL ->
    2 <= overlap <= len pre + 1 ->
    len pre < size ->
    len pre + 1 - overlap + size < len (pre ++ c :: post) ->
    chunk_text fuel st (pre ++ c :: post) (Some size) (Some overlap) = None.
Proof.
  intros fuel st pre c post size overlap Hpre Hpost Hc Hov Hsize Hend.
  assert (Hlen : 0 <= len pre) by (unfold len; lia).
  unfold chunk_text, int_or.
  replace (size =? 0) with false by (symmetry; apply Z.eqb_neq; lia).
  replace (overlap =? 0) with false by (symmetry; apply Z.eqb_neq; lia).
  replace (len (pre ++ c :: post) <=? size) with false
    by (symmetry; apply Z.leb_gt; lia).
  destruct fuel as [|fuel]; [reflexivity|].
  rewrite chunk_loop_step by lia.
  rewrite (chunk_end_only_boundary pre c post size 0) by (auto; lia).
  apply chunk_loop_stalls; [lia|].
  rewrite chunk_end_only_boundary by (auto; lia).
  reflexivity.
Qed.

Lemma chunk_text_hangs_after_last_boundary_witness :
  chunk_text 5000 default_settings
    (List.repeat 120%N 300 ++ DOT :: List.repeat 120%N 1700)
    (Some 1000) (Some 200)
  = None.
Proof.
  assert (Hfree : forall n, boundary_free (List.repeat 120%N n)).
  { intros n. unfold boundary_free. apply List.Forall_forall. intros x Hx.
    apply repeat_spec in Hx. subst x. split; discriminate. }
  apply (chunk_text_hangs_after_last_boundary 5000 default_settings
           (List.repeat 120%N 300) DOT (List.repeat 120%N 1700) 1000 200).
  - apply Hfree.
  - apply Hfree.
  - now left.
  - vm_compute. split; discriminate.
  - vm_compute; reflexivity.
  - vm_compute; reflexivity.
Defined.

End ChunkerStall.

(** ** More on extraction and [process_document] *)

Section ExtractionMore.

Variable env : Env.

Implicit Types (s : state env) (doc : doc_data).

Lemma yields_frame {A} (m : M env A) r s :
  yields m r ->
  exists s',
    m s = (r, s')
    /\ st_collection s' = st_collection s
    /\ st_heap s' = st_heap s
    /\ add_documents_calls (new_events s s') = []
    /\ ocr_invoked (new_events s s') = false.
Proof.
  intros (evs & Hlogs & Hrun). exists (add_events env s evs).
  split; [apply Hrun|]. split; [reflexivity|]. split; [reflexivity|].
  rewrite new_events_add.
  split; [now apply add_documents_calls_logs|now apply ocr_invoked_logs].
Qed.

Lemma pdf_page_loop_text pages page_num text :
  yields (pdf_page_loop env pages page_num text)
    (Return (text ++ pdf_text pages page_num)).
Proof.
  revert page_num text.
  induction pages as [|page pages IH]; intros page_num text; simpl.
  - rewrite app_nil_r. apply yields_ret.
  - destruct page as [page_text|e].
    + eapply yields_bind.
      * apply yields_try_return.
        eapply yields_bind; [apply (yields_call env (Ok page_text))|].
        apply yields_ret.
      * specialize (IH (S page_num) (text ++ page_marker page_num ++ page_text)).
        now rewrite <- !app_assoc in IH.
    + eapply yields_bind; [|apply IH].
      eapply yields_try_raise.
      * apply yields_bind_raise. apply (yields_call env (Fails e)).
      * apply yields_log_then. apply yields_ret.
Qed.

(** X8. When [PdfReader] opens the file, [extract_text_from_pdf] returns
    the text of every page that could be read, each under the marker with
    its own page number; a page whose extraction raises is left out and
    does not shift the numbers of the pages after it.  Nothing but logging
    happens. *)
Theorem extract_text_from_pdf_skips_bad_pages :
  forall file_path pages s,
    pdf_pages (fs_file (fs env) file_path) = Ok pages ->
    exists s',
      extract_text_from_pdf env file_path s = (Return (pdf_text pages 1), s')
      /\ st_collection s' = st_collection s
      /\ st_heap s' = st_heap s.
Proof.
  intros file_path pages s Hpages.
  assert (Hy : yields (extract_text_from_pdf env file_path)
                 (Return (pdf_text pages 1))).
  { unfold extract_text_from_pdf. rewrite Hpages.
    apply yields_try_return.
    eapply yields_bind; [apply (yields_call env (Ok pages))|].
    eapply yields_bind; [apply (pdf_page_loop_text pages 1 [])|].
    apply yields_log_then. apply yields_ret. }
  destruct (yields_frame _ _ s Hy) as (s' & Hrun & Hc & Hh & _).
  now exists s'.
Qed.

(** The shape of the dict that [process_document] returns. *)
Lemma process_document_shape fuel file_path :
  exists r,
    yields (process_document env fuel file_path) r
    /\ match r with
       | Return doc =>
           dd_file_name doc = path_name file_path
           /\ ((dd_text doc = [] /\ dd_chunks doc = [] /\ dd_metadata doc = ∅)
               \/ (dd_text doc <> [] /\ dd_chunks doc <> []
                   /\ chunk_text fuel (settings env) (dd_text doc) None None
                      = Some (dd_chunks doc)
                   /\ dd_metadata doc !! py "num_chunks"
                      = Some (VInt (len (dd_chunks doc)))
                   /\ dd_metadata doc !! py "text_length"
                      = Some (VInt (len (dd_text doc)))))
       | _ => True
       end.
Proof.
  unfold process_document.
  destruct (extract_text_yields env file_path) as (text & Hx & _).
  destruct text as [|c text].
  - eexists. split.
    + apply yields_log_then. eapply yields_bind; [exact Hx|].
      apply yields_log_then. apply yields_ret.
    + split; [reflexivity|]. left. now repeat split.
  - pose proof (chunk_text_method_yields env fuel (c :: text) None None) as Hc.
    destruct (chunk_text fuel (settings env) (c :: text) None None)
      as [chunks|] eqn:E.
    + destruct (stat_size (fs_file (fs env) file_path)) as [st_size|e] eqn:Es.
      * eexists. split.
        -- apply yields_log_then. eapply yields_bind; [exact Hx|].
           eapply yields_bind; [exact Hc|].
           eapply yields_bind; [apply (yields_call env (Ok st_size))|].
           apply yields_log_then. apply yields_ret.
        -- split; [reflexivity|]. right. cbn [dd_text dd_chunks dd_metadata].
           split; [discriminate|].
           split; [now apply chunk_text_nonempty in E|].
           split; [exact E|].
           split; [now rewrite lookup_insert_ne, lookup_insert_eq by discriminate
                  |now rewrite lookup_insert_eq].
      * exists (Raise e). split; [|exact I].
        apply yields_log_then. eapply yields_bind; [exact Hx|].
        eapply yields_bind; [exact Hc|].
        apply yields_bind_raise. apply (yields_call env (Fails e)).
    + exists NoFuel. split; [|exact I].
      apply yields_log_then. eapply yields_bind; [exact Hx|].
      now apply yields_bind_no_fuel.
Qed.

(** X9. [process_document] only logs: it leaves the collection and every
    dict object as they were and never calls [add_documents].  In the dict
    it returns, [chunks] is empty exactly when [text] is empty (and then
    [metadata] is the empty dict); otherwise [chunks] is what [chunk_text]
    gives for [text], and [metadata] records their number under
    [num_chunks] and the length of [text] under [text_length]. *)
Theorem process_document_consistent :
  forall fuel file_path s doc s',
    process_document env fuel file_path s = (Return doc, s') ->
    st_collection s' = st_collection s
    /\ st_heap s' = st_heap s
    /\ add_documents_calls (new_events s s') = []
    /\ ((dd_text doc = [] /\ dd_chunks doc = [] /\ dd_metadata doc = ∅)
        \/ (dd_text doc <> [] /\ dd_chunks doc <> []
            /\ chunk_text fuel (settings env) (dd_text doc) None None
               = Some (dd_chunks doc)
            /\ dd_metadata doc !! py "num_chunks"
               = Some (VInt (len (dd_chunks doc)))
            /\ dd_metadata doc !! py "text_length"
               = Some (VInt (len (dd_text doc))))).
Proof.
  intros fuel file_path s doc s' Hrun.
  destruct (process_document_shape fuel file_path) as (r & Hy & Hshape).
  destruct (yields_frame _ _ s Hy) as (s1 & Hrun1 & Hc & Hh & Hcalls & _).
  rewrite Hrun in Hrun1. injection Hrun1 as <- <-.
  destruct Hshape as [_ Hshape].
  now repeat split.
Qed.

End ExtractionMore.

Lemma extract_text_from_pdf_skips_bad_pages_witness :
  exists s',
    extract_text_from_pdf more_env mixed_pdf (more_state ∅)
    = (Return (page_marker 1 ++ py "one" ++ page_marker 3 ++ py "three"), s')
    /\ st_collection s' = st_collection (more_state ∅)
    /\ st_heap s' = st_heap (more_state ∅).
Proof.
  apply (extract_text_from_pdf_skips_bad_pages more_env mixed_pdf
           [Ok (py "one"); Fails (Exception (py "bad page")); Ok (py "three")]
           (more_state ∅)).
  reflexivity.
Defined.

Lemma process_document_consistent_witness :
  process_document example_env 1 a_txt (example_state ∅)
  = (Return a_txt_doc,
     snd (process_document example_env 1 a_txt (example_state ∅)))
  /\ st_collection (snd (process_document example_env 1 a_txt (example_state ∅)))
     = st_collection (example_state ∅)
  /\ st_heap (snd (process_document example_env 1 a_txt (example_state ∅)))
     = st_heap (example_state ∅)
  /\ add_documents_calls
       (new_events (example_state ∅)
          (snd (process_document example_env 1 a_txt (example_state ∅))))
     = []
  /\ ((dd_text a_txt_doc = [] /\ dd_chunks a_txt_doc = []
       /\ dd_metadata a_txt_doc = ∅)
      \/ (dd_text a_txt_doc <> [] /\ dd_chunks a_txt_doc <> []
          /\ chunk_text 1 (settings example_env) (dd_text a_txt_doc) None None
             = Some (dd_chunks a_txt_doc)
          /\ dd_metadata a_txt_doc !! py "num_chunks"
             = Some (VInt (len (dd_chunks a_txt_doc)))
          /\ dd_metadata a_txt_doc !! py "text_length"
             = Some (VInt (len (dd_text a_txt_doc))))).
Proof.
  split; [vm_compute; reflexivity|].
  apply (process_document_consistent example_env 1 a_txt (example_state ∅)
           a_txt_doc).
  vm_compute; reflexivity.
Defined.

(** ** More on [ingest_file] and [add_documents] *)

Section IngestFileMore.

Variable env : Env.

Implicit Types (s : state env) (doc : doc_data).

Lemma uint_codes_inj d d' : uint_codes d = uint_codes d' -> d = d'.
Proof.
  revert d'. induction d as [|d IH|d IH|d IH|d IH|d IH|d IH|d IH|d IH|d IH|d IH];
    intros [|d'|d'|d'|d'|d'|d'|d'|d'|d'|d'] H; simpl in H;
    try discriminate H; try reflexivity;
    injection H as H; f_equal; now apply IH.
Qed.

Lemma str_of_nat_inj i j : str_of_nat i = str_of_nat j -> i = j.
Proof.
  unfold str_of_nat. intros H. apply uint_codes_inj in H.
  rewrite <- (Unsigned.of_to i), <- (Unsigned.of_to j). now rewrite H.
Qed.

Lemma NoDup_map_seq {A} (f : nat -> A) n :
  (forall i j, f i = f j -> i = j) -> NoDup (List.map f (seq 0 n)).
Proof.
  intros Hinj.
  change (List.map f (seq 0 n)) with (f <$> seq 0 n).
  apply NoDup_fmap_2; [exact Hinj|apply NoDup_seq].
Qed.

(** X10. For a document with chunks, [ingest_file] calls [add_documents]
    exactly once, with three lists of the same length: the chunks, their
    metadata and their identifiers.  The metadata at position [i] holds
    [chunk_index = i] and [source_file] = the file name.  [ingest_file]
    then returns the number of chunks, unless the embedding model or the
    collection raises. *)
Theorem ingest_file_submits_parallel_lists :
  forall fuel file_path metadata s doc,
    fst (process_document env fuel file_path s) = Return doc ->
    dd_chunks doc <> [] ->
    exists metadatas ids,
      add_documents_calls
        (new_events s (snd (ingest_file env fuel file_path metadata s)))
      = [(dd_chunks doc, Some metadatas, Some ids)]
      /\ length metadatas = length (dd_chunks doc)
      /\ length ids = length (dd_chunks doc)
      /\ (forall i (md : dict),
             metadatas !! i = Some md ->
             md !! py "chunk_index" = Some (VInt (Z.of_nat i))
             /\ md !! py "source_file" = Some (VStr (path_name file_path)))
      /\ (fst (ingest_file env fuel file_path metadata s)
          = Return (len (dd_chunks doc))
          \/ exists e, fst (ingest_file env fuel file_path metadata s) = Raise e).
Proof.
  intros fuel file_path metadata s doc Hpd Hne.
  rewrite ingest_file_calls, Hpd.
  destruct (ingest_file_indexing env fuel file_path metadata s doc Hpd Hne)
    as (r & s' & _ & _ & Hrun & _ & _ & _ & _ & Hr).
  rewrite Hrun. cbn [fst].
  destruct (dd_chunks doc) as [|c chunks] eqn:Hchunks; [contradiction|].
  eexists _, _. split; [reflexivity|].
  split; [now rewrite length_map, length_seq|].
  split; [now rewrite length_map, length_seq|].
  split; [|exact Hr].
  intros i md Hmd.
  change (List.map ?f ?l) with (f <$> l) in Hmd.
  apply list_lookup_fmap_Some in Hmd as (k & -> & Hk).
  apply lookup_seq in Hk as [-> _]. cbn [Nat.add].
  unfold chunk_metadata. split; [apply lookup_insert_eq|].
  rewrite lookup_insert_ne by discriminate.
  apply lookup_union_Some_l.
  destruct (process_document_yields env fuel file_path) as (r0 & Hy & Hshape).
  rewrite (yields_fst env _ r0 s Hy) in Hpd. subst r0.
  unfold pipeline_metadata.
  apply lookup_union_Some_raw. right.
  split; [|now rewrite lookup_insert_ne, lookup_insert_eq by discriminate].
  destruct Hshape as [(_ & _ & ->)|(_ & st_size & _ & ->)];
    [apply lookup_empty|].
  now rewrite !lookup_insert_ne by discriminate.
Qed.

(** X11. The identifiers that one [ingest_file] hands to the index are
    pairwise distinct. *)
Theorem ingest_file_ids_distinct :
  forall fuel file_path metadata s,
    Forall
      (fun ids => match ids with
                  | Some ids => NoDup ids
                  | None => False
                  end)
      (submitted_ids
         (new_events s (snd (ingest_file env fuel file_path metadata s)))).
Proof.
  intros fuel file_path metadata s.
  unfold submitted_ids. rewrite ingest_file_calls.
  destruct (fst (process_document env fuel file_path s)) as [doc|e|];
    try constructor.
  destruct (dd_chunks doc) as [|c chunks]; [constructor|].
  constructor; [|constructor]. cbn [snd].
  apply NoDup_map_seq. intros i j H. unfold chunk_id in H.
  apply app_inv_head in H. apply app_inv_head in H.
  now apply str_of_nat_inj.
Qed.

(** X12. When the caller passes no metadata, or an empty dict,
    [ingest_file] changes none of the dict objects that exist before the
    call, whatever the document and whether or not indexing succeeds. *)
Theorem ingest_file_without_metadata_keeps_dicts :
  forall fuel file_path metadata s l (d : dict),
    caller_dict (st_heap s) metadata = ∅ ->
    st_heap s !! l = Some d ->
    st_heap (snd (ingest_file env fuel file_path metadata s)) !! l = Some d.
Proof.
  intros fuel file_path metadata s l d Hempty Hl.
  destruct (fst (process_document env fuel file_path s)) as [doc|e|] eqn:Hpd.
  - destruct (dd_chunks doc) as [|c chunks] eqn:Hchunks.
    + destruct (ingest_file_skips env fuel file_path metadata s doc Hpd Hchunks)
        as (evs & _ & Hrun).
      now rewrite Hrun.
    + destruct (ingest_file_indexing env fuel file_path metadata s doc Hpd)
        as (r & s' & _ & _ & Hrun & _ & _ & _ & Hheap & _); [congruence|].
      rewrite Hrun. cbn [snd]. rewrite Hheap.
      assert (Hfresh : base_loc (st_heap s) metadata = fresh (dom (st_heap s))).
      { unfold base_loc, caller_dict in *. destruct metadata as [l0|];
          [|reflexivity].
        now destruct (decide (default ∅ (st_heap s !! l0) = ∅)). }
      rewrite Hfresh. rewrite lookup_insert_ne; [exact Hl|].
      intros Heq. pose proof (is_fresh (dom (st_heap s))) as Hnot.
      apply Hnot. rewrite Heq. apply elem_of_dom. eauto.
  - destruct (ingest_file_propagates env fuel file_path metadata s)
      as (r & evs & _ & Hrun); [intros doc; rewrite Hpd; discriminate|].
    now rewrite Hrun.
  - destruct (ingest_file_propagates env fuel file_path metadata s)
      as (r & evs & _ & Hrun); [intros doc; rewrite Hpd; discriminate|].
    now rewrite Hrun.
Qed.

(** X13. [add_documents] does not touch the collection when there is
    nothing to add or when the embedding model fails: with no chunks it
    returns 0, and when [encode] raises it raises the same exception, the
    collection being in both cases as before. *)
Theorem add_documents_leaves_collection :
  forall chunks metadatas ids s,
    (chunks = []
     \/ exists e, embedding_model_encode env chunks = Fails e) ->
    st_collection (snd (add_documents env chunks metadatas ids s))
    = st_collection s
    /\ fst (add_documents env chunks metadatas ids s)
       = match chunks with
         | [] => Return 0
         | _ => match embedding_model_encode env chunks with
                | Fails e => Raise e
                | Ok _ => Return (len chunks)
                end
         end.
Proof.
  intros chunks metadatas ids s H. unfold add_documents.
  destruct chunks as [|c chunks].
  - split; reflexivity.
  - destruct H as [H|[e He]]; [discriminate|].
    unfold bind, emit, ret, generate_embeddings, log, emit, call, raise,
      collection_count_call, bind, ret.
    rewrite He.
    destruct ids; split; reflexivity.
Qed.

End IngestFileMore.

Lemma ingest_file_submits_parallel_lists_witness :
  exists metadatas ids,
    add_documents_calls
      (new_events (example_state ∅)
         (snd (ingest_file example_env 1 a_txt None (example_state ∅))))
    = [(dd_chunks a_txt_doc, Some metadatas, Some ids)]
    /\ length metadatas = length (dd_chunks a_txt_doc)
    /\ length ids = length (dd_chunks a_txt_doc)
    /\ (forall i (md : dict),
           metadatas !! i = Some md ->
           md !! py "chunk_index" = Some (VInt (Z.of_nat i))
           /\ md !! py "source_file" = Some (VStr (path_name a_txt)))
    /\ (fst (ingest_file example_env 1 a_txt None (example_state ∅))
        = Return (len (dd_chunks a_txt_doc))
        \/ exists e,
             fst (ingest_file example_env 1 a_txt None (example_state ∅))
             = Raise e).
Proof.
  apply (ingest_file_submits_parallel_lists example_env 1 a_txt None
           (example_state ∅) a_txt_doc).
  - vm_compute; reflexivity.
  - discriminate.
Defined.

Lemma ingest_file_without_metadata_keeps_dicts_witness :
  st_heap
    (snd (ingest_file example_env 1 a_txt None
            (example_state {[ 5%nat := {[ py "title" := VStr (py "RFP") ]} ]})))
    !! 5%nat
  = Some {[ py "title" := VStr (py "RFP") ]}.
Proof.
  apply (ingest_file_without_metadata_keeps_dicts example_env 1 a_txt None
           (example_state {[ 5%nat := {[ py "title" := VStr (py "RFP") ]} ]})
           5%nat {[ py "title" := VStr (py "RFP") ]}).
  - reflexivity.
  - vm_compute; reflexivity.
Defined.

Lemma add_documents_leaves_collection_witness :
  st_collection
    (snd (add_documents example_env [] None None (example_state ∅)))
  = st_collection (example_state ∅)
  /\ fst (add_documents example_env [] None None (example_state ∅)) = Return 0.
Proof.
  apply (add_documents_leaves_collection example_env [] None None
           (example_state ∅)).
  now left.
Defined.

(** ** More on [ingest_directory] *)

Section IngestDirectoryMore.

Variable env : Env.

Implicit Types (s : state env).





End IngestDirectoryMore.


(** ** The OCR processor *)

Section OCRMore.

Variable env : Env.
Variable image_ocr : Path -> ext pystr.

Implicit Types (s : state env) (doc : doc_data).

Lemma ocr_page_loop_result images page_num total text :
  match recognised images with
  | Some texts =>
      yields (ocr_page_loop env images page_num total text)
        (Return (text ++ ocr_text texts page_num))
  | None => exists e, yields (ocr_page_loop env images page_num total text) (Raise e)
  end.
Proof.
  revert page_num text.
  induction images as [|image images IH]; intros page_num text; simpl.
  - rewrite app_nil_r. apply yields_ret.
  - destruct image as [page_text|e].
    + specialize (IH (S page_num) (text ++ ocr_page_marker page_num ++ page_text)).
      destruct (recognised images) as [texts|].
      * apply yields_log_then.
        eapply yields_bind; [apply (yields_call env (Ok page_text))|].
        simpl ocr_text. now rewrite <- !app_assoc in IH.
      * destruct IH as [e IH]. exists e.
        apply yields_log_then.
        eapply yields_bind; [apply (yields_call env (Ok page_text))|].
        exact IH.
    + exists e. apply yields_log_then.
      apply yields_bind_raise. apply (yields_call env (Fails e)).
Qed.

Lemma extract_text_with_ocr_result file_path :
  exists evs,
    runs (_extract_text_with_ocr env file_path)
      (Return (ocr_result (fs_file (fs env) file_path)))
      (Called_extract_text_with_ocr file_path :: evs).
Proof.
  unfold _extract_text_with_ocr, ocr_result.
  assert (Htry : forall m : M env pystr,
            (exists e, yields m (Raise e)) ->
            yields
              (try_except env m
                 (fun e =>
                    bind (log env ERROR "Error during OCR processing {}: {}"
                            [VStr (path_str file_path); VStr (exn_str e)])
                      (fun _ =>
                         bind (log env ERROR
                                 "Make sure tesseract-ocr is installed: sudo apt-get install tesseract-ocr"
                                 [])
                           (fun _ =>
                              bind (log env ERROR
                                      "And poppler-utils: sudo apt-get install poppler-utils"
                                      [])
                                (fun _ => ret [])))))
              (Return [])).
  { intros m [e Hm]. eapply yields_try_raise; [exact Hm|].
    do 3 apply yields_log_then. apply yields_ret. }
  assert (Hy : exists evs, Forall is_log evs /\ runs
            (try_except env
               (bind (log env INFO "Converting PDF to images for OCR: {}"
                        [VStr (path_name file_path)])
                  (fun _ =>
                     bind (call env (ocr_pages (fs_file (fs env) file_path)))
                       (fun images =>
                          bind (ocr_page_loop env images 1 (length images) [])
                            (fun text =>
                               bind (log env INFO
                                       "OCR extracted {} characters from {}"
                                       [VInt (len text);
                                        VStr (path_name file_path)])
                                 (fun _ => ret text)))))
               (fun e =>
                  bind (log env ERROR "Error during OCR processing {}: {}"
                          [VStr (path_str file_path); VStr (exn_str e)])
                    (fun _ =>
                       bind (log env ERROR
                               "Make sure tesseract-ocr is installed: sudo apt-get install tesseract-ocr"
                               [])
                         (fun _ =>
                            bind (log env ERROR
                                    "And poppler-utils: sudo apt-get install poppler-utils"
                                    [])
                              (fun _ => ret [])))))
            (Return
               match ocr_pages (fs_file (fs env) file_path) with
               | Ok images =>
                   match recognised images with
                   | Some texts => ocr_text texts 1
                   | None => []
                   end
               | Fails _ => []
               end) evs).
  { destruct (ocr_pages (fs_file (fs env) file_path)) as [images|e].
    - pose proof (ocr_page_loop_result images 1 (length images) []) as Hloop.
      destruct (recognised images) as [texts|].
      + apply yields_try_return. apply yields_log_then.
        eapply yields_bind; [apply (yields_call env (Ok images))|].
        eapply yields_bind; [exact Hloop|].
        apply yields_log_then. apply yields_ret.
      + apply Htry. destruct Hloop as [e Hloop]. exists e.
        apply yields_log_then.
        eapply yields_bind; [apply (yields_call env (Ok images))|].
        now apply yields_bind_raise.
    - apply Htry. exists e. apply yields_log_then.
      apply yields_bind_raise. apply (yields_call env (Fails e)). }
  destruct Hy as (evs & _ & Hrun). exists evs.
  change (Called_extract_text_with_ocr file_path :: evs)
    with ([Called_extract_text_with_ocr file_path] ++ evs).
  eapply runs_bind; [apply runs_emit|exact Hrun].
Qed.

(** X16. [_extract_text_with_ocr] never raises, and its result is all or
    nothing: the text of all pages under their OCR markers when the PDF
    was converted and every page image was recognised, and the empty
    string as soon as the conversion or the recognition of any one page
    fails (the text of the pages recognised before it is dropped).  The
    collection and the dict objects are left alone. *)
Theorem extract_text_with_ocr_all_or_nothing :
  forall file_path s,
    exists s',
      _extract_text_with_ocr env file_path s
      = (Return (ocr_result (fs_file (fs env) file_path)), s')
      /\ st_collection s' = st_collection s
      /\ st_heap s' = st_heap s.
Proof.
  intros file_path s.
  destruct (extract_text_with_ocr_result file_path) as (evs & Hrun).
  eexists. split; [apply Hrun|]. split; reflexivity.
Qed.

(** What [ocr_extract_text_from_pdf] returns, and whether it ran OCR. *)
Lemma ocr_extract_text_from_pdf_result self file_path force_ocr s :
  exists text s',
    ocr_extract_text_from_pdf env self file_path force_ocr s = (Return text, s')
    /\ st_collection s' = st_collection s
    /\ st_heap s' = st_heap s
    /\ (ocr_invoked (new_events s s') = true ->
        text = ocr_result (fs_file (fs env) file_path)).
Proof.
  assert (Hnative : exists text, yields (pdf_native_pass env file_path force_ocr)
                                   (Return text)).
  { destruct force_ocr; [|apply pdf_native_pass_yields].
    exists []. apply yields_ret. }
  destruct Hnative as (text & evs & Hlogs & Hrun).
  unfold ocr_extract_text_from_pdf. unfold bind at 1. rewrite Hrun.
  destruct (force_ocr || use_ocr self && (len (strip text) <? ocr_threshold self)).
  - destruct (extract_text_with_ocr_result file_path) as (evs' & Hocr).
    rewrite bind_log_eq, Hocr.
    eexists _, _. split; [reflexivity|]. split; [reflexivity|].
    split; [reflexivity|]. reflexivity.
  - unfold ret. eexists _, _. split; [reflexivity|]. split; [reflexivity|].
    split; [reflexivity|].
    rewrite new_events_add, (ocr_invoked_logs evs Hlogs). discriminate.
Qed.

Lemma image_suffix_cases suffix :
  In suffix image_suffixes ->
  str_eqb suffix (py ".pdf") = false
  /\ str_eqb suffix (py ".docx") || str_eqb suffix (py ".doc") = false
  /\ str_eqb suffix (py ".txt") = false
  /\ existsb (str_eqb suffix) image_suffixes = true.
Proof.
  unfold image_suffixes. simpl.
  intros [<-|[<-|[<-|[<-|[<-|[]]]]]]; vm_compute; auto.
Qed.

(** X17. [DocumentProcessorWithOCR.extract_text] never raises, whatever
    the kind of the file (images included), whether or not OCR is forced,
    and whatever fails underneath; it leaves the collection and the dict
    objects alone. *)
Theorem ocr_extract_text_never_raises :
  forall self file_path force_ocr s,
    exists text s',
      ocr_extract_text env image_ocr self file_path force_ocr s
      = (Return text, s')
      /\ st_collection s' = st_collection s
      /\ st_heap s' = st_heap s.
Proof.
  intros self file_path force_ocr s. unfold ocr_extract_text.
  destruct (str_eqb _ (py ".pdf")).
  { destruct (ocr_extract_text_from_pdf_result self file_path force_ocr s)
      as (text & s' & H & Hc & Hh & _).
    now exists text, s'. }
  destruct (str_eqb _ (py ".docx") || str_eqb _ (py ".doc")).
  { destruct (extract_text_from_docx_yields env file_path) as (text & Hy & _).
    destruct (yields_frame env _ _ s Hy) as (s' & H & Hc & Hh & _).
    now exists text, s'. }
  destruct (str_eqb _ (py ".txt")).
  { destruct (extract_text_from_txt_yields env file_path) as (text & Hy & _).
    destruct (yields_frame env _ _ s Hy) as (s' & H & Hc & Hh & _).
    now exists text, s'. }
  destruct (existsb _ image_suffixes).
  { assert (Hy : exists text,
              yields (extract_text_from_image env image_ocr file_path)
                (Return text)).
    { unfold extract_text_from_image.
      destruct (image_ocr file_path) as [text|e] eqn:E.
      - exists text. apply yields_try_return. apply yields_log_then.
        eapply yields_bind; [apply (yields_call env (Ok text))|].
        apply yields_log_then. apply yields_ret.
      - exists []. eapply yields_try_raise.
        + apply yields_log_then. apply yields_bind_raise.
          apply (yields_call env (Fails e)).
        + apply yields_log_then. apply yields_ret. }
    destruct Hy as (text & Hy).
    destruct (yields_frame env _ _ s Hy) as (s' & H & Hc & Hh & _).
    now exists text, s'. }
  assert (Hy : yields
                 (bind (log env WARNING "Unsupported file format: {}"
                          [VStr (lower (path_suffix file_path))])
                    (fun _ => ret []))
                 (Return ([] : pystr)))
    by (apply yields_log_then; apply yields_ret).
  destruct (yields_frame env _ _ s Hy) as (s' & H & Hc & Hh & _).
  now exists [], s'.
Qed.

End OCRMore.

Lemma extract_text_with_ocr_all_or_nothing_witness :
  exists s',
    _extract_text_with_ocr more_env mixed_pdf (more_state ∅) = (Return [], s')
    /\ st_collection s' = st_collection (more_state ∅)
    /\ st_heap s' = st_heap (more_state ∅).
Proof.
  apply (extract_text_with_ocr_all_or_nothing more_env mixed_pdf (more_state ∅)).
Defined.

(** ** The [ocr_used] flag *)

Section OCRFlag.

Variable env : Env.
Variable image_ocr : Path -> ext pystr.

Implicit Types (s : state env) (doc : doc_data).

Lemma is_prefix_app sub rest : is_prefix sub (sub ++ rest) = true.
Proof.
  induction sub as [|a sub IH]; simpl; [now destruct rest|].
  now rewrite N.eqb_refl, IH.
Qed.

Lemma contains_unfold sub (t : pystr) :
  contains sub t
  = is_prefix sub t
    || match t with
       | [] => false
       | _ :: t' => contains sub t'
       end.
Proof. now destruct t. Qed.

Lemma contains_app sub before rest :
  contains sub (before ++ sub ++ rest) = true.
Proof.
  induction before as [|b before IH]; simpl.
  - now rewrite contains_unfold, is_prefix_app.
  - rewrite IH. apply orb_true_r.
Qed.

Lemma contains_ocr_text texts page_num :
  texts <> [] -> contains (py "OCR") (ocr_text texts page_num) = true.
Proof.
  destruct texts as [|page_text texts]; [contradiction|]. intros _.
  cbn [ocr_text].
  assert (E : ocr_page_marker page_num ++ page_text
              ++ ocr_text texts (S page_num)
              = ([NL; NL] ++ py "--- Page " ++ str_of_nat page_num ++ py " (")
                ++ py "OCR"
                ++ (py ") ---" ++ [NL; NL] ++ page_text
                    ++ ocr_text texts (S page_num))).
  { unfold ocr_page_marker.
    change (py " (OCR) ---") with (py " (" ++ py "OCR" ++ py ") ---").
    rewrite <- !app_assoc. reflexivity. }
  rewrite E. apply contains_app.
Qed.

Lemma ocr_result_flag file :
  ocr_result file <> [] -> contains (py "OCR") (ocr_result file) = true.
Proof.
  unfold ocr_result.
  destruct (ocr_pages file) as [images|]; [|contradiction].
  destruct (recognised images) as [texts|]; [|contradiction].
  intros H. apply contains_ocr_text. now intros ->.
Qed.

Lemma ocr_extract_text_from_pdf_runs self file_path force_ocr :
  exists text evs,
    runs (ocr_extract_text_from_pdf env self file_path force_ocr)
      (Return text) evs
    /\ (ocr_invoked evs = true ->
        text = ocr_result (fs_file (fs env) file_path)).
Proof.
  assert (Hnative : exists text, yields (pdf_native_pass env file_path force_ocr)
                                   (Return text)).
  { destruct force_ocr; [|apply pdf_native_pass_yields].
    exists []. apply yields_ret. }
  destruct Hnative as (text & evs & Hlogs & Hrun).
  unfold ocr_extract_text_from_pdf.
  destruct (force_ocr || use_ocr self && (len (strip text) <? ocr_threshold self))
    eqn:Hcond.
  - destruct (extract_text_with_ocr_result env file_path) as (evs' & Hocr).
    eexists _, _. split; [|reflexivity].
    eapply runs_bind; [exact Hrun|]. rewrite Hcond.
    eapply runs_bind; [apply runs_log|exact Hocr].
  - exists text, (evs ++ []). split.
    + eapply runs_bind; [exact Hrun|]. rewrite Hcond. apply runs_ret.
    + rewrite app_nil_r, (ocr_invoked_logs evs Hlogs). discriminate.
Qed.

(** The text and the flag in what [ocr_process_document] returns. *)
Lemma ocr_process_document_runs self fuel file_path force_ocr text evs :
  runs (ocr_extract_text env image_ocr self file_path force_ocr)
    (Return text) evs ->
  exists r logs,
    Forall is_log logs
    /\ runs (ocr_process_document env image_ocr self fuel file_path force_ocr)
         r (Log INFO "Processing document: {}" [VStr (path_name file_path)]
            :: evs ++ logs)
    /\ (forall doc, r = Return doc ->
          dd_text doc = text
          /\ (text <> [] ->
              dd_metadata doc !! py "ocr_used"
              = Some (VBool (contains (py "OCR") text)))).
Proof.
  intros Hx. unfold ocr_process_document.
  assert (Hstart : forall (k : pystr -> M env doc_data) r logs,
            runs (k text) r logs ->
            runs (bind (log env INFO "Processing document: {}"
                          [VStr (path_name file_path)])
                    (fun _ =>
                       bind (ocr_extract_text env image_ocr self file_path
                               force_ocr) k))
              r (Log INFO "Processing document: {}"
                   [VStr (path_name file_path)] :: evs ++ logs)).
  { intros k r logs Hk.
    change (?ev :: evs ++ logs) with ([ev] ++ evs ++ logs).
    eapply runs_bind; [apply runs_log|].
    eapply runs_bind; [exact Hx|exact Hk]. }
  destruct text as [|c text].
  - eexists _, _. split; [|split].
    + shelve.
    + apply Hstart. eapply runs_bind; [apply runs_log|apply runs_ret].
    + intros doc [= <-]. split; [reflexivity|]. intros H. now destruct H.
    Unshelve. repeat constructor.
  - destruct (chunk_text_method_yields env fuel (c :: text) None None)
      as (evs_c & Hlogs_c & Hc).
    destruct (chunk_text fuel (settings env) (c :: text) None None)
      as [chunks|].
    + destruct (stat_size (fs_file (fs env) file_path)) as [st_size|e] eqn:Es.
      * exists
          (Return
             {| dd_file_path := path_str file_path;
                dd_file_name := path_name file_path;
                dd_text := c :: text;
                dd_chunks := chunks;
                dd_metadata :=
                  <[py "ocr_used" := VBool (contains (py "OCR") (c :: text))]>
                  (<[py "text_length" := VInt (len (c :: text))]>
                  (<[py "num_chunks" := VInt (len chunks)]>
                  (<[py "file_size" := VInt st_size]>
                  (<[py "file_type" := VStr (path_suffix file_path)]>
                  (<[py "file_name" := VStr (path_name file_path)]> ∅))))) |}),
          (evs_c ++ [] ++ [Log INFO "Processed {}: {} chunks, {} chars"
                             [VStr (path_name file_path); VInt (len chunks);
                              VInt (len (c :: text))]] ++ []).
        split; [|split].
        -- apply Forall_app; split; [exact Hlogs_c|repeat constructor].
        -- apply Hstart. eapply runs_bind; [exact Hc|].
           eapply runs_bind; [apply (runs_call env (Ok st_size))|].
           eapply runs_bind; [apply runs_log|apply runs_ret].
        -- intros doc [= <-]. split; [reflexivity|]. intros _.
           apply lookup_insert_eq.
      * exists (Raise e), (evs_c ++ []). split; [|split].
        -- rewrite app_nil_r. exact Hlogs_c.
        -- apply Hstart. eapply runs_bind; [exact Hc|].
           apply runs_bind_raise. apply (runs_call env (Fails e)).
        -- discriminate.
    + exists NoFuel, evs_c. split; [exact Hlogs_c|]. split; [|discriminate].
      apply Hstart. now apply runs_bind_no_fuel.
Qed.

(** X18. For a PDF on which the OCR pass ran and produced text,
    [process_document] of the OCR processor reports [ocr_used = True]. *)
Theorem ocr_used_after_ocr :
  forall self fuel file_path force_ocr s doc s',
    lower (path_suffix file_path) = py ".pdf" ->
    ocr_process_document env image_ocr self fuel file_path force_ocr s
    = (Return doc, s') ->
    ocr_invoked (new_events s s') = true ->
    dd_text doc <> [] ->
    dd_metadata doc !! py "ocr_used" = Some (VBool true).
Proof.
  intros self fuel file_path force_ocr s doc s' Hpdf Hrun Hocr Htext.
  destruct (ocr_extract_text_from_pdf_runs self file_path force_ocr)
    as (text & evs & Hx & Hres).
  assert (Hx' : runs (ocr_extract_text env image_ocr self file_path force_ocr)
                  (Return text) evs).
  { unfold ocr_extract_text. rewrite Hpdf. exact Hx. }
  destruct (ocr_process_document_runs self fuel file_path force_ocr text evs Hx')
    as (r & logs & Hlogs & Hpd & Hdoc).
  rewrite Hpd in Hrun. injection Hrun as -> <-.
  destruct (Hdoc doc eq_refl) as [Ht Hflag].
  rewrite new_events_add in Hocr.
  change (?ev :: evs ++ logs) with ([ev] ++ evs ++ logs) in Hocr.
  unfold ocr_invoked in Hocr. rewrite !existsb_app in Hocr.
  fold (ocr_invoked evs) in Hocr. fold (ocr_invoked logs) in Hocr.
  rewrite (ocr_invoked_logs logs Hlogs), orb_false_r in Hocr.
  cbn [existsb orb] in Hocr.
  rewrite Ht in Htext. rewrite (Hflag Htext).
  rewrite (Hres Hocr) in Htext |- *.
  now rewrite ocr_result_flag.
Qed.

(** X19. For an image file, whose text always comes from OCR,
    [process_document] of the OCR processor reports [ocr_used = False]
    whenever the recognised text does not itself contain the letters
    [OCR]: the flag only looks for the PDF page markers. *)
Theorem ocr_used_not_set_for_images :
  forall self fuel file_path force_ocr s doc s' text,
    In (lower (path_suffix file_path)) image_suffixes ->
    image_ocr file_path = Ok text ->
    text <> [] ->
    contains (py "OCR") text = false ->
    ocr_process_document env image_ocr self fuel file_path force_ocr s
    = (Return doc, s') ->
    dd_text doc = text
    /\ dd_metadata doc !! py "ocr_used" = Some (VBool false).
Proof.
  intros self fuel file_path force_ocr s doc s' text Hsuffix Himg Hne Hno Hrun.
  destruct (image_suffix_cases _ Hsuffix) as (H1 & H2 & H3 & H4).
  assert (Hx : runs (ocr_extract_text env image_ocr self file_path force_ocr)
                 (Return text)
                 ([Log INFO "Running OCR on image: {}"
                     [VStr (path_name file_path)]]
                  ++ [] ++ [Log INFO "OCR extracted {} characters from {}"
                              [VInt (len text); VStr (path_name file_path)]]
                  ++ [])).
  { unfold ocr_extract_text. rewrite H1, H2, H3, H4.
    unfold extract_text_from_image. rewrite Himg.
    apply runs_try_return.
    eapply runs_bind; [apply runs_log|].
    eapply runs_bind; [apply (runs_call env (Ok text))|].
    eapply runs_bind; [apply runs_log|apply runs_ret]. }
  destruct (ocr_process_document_runs self fuel file_path force_ocr text _ Hx)
    as (r & logs & _ & Hpd & Hdoc).
  rewrite Hpd in Hrun. injection Hrun as -> <-.
  destruct (Hdoc doc eq_refl) as [Ht Hflag].
  split; [exact Ht|]. now rewrite (Hflag Hne), Hno.
Qed.

End OCRFlag.

Lemma ocr_used_after_ocr_witness :
  exists doc,
    fst (ocr_process_document example_env example_image_ocr
           default_ocr_processor 1 scan_pdf true (example_state ∅))
    = Return doc
    /\ dd_metadata doc !! py "ocr_used" = Some (VBool true).
Proof.
  destruct (ocr_process_document example_env example_image_ocr
              default_ocr_processor 1 scan_pdf true (example_state ∅))
    as [[doc| |] s'] eqn:E; try (vm_compute in E; discriminate E).
  exists doc. split; [reflexivity|].
  apply (ocr_used_after_ocr example_env example_image_ocr
           default_ocr_processor 1 scan_pdf true (example_state ∅) doc s').
  - reflexivity.
  - exact E.
  - vm_compute in E. injection E as <- <-. vm_compute; reflexivity.
  - vm_compute in E. injection E as <- <-. discriminate.
Defined.

Lemma ocr_used_not_set_for_images_witness :
  exists doc,
    fst (ocr_process_document more_env example_image_ocr
           default_ocr_processor 1 photo_png false (more_state ∅))
    = Return doc
    /\ dd_text doc = py "Invoice 42"
    /\ dd_metadata doc !! py "ocr_used" = Some (VBool false).
Proof.
  destruct (ocr_process_document more_env example_image_ocr
              default_ocr_processor 1 photo_png false (more_state ∅))
    as [[doc| |] s'] eqn:E; try (vm_compute in E; discriminate E).
  exists doc. split; [reflexivity|].
  apply (ocr_used_not_set_for_images more_env example_image_ocr
           default_ocr_processor 1 photo_png false (more_state ∅) doc s'
           (py "Invoice 42")).
  - vm_compute; auto.
  - reflexivity.
  - discriminate.
  - reflexivity.
  - exact E.
Defined.

(** ** [ingest_sam_data] *)

Section SamData.

Variable env : Env.
Variable json_load : Path -> ext sam_json.

Implicit Types (s : state env) (opp : opportunity).

Lemma submitted_chunks_app evs1 evs2 :
  submitted_chunks (evs1 ++ evs2)
  = submitted_chunks evs1 + submitted_chunks evs2.
Proof.
  unfold submitted_chunks. rewrite add_documents_calls_app, map_app.
  unfold sum_counts. induction (List.map _ (add_documents_calls evs1));
    simpl; [reflexivity|lia].
Qed.

Lemma submitted_chunks_logs evs : Forall is_log evs -> submitted_chunks evs = 0.
Proof.
  intros H. unfold submitted_chunks.
  now rewrite (add_documents_calls_logs evs H).
Qed.

Lemma sam_event_logs all d f evs :
  Forall is_log evs -> Forall (sam_event all d f) evs.
Proof. intros H. eapply List.Forall_impl; [|exact H]. intros ev Hev. now left. Qed.

(** With a reliable model and collection, [add_documents] returns the
    number of chunks. *)
Lemma add_documents_reliable chunks metadatas ids s :
  reliable env ->
  chunks <> [] ->
  exists evs s',
    add_documents env chunks (Some metadatas) (Some ids) s
    = (Return (len chunks), s')
    /\ st_trace s'
       = st_trace s
         ++ Called_add_documents chunks (Some metadatas) (Some ids) :: evs
    /\ Forall is_log evs.
Proof.
  intros [Henc Hadd] Hne. unfold add_documents.
  destruct chunks as [|c chunks]; [contradiction|].
  unfold bind, emit, ret, generate_embeddings, log, emit, call, raise,
    collection_add_call, bind, ret.
  cbn [fst snd].
  destruct (Henc (c :: chunks)) as [embeddings ->].
  cbn [add_events st_trace st_heap st_collection].
  specialize (Hadd (st_collection s) (c :: chunks) embeddings metadatas ids).
  destruct (collection_add env _ _ _ _ _) as [[[]|e] coll];
    [|discriminate Hadd].
  eexists _, _. split; [reflexivity|].
  cbn [add_events st_trace st_heap st_collection].
  split; [rewrite <- !app_assoc; reflexivity|repeat constructor].
Qed.

Lemma truthy_nonempty x t : truthy x = Some t -> t <> [].
Proof. destruct x as [[|c x]|]; simpl; intros [= <-]; discriminate. Qed.

(** No part of the text of a record is empty. *)
Lemma text_parts_nonempty opp d f :
  Forall (fun part => part <> []) (text_parts opp d f).
Proof.
  unfold text_parts.
  apply Forall_app. split; [|apply Forall_app; split].
  - destruct (truthy (opp_title opp)); repeat constructor. discriminate.
  - destruct (if d then truthy (opp_description opp) else None);
      repeat constructor. discriminate.
  - destruct (if f then truthy (opp_fullText opp) else None) as [t|] eqn:E;
      repeat constructor.
    destruct f; [now apply truthy_nonempty in E|discriminate].
Qed.

(** One record. *)
Lemma sam_record_spec fuel all opp d f total s :
  In opp all ->
  exists r s' evs,
    sam_record env fuel opp d f total s = (r, s')
    /\ st_trace s' = st_trace s ++ evs
    /\ Forall (sam_event all d f) evs
    /\ (text_parts opp d f = [] ->
        r = Return total /\ evs = []
        /\ st_collection s' = st_collection s)
    /\ (reliable env ->
        (forall e, r <> Raise e)
        /\ (forall t, r = Return t -> t = total + submitted_chunks evs)).
Proof.
  intros Hin. unfold sam_record.
  destruct (text_parts opp d f) as [|part parts] eqn:Hparts.
  { exists (Return total), s, []. unfold ret.
    split; [reflexivity|]. split; [now rewrite app_nil_r|].
    split; [constructor|]. split; [now repeat split|].
    intros _. split; [discriminate|].
    intros t [= <-]. unfold submitted_chunks, sum_counts. simpl. lia. }
  set (full_text := join [NL; NL] (part :: parts)).
  destruct (chunk_text_method_yields env fuel full_text None None)
    as (evs_c & Hlogs_c & Hc).
  unfold bind at 1. rewrite Hc.
  destruct (chunk_text fuel (settings env) full_text None None)
    as [chunks|] eqn:Hchunks.
  2:{ exists NoFuel, (add_events env s evs_c), evs_c.
      split; [reflexivity|]. split; [reflexivity|].
      split; [now apply sam_event_logs|].
      split; [discriminate|]. intros _. split; discriminate. }
  assert (Hne : chunks <> []).
  { assert (Hfull : full_text <> []).
    { subst full_text. unfold text_parts in Hparts.
      assert (Hpart : part <> []).
      { pose proof (text_parts_nonempty opp d f) as Hall.
        unfold text_parts in Hall. rewrite Hparts in Hall.
        now apply Forall_cons_1 in Hall as [Hall _]. }
      destruct part as [|c0 part]; [contradiction|].
      destruct parts; simpl; discriminate. }
    destruct full_text as [|c0 rest]; [contradiction|].
    now apply chunk_text_nonempty in Hchunks. }
  set (metas := List.map
                  (fun i => <[py "chunk_index" := VInt (Z.of_nat i)]>
                              (sam_metadata opp))
                  (seq 0 (length chunks))).
  assert (Hev : forall evs,
            Forall is_log evs ->
            Forall (sam_event all d f)
              (evs_c
               ++ Called_add_documents chunks (Some metas)
                    (Some (List.map (sam_chunk_id opp) (seq 0 (length chunks))))
               :: evs)).
  { intros evs Hlogs. apply Forall_app. split; [now apply sam_event_logs|].
    constructor; [|now apply sam_event_logs].
    right. exists opp, chunks, metas.
    split; [exact Hin|]. split; [now rewrite Hparts|]. now split. }
  destruct (add_documents_run env chunks metas
              (List.map (sam_chunk_id opp) (seq 0 (length chunks)))
              (add_events env s evs_c) Hne)
    as (r & evs & s' & Hadd & Htr & Hlogs & _ & Hr).
  exists (match r with Return c => Return (total + c) | Raise e => Raise e
                       | NoFuel => NoFuel end),
    s', (evs_c ++ Called_add_documents chunks (Some metas)
                    (Some (List.map (sam_chunk_id opp) (seq 0 (length chunks))))
           :: evs).
  split.
  { unfold bind. fold metas. rewrite Hadd. now destruct Hr as [->|[e ->]]. }
  split; [rewrite Htr; cbn [add_events st_trace]; now rewrite <- app_assoc|].
  split; [now apply Hev|].
  split; [discriminate|].
  intros Hrel.
  destruct (add_documents_reliable chunks metas
              (List.map (sam_chunk_id opp) (seq 0 (length chunks)))
              (add_events env s evs_c) Hrel Hne)
    as (evs' & s'' & Hadd' & _ & _).
  rewrite Hadd in Hadd'. injection Hadd' as -> _.
  split; [discriminate|].
  intros t [= <-].
  rewrite submitted_chunks_app, (submitted_chunks_logs evs_c Hlogs_c).
  change (?ev :: evs) with ([ev] ++ evs).
  rewrite submitted_chunks_app, (submitted_chunks_logs evs Hlogs).
  unfold submitted_chunks, sum_counts. simpl. lia.
Qed.

(** The loop over the records. *)
Lemma sam_loop_spec fuel all opps d f total s :
  (forall opp, In opp opps -> In opp all) ->
  exists r s' evs,
    sam_loop env fuel opps d f total s = (r, s')
    /\ st_trace s' = st_trace s ++ evs
    /\ Forall (sam_event all d f) evs
    /\ (forall e, r <> Raise e)
    /\ (Forall (fun opp => text_parts opp d f = []) opps ->
        r = Return total /\ evs = []
        /\ st_collection s' = st_collection s)
    /\ (reliable env ->
        forall t, r = Return t -> t = total + submitted_chunks evs).
Proof.
  revert total s.
  induction opps as [|opp opps IH]; intros total s Hsub.
  { exists (Return total), s, []. unfold ret. simpl.
    split; [reflexivity|]. split; [now rewrite app_nil_r|].
    split; [constructor|]. split; [discriminate|].
    split; [now repeat split|].
    intros _ t [= <-]. unfold submitted_chunks, sum_counts. simpl. lia. }
  destruct (sam_record_spec fuel all opp d f total s)
    as (r1 & s1 & evs1 & Hrec & Htr1 & Hev1 & Hskip1 & Hrel1);
    [apply Hsub; now left|].
  assert (Hsub' : forall o, In o opps -> In o all)
    by (intros o Ho; apply Hsub; now right).
  simpl. unfold bind at 1, try_except. rewrite Hrec.
  destruct r1 as [t1|e1|].
  - destruct (IH t1 s1 Hsub')
      as (r & s' & evs & Hloop & Htr & Hev & Hnr & Hskip & Hrel).
    exists r, s', (evs1 ++ evs). rewrite Hloop.
    split; [reflexivity|].
    split; [rewrite Htr, Htr1; now rewrite app_assoc|].
    split; [now apply Forall_app|]. split; [exact Hnr|].
    split.
    + intros Hall. apply Forall_cons_1 in Hall as [Hopp Hall].
      destruct (Hskip1 Hopp) as ([= ->] & -> & Hc1).
      destruct (Hskip Hall) as (-> & -> & Hc).
      split; [reflexivity|]. split; [reflexivity|]. now rewrite Hc, Hc1.
    + intros Hr t ->. destruct (Hrel1 Hr) as [_ Ht1].
      rewrite submitted_chunks_app, (Hrel Hr t eq_refl), (Ht1 t1 eq_refl). lia.
  - rewrite bind_log_eq. unfold ret.
    destruct (IH total
                (add_events env s1
                   [Log ERROR "Error processing opportunity: {}"
                      [VStr (exn_str e1)]]) Hsub')
      as (r & s' & evs & Hloop & Htr & Hev & Hnr & Hskip & Hrel).
    exists r, s',
      (evs1 ++ [Log ERROR "Error processing opportunity: {}"
                  [VStr (exn_str e1)]] ++ evs).
    rewrite Hloop. split; [reflexivity|].
    split; [rewrite Htr; cbn [add_events st_trace]; rewrite Htr1;
            now rewrite <- !app_assoc|].
    split; [apply Forall_app; split; [exact Hev1|];
            apply Forall_app; split; [|exact Hev];
            constructor; [now left|constructor]|].
    split; [exact Hnr|]. split.
    + intros Hall. apply Forall_cons_1 in Hall as [Hopp _].
      now destruct (Hskip1 Hopp) as ([=] & _).
    + intros Hr. destruct (Hrel1 Hr) as [Hno _]. now destruct (Hno e1).
  - exists NoFuel, s1, evs1. split; [reflexivity|]. split; [exact Htr1|].
    split; [exact Hev1|]. split; [discriminate|]. split.
    + intros Hall. apply Forall_cons_1 in Hall as [Hopp _].
      now destruct (Hskip1 Hopp) as ([=] & _).
    + intros _ t [=].
Qed.

(** The whole of [ingest_sam_data] once the file is loaded. *)
Lemma ingest_sam_data_spec fuel sam_json_file d f s data :
  json_load sam_json_file = Ok data ->
  exists r s' evs,
    ingest_sam_data env json_load fuel sam_json_file d f s = (r, s')
    /\ new_events s s' = evs
    /\ Forall (sam_event (records_of data) d f) evs
    /\ (forall e, r <> Raise e)
    /\ (Forall (fun opp => text_parts opp d f = []) (records_of data) ->
        r = Return 0 /\ add_documents_calls evs = []
        /\ st_collection s' = st_collection s)
    /\ (reliable env -> forall t, r = Return t -> t = submitted_chunks evs).
Proof.
  intros Hload. unfold ingest_sam_data.
  rewrite bind_log_eq. unfold bind at 1, call. rewrite Hload. unfold ret at 1.
  rewrite bind_log_eq, add_events_app. cbn [app].
  set (s0 := add_events env s _).
  destruct (sam_loop_spec fuel (records_of data) (records_of data) d f 0 s0)
    as (r & s1 & evs & Hloop & Htr & Hev & Hnr & Hskip & Hrel); [auto|].
  unfold bind at 1. rewrite Hloop.
  assert (Hs0 : Forall (sam_event (records_of data) d f)
                  [Log INFO "Ingesting SAM.gov data from {}"
                     [VStr (path_name sam_json_file)];
                   Log INFO "Found {} opportunities in JSON"
                     [VInt (len (records_of data))]])
    by (repeat constructor).
  destruct r as [t|e|].
  - rewrite bind_log_eq. unfold ret.
    eexists _, _, _. split; [reflexivity|].
    split; [apply new_events_of_trace; cbn [add_events st_trace];
            rewrite Htr; subst s0; cbn [add_events st_trace];
            rewrite <- !app_assoc; reflexivity|].
    split; [apply Forall_app; split; [exact Hs0|];
            apply Forall_app; split; [exact Hev|now repeat constructor]|].
    split; [discriminate|]. split.
    + intros Hall. destruct (Hskip Hall) as ([= ->] & -> & Hc).
      split; [reflexivity|]. split; [reflexivity|]. exact Hc.
    + intros Hr t' [= <-]. rewrite (Hrel Hr t eq_refl).
      rewrite !submitted_chunks_app.
      rewrite (submitted_chunks_logs [_; _]) by (repeat constructor).
      rewrite (submitted_chunks_logs [_]) by (repeat constructor).
      lia.
  - now destruct (Hnr e).
  - eexists _, _, _. split; [reflexivity|].
    split; [apply new_events_of_trace; rewrite Htr; subst s0;
            cbn [add_events st_trace]; rewrite <- !app_assoc; reflexivity|].
    split; [apply Forall_app; split; [exact Hs0|exact Hev]|].
    split; [discriminate|]. split.
    + intros Hall. now destruct (Hskip Hall) as ([=] & _).
    + intros _ t [=].
Qed.

(** X20. The only exception [ingest_sam_data] raises is the one of
    reading the JSON file: once the file is loaded, whatever goes wrong
    with a record is caught, logged, and the loop goes on. *)
Theorem ingest_sam_data_raises_only_on_load :
  forall fuel sam_json_file include_description include_full_text s e,
    fst (ingest_sam_data env json_load fuel sam_json_file include_description
           include_full_text s) = Raise e
    <-> json_load sam_json_file = Fails e.
Proof.
  intros fuel sam_json_file d f s e.
  destruct (json_load sam_json_file) as [data|e'] eqn:Hload.
  - destruct (ingest_sam_data_spec fuel sam_json_file d f s data Hload)
      as (r & s' & evs & Hrun & _ & _ & Hnr & _).
    rewrite Hrun. cbn [fst]. split; [intros H; now destruct (Hnr e)|discriminate].
  - unfold ingest_sam_data. rewrite bind_log_eq.
    unfold bind at 1, call, raise. rewrite Hload. cbn [fst].
    split; intros [= ->]; reflexivity.
Qed.

(** X21. Records without a title (and without a description or full
    text that is asked for) are skipped: when no record of the file has
    any text, [ingest_sam_data] returns 0 without calling [add_documents]
    and leaves the collection as it was. *)
Theorem ingest_sam_data_skips_empty_records :
  forall fuel sam_json_file include_description include_full_text s data,
    json_load sam_json_file = Ok data ->
    Forall
      (fun opp => text_parts opp include_description include_full_text = [])
      (records_of data) ->
    exists s',
      ingest_sam_data env json_load fuel sam_json_file include_description
        include_full_text s
      = (Return 0, s')
      /\ add_documents_calls (new_events s s') = []
      /\ st_collection s' = st_collection s.
Proof.
  intros fuel sam_json_file d f s data Hload Hall.
  destruct (ingest_sam_data_spec fuel sam_json_file d f s data Hload)
    as (r & s' & evs & Hrun & Hnew & _ & _ & Hskip & _).
  destruct (Hskip Hall) as (-> & Hcalls & Hc).
  exists s'. rewrite Hnew. now repeat split.
Qed.

(** X22. Every identifier list that [ingest_sam_data] hands to the index
    belongs to one record of the file that has text, and is
    ["sam_<noticeId>_chunk_<i>"] for [i = 0 .. n-1], with [unknown] in the
    place of a missing [noticeId]. *)
Theorem ingest_sam_data_ids :
  forall fuel sam_json_file include_description include_full_text s data,
    json_load sam_json_file = Ok data ->
    Forall
      (fun ids =>
         exists opp n,
           In opp (records_of data)
           /\ text_parts opp include_description include_full_text <> []
           /\ ids = Some (List.map
                            (fun i =>
                               py "sam_"
                               ++ default (py "unknown") (opp_noticeId opp)
                               ++ py "_chunk_" ++ str_of_nat i)
                            (seq 0 n)))
      (submitted_ids
         (new_events s
            (snd (ingest_sam_data env json_load fuel sam_json_file
                    include_description include_full_text s)))).
Proof.
  intros fuel sam_json_file d f s data Hload.
  destruct (ingest_sam_data_spec fuel sam_json_file d f s data Hload)
    as (r & s' & evs & Hrun & Hnew & Hev & _).
  rewrite Hrun. cbn [snd]. rewrite Hnew. clear Hrun Hnew.
  unfold submitted_ids.
  induction Hev as [|ev evs Hev _ IH]; [constructor|].
  destruct Hev as [Hlog|(opp & chunks & metas & Hin & Hparts & _ & ->)].
  - destruct ev; simpl in Hlog; try contradiction. exact IH.
  - cbn [add_documents_calls flat_map app List.map snd].
    constructor; [|exact IH].
    exists opp, (length chunks). now repeat split.
Qed.

(** X23. With an embedding model and a collection that do not raise, the
    count that [ingest_sam_data] returns is the total number of chunks it
    handed to [add_documents]. *)
Theorem ingest_sam_data_counts_chunks :
  forall fuel sam_json_file include_description include_full_text s data
         total s',
    reliable env ->
    json_load sam_json_file = Ok data ->
    ingest_sam_data env json_load fuel sam_json_file include_description
      include_full_text s
    = (Return total, s') ->
    total = submitted_chunks (new_events s s').
Proof.
  intros fuel sam_json_file d f s data total s' Hrel Hload Hrun.
  destruct (ingest_sam_data_spec fuel sam_json_file d f s data Hload)
    as (r & s1 & evs & Hrun1 & Hnew & _ & _ & _ & Hcount).
  rewrite Hrun in Hrun1. injection Hrun1 as <- <-.
  rewrite Hnew. now apply Hcount.
Qed.

End SamData.

Lemma ingest_sam_data_raises_only_on_load_witness :
  fst (ingest_sam_data example_env example_json_load 1 missing_json_path true
         false (example_state ∅))
  = Raise (Exception (py "No such file")).
Proof.
  apply (ingest_sam_data_raises_only_on_load example_env example_json_load 1
           missing_json_path true false (example_state ∅)
           (Exception (py "No such file"))).
  reflexivity.
Defined.

Lemma ingest_sam_data_skips_empty_records_witness :
  exists s',
    ingest_sam_data example_env example_json_load 1 untitled_json_path false
      false (example_state ∅)
    = (Return 0, s')
    /\ add_documents_calls (new_events (example_state ∅) s') = []
    /\ st_collection s' = st_collection (example_state ∅).
Proof.
  apply (ingest_sam_data_skips_empty_records example_env example_json_load 1
           untitled_json_path false false (example_state ∅)
           (SamObject untitled_opportunity)).
  - reflexivity.
  - repeat constructor.
Defined.

Lemma ingest_sam_data_ids_witness :
  submitted_ids
    (new_events (example_state ∅)
       (snd (ingest_sam_data example_env example_json_load 1 sam_json_path
               true false (example_state ∅))))
  = [Some [py "sam_N1_chunk_0"]; Some [py "sam_unknown_chunk_0"]]
  /\ Forall
       (fun ids =>
          exists opp n,
            In opp [example_opportunity; untitled_opportunity]
            /\ text_parts opp true false <> []
            /\ ids = Some (List.map
                             (fun i =>
                                py "sam_"
                                ++ default (py "unknown") (opp_noticeId opp)
                                ++ py "_chunk_" ++ str_of_nat i)
                             (seq 0 n)))
       (submitted_ids
          (new_events (example_state ∅)
             (snd (ingest_sam_data example_env example_json_load 1
                     sam_json_path true false (example_state ∅))))).
Proof.
  split; [vm_compute; reflexivity|].
  apply (ingest_sam_data_ids example_env example_json_load 1 sam_json_path
           true false (example_state ∅)
           (SamList [example_opportunity; untitled_opportunity])).
  reflexivity.
Defined.

Lemma ingest_sam_data_counts_chunks_witness :
  2 = submitted_chunks
        (new_events (example_state ∅)
           (snd (ingest_sam_data example_env example_json_load 1 sam_json_path
                   true false (example_state ∅)))).
Proof.
  apply (ingest_sam_data_counts_chunks example_env example_json_load 1
           sam_json_path true false (example_state ∅)
           (SamList [example_opportunity; untitled_opportunity])).
  - split.
    + intros texts. eexists. reflexivity.
    + intros c documents embeddings metadatas ids. reflexivity.
  - reflexivity.
  - vm_compute; reflexivity.
Defined.

(** ** [analyze_rfp_requirements] *)

Section ToolsProperties.

Variable env : Env.
Variable str_lower : pystr -> pystr.

Implicit Types (req : gmap (list N) (list pystr)) (line key : pystr).

Lemma analyze_line_category req line :
  analyze_line req line
  = match category_of line with
    | Some key => append_to key (strip line) req
    | None => req
    end.
Proof.
  unfold analyze_line, category_of.
  repeat match goal with
         | |- context [if ?b then _ else _] => destruct b
         end; reflexivity.
Qed.

Lemma category_of_key line key :
  category_of line = Some key -> key ∈ requirement_keys.
Proof.
  unfold category_of, requirement_keys.
  repeat match goal with
         | |- context [if ?b then _ else _] => destruct b
         end; intros [= <-]; set_solver.
Qed.

(** The dict after the loop over [lines], started with the lists [req]. *)
Lemma fold_analyze_line lines req key l :
  req !! key = Some l ->
  fold_left analyze_line lines req !! key = Some (l ++ filed_under key lines).
Proof.
  revert req l. induction lines as [|line lines IH]; intros req l Hl; simpl.
  - unfold filed_under. simpl. now rewrite app_nil_r.
  - rewrite analyze_line_category. unfold filed_under. simpl.
    destruct (category_of line) as [k|] eqn:Hcat.
    + destruct (decide (k = key)) as [->|Hne].
      * rewrite bool_decide_eq_true_2 by reflexivity. simpl.
        rewrite (IH _ (l ++ [strip line])).
        -- unfold filed_under. now rewrite <- app_assoc.
        -- unfold append_to. rewrite lookup_alter_eq, Hl. reflexivity.
      * rewrite bool_decide_eq_false_2 by congruence.
        apply IH. unfold append_to. now rewrite lookup_alter_ne.
    + rewrite bool_decide_eq_false_2 by discriminate. now apply IH.
Qed.

Lemma fold_analyze_line_dom lines req :
  dom (fold_left analyze_line lines req) = dom req.
Proof.
  revert req. induction lines as [|line lines IH]; intros req; simpl;
    [reflexivity|].
  rewrite IH, analyze_line_category.
  destruct (category_of line); [|reflexivity].
  unfold append_to. apply dom_alter_L.
Qed.

(** X24. [analyze_rfp_requirements] files every line of the lower-cased
    text under at most one category: for each of its six keys the list it
    returns holds exactly the lines whose first matching category (in the
    order technical, budget, timeline, compliance, qualifications, and
    only for lines with an obligation word) is that key, trimmed, in the
    order of the text. *)
Theorem analyze_rfp_requirements_files_lines :
  forall rfp_text (s : state env) key,
    key ∈ requirement_keys ->
    exists requirements s',
      analyze_rfp_requirements env str_lower rfp_text s
      = (Return requirements, s')
      /\ requirements !! key
         = Some (filed_under key (split_on NL (str_lower rfp_text))).
Proof.
  intros rfp_text s key Hkey.
  unfold analyze_rfp_requirements. rewrite bind_log_eq. unfold ret.
  eexists _, _. split; [reflexivity|].
  rewrite (fold_analyze_line _ _ key []); [reflexivity|].
  unfold requirement_keys in Hkey. unfold initial_requirements.
  repeat (apply elem_of_cons in Hkey as [->|Hkey];
          [now rewrite ?lookup_insert_ne, lookup_insert_eq by discriminate|]).
  now apply elem_of_nil in Hkey.
Qed.

(** X25. The dict that [analyze_rfp_requirements] returns always has
    exactly its six keys, and the list under [evaluation_criteria] is
    always empty: no line is ever filed there. *)
Theorem analyze_rfp_requirements_keys :
  forall rfp_text (s : state env),
    exists requirements s',
      analyze_rfp_requirements env str_lower rfp_text s
      = (Return requirements, s')
      /\ dom requirements = list_to_set requirement_keys
      /\ requirements !! py "evaluation_criteria" = Some [].
Proof.
  intros rfp_text s.
  unfold analyze_rfp_requirements. rewrite bind_log_eq. unfold ret.
  eexists _, _. split; [reflexivity|]. split.
  - rewrite fold_analyze_line_dom. unfold initial_requirements.
    rewrite !dom_insert_L, dom_empty_L. unfold requirement_keys. simpl.
    set_solver.
  - rewrite (fold_analyze_line _ _ (py "evaluation_criteria") []);
      [|reflexivity].
    unfold filed_under. simpl. f_equal.
    induction (split_on NL (str_lower rfp_text)) as [|line lines IH];
      [reflexivity|].
    simpl. rewrite bool_decide_eq_false_2; [exact IH|].
    unfold category_of.
    repeat match goal with
           | |- context [if ?b then _ else _] => destruct b
           end; discriminate.
Qed.

End ToolsProperties.

Section ToolsEdge.

Variable env : Env.
Variable str_lower : pystr -> pystr.

Lemma is_prefix_inv sub (t : pystr) :
  is_prefix sub t = true -> exists rest, t = sub ++ rest.
Proof.
  revert t. induction sub as [|a sub IH]; intros t H; [now exists t|].
  destruct t as [|b t]; [discriminate|]. simpl in H.
  apply andb_true_iff in H as [Hab H]. apply N.eqb_eq in Hab as ->.
  destruct (IH t H) as [rest ->]. now exists rest.
Qed.

Lemma contains_inv sub (t : pystr) :
  contains sub t = true -> exists before rest, t = before ++ sub ++ rest.
Proof.
  induction t as [|c t IH]; rewrite contains_unfold; intros H;
    apply orb_true_iff in H as [H|H].
  - destruct (is_prefix_inv _ _ H) as [rest ->]. now exists [], rest.
  - discriminate.
  - destruct (is_prefix_inv _ _ H) as [rest ->]. now exists [], rest.
  - destruct (IH H) as (before & rest & ->). now exists (c :: before), rest.
Qed.

Lemma split_on_first sep (t first : pystr) lines :
  split_on sep t = first :: lines -> exists rest, t = first ++ rest.
Proof.
  revert first lines. induction t as [|c t IH]; intros first lines H;
    simpl in H.
  - injection H as <- <-. now exists [].
  - destruct (c =? sep)%N.
    + injection H as <- <-. now exists (c :: t).
    + destruct (split_on sep t) as [|first' lines'] eqn:E.
      * injection H as <- <-. destruct t; [now exists []|].
        simpl in E. destruct (_ =? _)%N; [discriminate|].
        now destruct (split_on sep t).
      * injection H as <- <-.
        destruct (IH first' lines' eq_refl) as [rest ->]. now exists rest.
Qed.

(** A line of a text is a piece of it. *)
Lemma split_on_piece sep (t line : pystr) :
  In line (split_on sep t) -> exists before rest, t = before ++ line ++ rest.
Proof.
  revert line. induction t as [|c t IH]; intros line Hin; simpl in Hin.
  - destruct Hin as [<-|[]]. now exists [], [].
  - destruct (c =? sep)%N.
    + destruct Hin as [<-|Hin]; [now exists [], (c :: t)|].
      destruct (IH line Hin) as (before & rest & ->).
      now exists (c :: before), rest.
    + destruct (split_on sep t) as [|first lines] eqn:E.
      * destruct Hin as [<-|[]]. destruct t; [now exists [], []|].
        simpl in E. destruct (_ =? _)%N; [discriminate|].
        now destruct (split_on sep t).
      * destruct Hin as [<-|Hin].
        -- destruct (split_on_first sep t first lines E) as [rest ->].
           now exists [], rest.
        -- destruct (IH line (or_intror Hin)) as (before & rest & ->).
           now exists (c :: before), rest.
Qed.

(** A word found in a line is found in the text. *)
Lemma contains_line sub sep (t line : pystr) :
  In line (split_on sep t) -> contains sub line = true ->
  contains sub t = true.
Proof.
  intros Hin Hsub.
  destruct (split_on_piece sep t line Hin) as (before & rest & ->).
  destruct (contains_inv sub line Hsub) as (x & y & ->).
  replace (before ++ (x ++ sub ++ y) ++ rest)
    with ((before ++ x) ++ sub ++ (y ++ rest))
    by (now rewrite <- !app_assoc).
  apply contains_app.
Qed.

(** X26. When the lower-cased text contains none of the words [must],
    [require], [shall] and [should], [analyze_rfp_requirements] extracts
    nothing: every list of the dict it returns is empty, whatever
    category words the text has. *)
Theorem analyze_rfp_requirements_needs_obligation :
  forall rfp_text (s : state env) key,
    any_in obligation_keywords (str_lower rfp_text) = false ->
    key ∈ requirement_keys ->
    exists requirements s',
      analyze_rfp_requirements env str_lower rfp_text s
      = (Return requirements, s')
      /\ requirements !! key = Some [].
Proof.
  intros rfp_text s key Hnone Hkey.
  unfold analyze_rfp_requirements. rewrite bind_log_eq. unfold ret.
  eexists _, _. split; [reflexivity|].
  rewrite (fold_analyze_line _ _ key []).
  2:{ unfold requirement_keys in Hkey. unfold initial_requirements.
      repeat (apply elem_of_cons in Hkey as [->|Hkey];
              [now rewrite ?lookup_insert_ne, lookup_insert_eq by discriminate|]).
      now apply elem_of_nil in Hkey. }
  simpl. f_equal. unfold filed_under.
  assert (Hlines : forall line,
            In line (split_on NL (str_lower rfp_text)) ->
            category_of line = None).
  { intros line Hin. unfold category_of.
    destruct (any_in obligation_keywords line) eqn:Hob; [|reflexivity].
    exfalso. unfold any_in in Hob, Hnone.
    apply existsb_exists in Hob as (kw & Hkw & Hsub).
    assert (Hfound : existsb (fun kw => contains kw (str_lower rfp_text))
                       obligation_keywords = true).
    { apply existsb_exists. exists kw. split; [exact Hkw|].
      eapply contains_line; eauto. }
    congruence. }
  induction (split_on NL (str_lower rfp_text)) as [|line lines IH];
    [reflexivity|].
  simpl. rewrite (Hlines line) by now left.
  rewrite bool_decide_eq_false_2 by discriminate.
  apply IH. intros l Hl. apply Hlines. now right.
Qed.

End ToolsEdge.

Lemma analyze_rfp_requirements_files_lines_witness :
  filed_under (py "technical") (split_on NL (lower example_rfp_text))
  = [py "the system must scale"]
  /\ exists requirements s',
       analyze_rfp_requirements example_env lower example_rfp_text
         (example_state ∅)
       = (Return requirements, s')
       /\ requirements !! py "technical"
          = Some (filed_under (py "technical")
                    (split_on NL (lower example_rfp_text))).
Proof.
  split; [vm_compute; reflexivity|].
  apply (analyze_rfp_requirements_files_lines example_env lower
           example_rfp_text (example_state ∅) (py "technical")).
  unfold requirement_keys. set_solver.
Defined.

Lemma analyze_rfp_requirements_needs_obligation_witness :
  exists requirements s',
    analyze_rfp_requirements example_env lower (py "Nice weather for a system")
      (example_state ∅)
    = (Return requirements, s')
    /\ requirements !! py "technical" = Some [].
Proof.
  apply (analyze_rfp_requirements_needs_obligation example_env lower
           (py "Nice weather for a system") (example_state ∅) (py "technical")).
  - vm_compute; reflexivity.
  - unfold requirement_keys. set_solver.
Defined.

